(** * ssh_exporter: the execution and result-aggregation engine

    A shallow embedding of [util/main.go] (package [util] of
    Nordstrom/ssh_exporter): configuration normalisation ([adjustConfig]),
    the per-host executor ([executeScriptOnHost] and the goroutine body of
    [executeScript]), the batch dispatcher ([BatchExecute]) with its
    goroutines, wait group and channel, and the exposition formatter
    ([PrometheusFormatResponse]).

    Go strings are byte strings: [string].  Go [int] (64 bit on the amd64
    targets of the Makefile) is [Z]; the only arithmetic the program does on
    it is the range check of [strconv.ParseInt], written out below. *)

From Stdlib Require Import ZArith List String Ascii Bool Lia.
Import ListNotations.
Local Open Scope string_scope.
Local Open Scope Z_scope.

Set Implicit Arguments.

(* ================================================================== *)
(** * Byte strings and the pieces of Go's standard library the code calls *)
(* ================================================================== *)

Module GoString.

(** The bytes the source writes with escapes. *)
Definition nl_char : ascii := ascii_of_nat 10.
Definition nl : string := String nl_char EmptyString.
Definition dq : string := String (ascii_of_nat 34) EmptyString.

(** [strings.HasPrefix(s, p)]. *)
Fixpoint has_prefix (p s : string) : bool :=
  match p, s with
  | EmptyString, _ => true
  | String a p', String b s' => Ascii.eqb a b && has_prefix p' s'
  | String _ _, EmptyString => false
  end.

(** [strings.Replace(s, old, new, -1)] for a non-empty [old]: the
    non-overlapping occurrences of [old] are replaced from left to right.
    [skip] counts the bytes of an occurrence still to be dropped.  (For
    an empty [old] Go inserts [new] at every rune boundary; the program
    never calls it that way and the model leaves [s] unchanged there.) *)
Fixpoint replace_from (skip : nat) (s old new : string) : string :=
  match s with
  | EmptyString => EmptyString
  | String c s' =>
      match skip with
      | S k => replace_from k s' old new
      | O =>
          if has_prefix old s
          then new ++ replace_from (String.length old - 1) s' old new
          else String c (replace_from O s' old new)
      end
  end.

Definition Replace (s old new : string) : string :=
  match old with
  | EmptyString => s
  | _ => replace_from O s old new
  end.

(** Bytewise substitution, the way the documentation of [literalFormat]
    words it: every newline character becomes the two characters
    backslash and n. *)
Fixpoint escape_newlines (s : string) : string :=
  match s with
  | EmptyString => EmptyString
  | String c s' =>
      if Ascii.eqb c nl_char then String "\" (String "n" (escape_newlines s'))
      else String c (escape_newlines s')
  end.

Fixpoint contains_char (c : ascii) (s : string) : bool :=
  match s with
  | EmptyString => false
  | String d s' => Ascii.eqb c d || contains_char c s'
  end.

(** ** [%d]: decimal rendering of an integer ([fmt.Sprintf]) *)

Definition digit_char (d : Z) : ascii := ascii_of_nat (48 + Z.to_nat d).

Fixpoint fmt_uint_aux (fuel : nat) (n : Z) (acc : string) : string :=
  let acc' := String (digit_char (n mod 10)) acc in
  match fuel with
  | O => acc'
  | S f => if n <? 10 then acc' else fmt_uint_aux f (n / 10) acc'
  end.

(** A number below [2^(k+1)] has at most [k+1] decimal digits. *)
Definition fmt_uint (n : Z) : string :=
  fmt_uint_aux (Z.to_nat (Z.log2 n)) n EmptyString.

Definition fmt_d (n : Z) : string :=
  if n <? 0 then String "-" (fmt_uint (- n)) else fmt_uint n.

(** ** [fmt.Sscanf(s, "Process exited with status %d", &n)] *)

(** ASCII white space of [fmt]'s [isSpace]; the newline is treated apart
    by every caller. *)
Definition is_space (c : ascii) : bool :=
  let n := nat_of_ascii c in
  ((9 <=? n)%nat && (n <=? 13)%nat) || (n =? 32)%nat.

Definition is_blank (c : ascii) : bool :=
  is_space c && negb (Ascii.eqb c nl_char).

Fixpoint skip_blanks (s : string) : string :=
  match s with
  | String c s' => if is_blank c then skip_blanks s' else s
  | EmptyString => s
  end.

(** [ss.advance] on a format made of literal bytes and single spaces: a
    literal byte must be the next input byte; a space of the format
    matches one or more blanks of the input, or the end of input.
    [None] is the scan error. *)
Fixpoint advance (format input : string) : option string :=
  match format with
  | EmptyString => Some input
  | String f format' =>
      if is_blank f then
        match input with
        | EmptyString => advance format' input
        | String c _ =>
            if is_blank c then advance format' (skip_blanks input) else None
        end
      else
        match input with
        | EmptyString => None
        | String c input' =>
            if Ascii.eqb f c then advance format' input' else None
        end
  end.

(** [ss.SkipSpace] of [Sscanf] (newlines are not spaces there): [None]
    on a newline. *)
Definition SkipSpace (s : string) : option string :=
  match skip_blanks s with
  | String c r => if Ascii.eqb c nl_char then None else Some (String c r)
  | EmptyString => Some EmptyString
  end.

Definition is_digit (c : ascii) : bool :=
  let n := nat_of_ascii c in (48 <=? n)%nat && (n <=? 57)%nat.

(** The bytes [scanNumber] accepts for a decimal: digits and [_]. *)
Definition is_number_byte (c : ascii) : bool :=
  is_digit c || Ascii.eqb c "_".

Fixpoint scanNumber (s : string) : string * string :=
  match s with
  | String c s' =>
      if is_number_byte c
      then let '(tok, rest) := scanNumber s' in (String c tok, rest)
      else (EmptyString, s)
  | EmptyString => (EmptyString, EmptyString)
  end.

(** Only digits; and whether a string begins with a byte that
    [scanNumber] would take. *)
Fixpoint all_digits (s : string) : bool :=
  match s with
  | EmptyString => true
  | String c s' => is_digit c && all_digits s'
  end.

Definition starts_number (s : string) : bool :=
  match s with
  | String c _ => is_number_byte c
  | EmptyString => false
  end.

(** Value of a digit string, most significant digit first; [None] when a
    byte is not a digit (the underscore, which base 10 refuses). *)
Fixpoint digits_value (s : string) (acc : Z) : option Z :=
  match s with
  | EmptyString => Some acc
  | String c s' =>
      if is_digit c
      then digits_value s' (acc * 10 + (Z.of_nat (nat_of_ascii c) - 48))
      else None
  end.

(** [strconv.ParseInt(sign ++ tok, 10, 64)]: a range error outside
    [-2^63, 2^63). *)
Definition ParseInt (neg : bool) (tok : string) : option Z :=
  match tok with
  | EmptyString => None
  | _ =>
      match digits_value tok 0 with
      | Some v =>
          let i := if neg then - v else v in
          if (- 2 ^ 63 <=? i) && (i <? 2 ^ 63) then Some i else None
      | None => None
      end
  end.

(** [scanInt] for the verb [%d]: blanks, an optional sign, the number. *)
Definition scanInt (s : string) : option Z :=
  match SkipSpace s with
  | None => None
  | Some EmptyString => None
  | Some (String c r as s1) =>
      let '(neg, s2) :=
        if Ascii.eqb c "-" then (true, r)
        else if Ascii.eqb c "+" then (false, r)
        else (false, s1) in
      ParseInt neg (fst (scanNumber s2))
  end.

Definition exit_status_format : string := "Process exited with status ".

(** The whole call: [Some n] when the scan stores [n], [None] when it
    fails and leaves the variable as it was. *)
Definition Sscanf_exit_status (s : string) : option Z :=
  match advance exit_status_format s with
  | Some rest => scanInt rest
  | None => None
  end.

End GoString.

Import GoString.

(* ================================================================== *)
(** * Data model *)
(* ================================================================== *)

(** [CredentialConfig]: one host of a script and, at run time, the result
    of the script on that host. *)
Record CredentialConfig := mkCredentialConfig {
  Host : string;
  Port : string;
  User : string;
  KeyFile : string;
  ScriptResult : string;
  ScriptReturnCode : Z;
  ScriptError : string;
  ResultPatternMatch : Z
}.

(** [ScriptConfig]; [ParsedTimeout] is a [time.Duration], in nanoseconds. *)
Record ScriptConfig := mkScriptConfig {
  Name : string;
  Script : string;
  Timeout : string;
  Pattern : string;
  Credentials : list CredentialConfig;
  ParsedTimeout : Z;
  Ignored : bool
}.

Record Config := mkConfig {
  Version : string;
  Scripts : list ScriptConfig
}.

(** A Go [error] is observed by this program only through [%v], so it is
    its text; [None] is [nil]. *)
Definition error := option string.

(** Field updates, as the assignments of the source. *)
Definition set_Port (v : string) (c : CredentialConfig) : CredentialConfig :=
  mkCredentialConfig (Host c) v (User c) (KeyFile c) (ScriptResult c)
    (ScriptReturnCode c) (ScriptError c) (ResultPatternMatch c).
Definition set_ScriptResult (v : string) (c : CredentialConfig) : CredentialConfig :=
  mkCredentialConfig (Host c) (Port c) (User c) (KeyFile c) v
    (ScriptReturnCode c) (ScriptError c) (ResultPatternMatch c).
Definition set_ScriptReturnCode (v : Z) (c : CredentialConfig) : CredentialConfig :=
  mkCredentialConfig (Host c) (Port c) (User c) (KeyFile c) (ScriptResult c)
    v (ScriptError c) (ResultPatternMatch c).
Definition set_ScriptError (v : string) (c : CredentialConfig) : CredentialConfig :=
  mkCredentialConfig (Host c) (Port c) (User c) (KeyFile c) (ScriptResult c)
    (ScriptReturnCode c) v (ResultPatternMatch c).
Definition set_ResultPatternMatch (v : Z) (c : CredentialConfig) : CredentialConfig :=
  mkCredentialConfig (Host c) (Port c) (User c) (KeyFile c) (ScriptResult c)
    (ScriptReturnCode c) (ScriptError c) v.

Definition set_Credentials (v : list CredentialConfig) (s : ScriptConfig) : ScriptConfig :=
  mkScriptConfig (Name s) (Script s) (Timeout s) (Pattern s) v
    (ParsedTimeout s) (Ignored s).
Definition set_ParsedTimeout (v : Z) (s : ScriptConfig) : ScriptConfig :=
  mkScriptConfig (Name s) (Script s) (Timeout s) (Pattern s) (Credentials s)
    v (Ignored s).
Definition set_Ignored (v : bool) (s : ScriptConfig) : ScriptConfig :=
  mkScriptConfig (Name s) (Script s) (Timeout s) (Pattern s) (Credentials s)
    (ParsedTimeout s) v.

Definition set_Scripts (v : list ScriptConfig) (c : Config) : Config :=
  mkConfig (Version c) v.

(** [l[i] = f(l[i])] for an index the source takes from a [range] over
    [l] itself, hence in bounds; out of bounds the list is left as it
    is (Go would panic, and no caller below gets there). *)
Fixpoint update {A : Type} (i : nat) (f : A -> A) (l : list A) : list A :=
  match l, i with
  | [], _ => []
  | x :: l', O => f x :: l'
  | x :: l', S k => x :: update k f l'
  end.

(* ================================================================== *)
(** * [adjustConfig] *)
(* ================================================================== *)

Definition Second : Z := 1000000000.

Section AdjustConfig.

(** [time.ParseDuration], the text of its error dropped (the program
    only logs it). *)
Variable ParseDuration : string -> option Z.

Definition adjustCredential (v_j : CredentialConfig) : CredentialConfig :=
  if String.eqb (Port v_j) EmptyString then set_Port "22" v_j else v_j.

(** One turn of the outer loop.  The fallback re-parses the literal
    ["10s"] and drops the error of that call: a failure there would
    leave the zero duration. *)
Definition adjustScript (v_i : ScriptConfig) : ScriptConfig :=
  let s := set_Credentials (map adjustCredential (Credentials v_i)) v_i in
  match ParseDuration (Timeout s) with
  | Some tmp => set_ParsedTimeout tmp s
  | None =>
      set_ParsedTimeout
        (match ParseDuration "10s" with Some d => d | None => 0 end) s
  end.

Definition adjustConfig (c : Config) : Config * error :=
  (set_Scripts (map adjustScript (Scripts c)) c, None).

End AdjustConfig.

(* ================================================================== *)
(** * [PrometheusFormatResponse] *)
(* ================================================================== *)

(** [fmt.Sprintf(exitStatusFormatStr, i.Name, i.Name, j.Host, j.User,
    i.Script, j.ScriptReturnCode, j.ScriptReturnCode)]. *)
Definition exitStatusLine (i : ScriptConfig) (j : CredentialConfig) : string :=
  "ssh_exporter_" ++ Name i ++ "_exit_status{name=" ++ dq ++ Name i ++ dq
  ++ ",host=" ++ dq ++ Host j ++ dq ++ ",user=" ++ dq ++ User j ++ dq
  ++ ",script=" ++ dq ++ Script i ++ dq
  ++ ",exit_status=" ++ dq ++ fmt_d (ScriptReturnCode j) ++ dq ++ "} "
  ++ fmt_d (ScriptReturnCode j).

(** [fmt.Sprintf(patternMatchFormatStr, i.Name, i.Name, j.Host, j.User,
    i.Script, i.Pattern, j.ResultPatternMatch)]. *)
Definition patternMatchLine (i : ScriptConfig) (j : CredentialConfig) : string :=
  "ssh_exporter_" ++ Name i ++ "_pattern_match{name=" ++ dq ++ Name i ++ dq
  ++ ",host=" ++ dq ++ Host j ++ dq ++ ",user=" ++ dq ++ User j ++ dq
  ++ ",script=" ++ dq ++ Script i ++ dq
  ++ ",regex=" ++ dq ++ Pattern i ++ dq ++ "} "
  ++ fmt_d (ResultPatternMatch j).

Definition typeLine : string := "# TYPE ssh_exporter gauge".

Definition exitStatusHelpLine (name : string) : string :=
  "# HELP ssh_exporter_" ++ name ++
  "_exit_status Integer exit status of commands and metadata about the command's execution.".

Definition patternMatchHelpLine (name : string) : string :=
  "# HELP ssh_exporter_" ++ name ++
  "_pattern_match Boolean match of regex on output of script of commands and metadata about the command's execution.".

(** [exitedDoc] and [matchedDoc]: two lines each, no newline at the end. *)
Definition exitedDoc (i : ScriptConfig) : string :=
  exitStatusHelpLine (Name i) ++ nl ++ typeLine.
Definition matchedDoc (i : ScriptConfig) : string :=
  patternMatchHelpLine (Name i) ++ nl ++ typeLine.

(** The body of the outer loop: [response] is rebuilt by appending. *)
Definition formatScript (response : string) (i : ScriptConfig) : string :=
  if negb (Ignored i) then
    let response := response ++ exitedDoc i in
    let response :=
      fold_left (fun r j => r ++ nl ++ exitStatusLine i j) (Credentials i) response in
    let response := response ++ nl ++ matchedDoc i in
    let response :=
      fold_left (fun r j => r ++ nl ++ patternMatchLine i j) (Credentials i) response in
    response ++ nl
  else response.

Definition PrometheusFormatResponse (c : Config) : string * error :=
  (fold_left formatScript (Scripts c) EmptyString, None).

(** ** The layout, line by line *)

(** Every line followed by one newline. *)
Fixpoint unlines (ls : list string) : string :=
  match ls with
  | [] => EmptyString
  | l :: ls' => l ++ nl ++ unlines ls'
  end.

(** The lines of one script's block as the code emits them. *)
Definition blockLines (i : ScriptConfig) : list string :=
  ([exitStatusHelpLine (Name i); typeLine]
   ++ map (exitStatusLine i) (Credentials i)
   ++ [patternMatchHelpLine (Name i); typeLine]
   ++ map (patternMatchLine i) (Credentials i))%list.

Definition selected (i : ScriptConfig) : bool := negb (Ignored i).

Definition concatStrings (ls : list string) : string :=
  fold_right String.append EmptyString ls.

(** The document as the sequence of the selected scripts' blocks. *)
Definition documentOf (blockOf : ScriptConfig -> string) (c : Config) : string :=
  concatStrings (map blockOf (filter selected (Scripts c))).

(** The layout of the specification: the block's lines, then a blank
    line that terminates the block. *)
Definition specBlock (i : ScriptConfig) : string :=
  unlines (blockLines i ++ [EmptyString]).

(** The layout of the code: the block's lines, nothing after them. *)
Definition codeBlock (i : ScriptConfig) : string :=
  unlines (blockLines i).

(* ================================================================== *)
(** * The per-host executor and the batch dispatcher *)
(* ================================================================== *)

(** [BatchExecute] runs three kinds of goroutine: the one of the request,
    one [executeScript] per selected script, one closure per host.  They
    are modelled as an interleaving of their statements on a shared state;
    time is left out, so the timer of a [select] may fire at any moment.
    First the program points. *)

(** The goroutine of the request: the first [range] loop at index [i],
    [done.Wait()], the [select]s still to be done by the second loop
    nest, and the [return]. *)
Inductive MainPC :=
| MRange (i : nat)
| MWait
| MCollect (n : nat)
| MReturned.

(** [go executeScript(...)]: the call of [regexp.Compile]; in turn [j]
    of the [range] loop the header (the test and the assignment of [i]
    and [c]), then [done.Add(1)], then the [go] statement; the end. *)
Inductive SpawnerPC :=
| SCompile
| SRange (j : nat)
| SAdd (j : nat)
| SGo (j : nat)
| SExit.

(** The closure [go func() {...}()], statement by statement; [r] is the
    triple [result, status, err] it holds in its local variables. *)
Inductive TaskPC :=
| TStart
| TWriteCode (r : string * Z * error)
| TWriteResult (r : string * Z * error)
| TWriteError (r : string * Z * error)
| TMatch (r : string * Z * error)
| TSend
| TDone
| TExit.

(** What a scheduler can pick: a step of the request's goroutine, the
    timer branch of its [select], the receive branch of its [select]
    together with the send of task [k] (the channel is unbuffered), a step
    of the [k]-th [executeScript] goroutine, a step of the [k]-th closure. *)
Inductive Action :=
| AMain
| ATimeout
| ARecv (k : nat)
| ASpawner (k : nat)
| ATask (k : nat).

Section Exporter.

(** Package [regexp]: compiled expressions, [regexp.Compile] ([None] is
    the nil pointer it returns with an error) and the method [MatchString]
    of a compiled expression. *)
Variable Regexp : Type.
Variable regexp_Compile : string -> option Regexp.
Variable MatchString : Regexp -> string -> bool.

(** The remote-shell transport: [sshConnectToHost host port user keyfile]
    yields a session or the text of the error of [ssh.Dial] or
    [NewSession]; [session.CombinedOutput(script)] yields the output and
    an error. *)
Variable Session : Type.
Variable sshConnectToHost : string -> string -> string -> string -> Session + string.
Variable CombinedOutput : Session -> string -> string * error.

Definition literalFormat (input : string) : string :=
  Replace input nl "\n".

(** [errorStatusCode] is declared zero and only a successful scan
    changes it. *)
Definition executeScriptOnHost (host port user keyfile script : string)
  : string * Z * error :=
  match sshConnectToHost host port user keyfile with
  | inr err => (EmptyString, -1, Some err)
  | inl session =>
      match CombinedOutput session script with
      | (_, Some err) =>
          let errorStatusCode :=
            match Sscanf_exit_status err with Some n => n | None => 0 end in
          if negb (errorStatusCode =? 0)
          then (EmptyString, errorStatusCode, Some err)
          else (EmptyString, -1, Some err)
      | (out, None) => (literalFormat out, 0, None)
      end
  end.

(** ** The statements of the closure, on the slot number [i] of [creds] *)

Definition writeCode (r : string * Z * error) : CredentialConfig -> CredentialConfig :=
  set_ScriptReturnCode (snd (fst r)).
Definition writeResult (r : string * Z * error) : CredentialConfig -> CredentialConfig :=
  set_ScriptResult (fst (fst r)).
Definition writeError (r : string * Z * error) : CredentialConfig -> CredentialConfig :=
  match snd r with
  | Some e => set_ScriptError e
  | None => fun slot => slot
  end.
Definition writeMatch (re : Regexp) (r : string * Z * error)
  : CredentialConfig -> CredentialConfig :=
  set_ResultPatternMatch (if MatchString re (fst (fst r)) then 1 else 0).

(** The five statements of the closure composed, for a credential [c]
    and a slot that stay the same from the call to the last assignment:
    the new slot, or [None] when [match.MatchString] is called on the nil
    pointer, a run-time panic that nothing recovers.  The closure itself is
    [stepTask] below, which reads the shared [c] at its call and the shared
    [i] at each assignment; [five_steps] relates the two. *)
Definition hostTask (script : string) (match_ : option Regexp)
    (c slot : CredentialConfig) : option CredentialConfig :=
  let r := executeScriptOnHost (Host c) (Port c) (User c) (KeyFile c) script in
  let slot := writeError r (writeResult r (writeCode r slot)) in
  match match_ with
  | Some re => Some (writeMatch re r slot)
  | None => None
  end.

(** ** The goroutines *)

(** An [executeScript] goroutine: its arguments ([creds] points to the
    [Credentials] of script number [sp_creds]), [match], and the two
    variables [i] and [c] of its [range] loop.  As in the Go of this
    code (before 1.22) the loop has one [i] and one [c] for all its
    iterations, and the closures refer to them. *)
Record Spawner := mkSpawner {
  sp_script : string;
  sp_pattern : string;
  sp_creds : nat;
  sp_pc : SpawnerPC;
  sp_match : option Regexp;
  sp_i : nat;
  sp_c : CredentialConfig
}.

(** A closure: the [executeScript] goroutine whose variables it
    captured, and its program point. *)
Record Task := mkTask {
  t_owner : nat;
  t_pc : TaskPC
}.

(** The state of one call of [BatchExecute]: the configuration [*c]
    shared by all goroutines, the counter of [done], the goroutines, and
    whether a panic has ended the process.  [contacted] is a ghost log of
    the calls of [sshConnectToHost]: script number and credential. *)
Record State := mkState {
  conf : Config;
  wg : Z;
  main : MainPC;
  spawners : list Spawner;
  tasks : list Task;
  contacted : list (nat * CredentialConfig);
  crashed : bool
}.

Definition zeroCredential : CredentialConfig :=
  mkCredentialConfig EmptyString EmptyString EmptyString EmptyString
    EmptyString 0 EmptyString 0.

Definition initState (c : Config) : State :=
  mkState c 0 (MRange 0) [] [] [] false.

Definition with_conf (v : Config) (st : State) : State :=
  mkState v (wg st) (main st) (spawners st) (tasks st) (contacted st) (crashed st).
Definition with_wg (v : Z) (st : State) : State :=
  mkState (conf st) v (main st) (spawners st) (tasks st) (contacted st) (crashed st).
Definition with_main (v : MainPC) (st : State) : State :=
  mkState (conf st) (wg st) v (spawners st) (tasks st) (contacted st) (crashed st).
Definition with_spawners (v : list Spawner) (st : State) : State :=
  mkState (conf st) (wg st) (main st) v (tasks st) (contacted st) (crashed st).
Definition with_tasks (v : list Task) (st : State) : State :=
  mkState (conf st) (wg st) (main st) (spawners st) v (contacted st) (crashed st).
Definition with_contacted (v : list (nat * CredentialConfig)) (st : State) : State :=
  mkState (conf st) (wg st) (main st) (spawners st) (tasks st) v (crashed st).
Definition with_crashed (v : bool) (st : State) : State :=
  mkState (conf st) (wg st) (main st) (spawners st) (tasks st) (contacted st) v.

Definition set_sp_pc (v : SpawnerPC) (s : Spawner) : Spawner :=
  mkSpawner (sp_script s) (sp_pattern s) (sp_creds s) v (sp_match s) (sp_i s) (sp_c s).
Definition set_t_pc (v : TaskPC) (t : Task) : Task :=
  mkTask (t_owner t) v.

(** [c.Scripts[k].Credentials[i] = f(...)]. *)
Definition writeSlot (k i : nat) (f : CredentialConfig -> CredentialConfig)
    (c : Config) : Config :=
  set_Scripts
    (update k (fun s => set_Credentials (update i f (Credentials s)) s) (Scripts c))
    c.

(** The number of [select]s of the second loop nest: one for every
    credential of every script that is not [Ignored].  Nothing writes
    [Ignored] or changes the length of a [Credentials] slice once the
    first loop is over. *)
Definition pendingSelects (c : Config) : nat :=
  list_sum
    (map (fun v => if Ignored v then O else List.length (Credentials v)) (Scripts c)).

Section Run.

(** The compiled name filter [p]. *)
Variable p : Regexp.

Definition stepMain (st : State) : option State :=
  match main st with
  | MRange i =>
      match nth_error (Scripts (conf st)) i with
      | Some v =>
          if negb (MatchString p (Name v))
          then Some (with_main (MRange (S i))
                       (with_conf (set_Scripts (update i (set_Ignored true)
                                                  (Scripts (conf st))) (conf st)) st))
          else Some (with_main (MRange (S i))
                       (with_spawners
                          (spawners st ++
                           [mkSpawner (Script v) (Pattern v) i SCompile None O
                              zeroCredential])%list st))
      | None => Some (with_main MWait st)
      end
  | MWait =>
      if wg st =? 0
      then Some (with_main (MCollect (pendingSelects (conf st))) st)
      else None
  | MCollect O => Some (with_main MReturned st)
  | MCollect (S _) => None
  | MReturned => None
  end.

Definition stepTimeout (st : State) : option State :=
  match main st with
  | MCollect (S n) => Some (with_main (MCollect n) st)
  | _ => None
  end.

Definition stepRecv (k : nat) (st : State) : option State :=
  match main st, nth_error (tasks st) k with
  | MCollect (S n), Some t =>
      match t_pc t with
      | TSend =>
          Some (with_main (MCollect n)
                  (with_tasks (update k (set_t_pc TDone) (tasks st)) st))
      | _ => None
      end
  | _, _ => None
  end.

(** A statement of [executeScript].  One turn of
    [for i, c := range *creds] is three steps: the header, which ends the
    loop or assigns the loop variables, [done.Add(1)], and the [go]
    statement, which starts a closure at its first statement. *)
Definition stepSpawner (k : nat) (st : State) : option State :=
  match nth_error (spawners st) k with
  | None => None
  | Some sp =>
      match sp_pc sp with
      | SCompile =>
          Some (with_spawners
                  (update k (fun s =>
                     mkSpawner (sp_script s) (sp_pattern s) (sp_creds s)
                       (SRange O) (regexp_Compile (sp_pattern s)) (sp_i s) (sp_c s))
                     (spawners st)) st)
      | SRange j =>
          match nth_error (Scripts (conf st)) (sp_creds sp) with
          | None => None
          | Some v =>
              match nth_error (Credentials v) j with
              | Some cr =>
                  Some (with_spawners
                          (update k (fun s =>
                             mkSpawner (sp_script s) (sp_pattern s)
                               (sp_creds s) (SAdd j) (sp_match s) j cr)
                             (spawners st)) st)
              | None =>
                  Some (with_spawners (update k (set_sp_pc SExit) (spawners st)) st)
              end
          end
      | SAdd j =>
          Some (with_wg (wg st + 1)
                  (with_spawners (update k (set_sp_pc (SGo j)) (spawners st)) st))
      | SGo j =>
          Some (with_tasks (tasks st ++ [mkTask k TStart])%list
                  (with_spawners (update k (set_sp_pc (SRange (S j))) (spawners st)) st))
      | SExit => None
      end
  end.

Definition stepTask (k : nat) (st : State) : option State :=
  match nth_error (tasks st) k with
  | None => None
  | Some t =>
      match nth_error (spawners st) (t_owner t) with
      | None => None
      | Some sp =>
          let goto pc st' := with_tasks (update k (set_t_pc pc) (tasks st)) st' in
          let slot f := with_conf (writeSlot (sp_creds sp) (sp_i sp) f (conf st)) st in
          match t_pc t with
          | TStart =>
              let c := sp_c sp in
              let r := executeScriptOnHost (Host c) (Port c) (User c) (KeyFile c)
                         (sp_script sp) in
              Some (goto (TWriteCode r)
                      (with_contacted ((sp_creds sp, c) :: contacted st) st))
          | TWriteCode r => Some (goto (TWriteResult r) (slot (writeCode r)))
          | TWriteResult r => Some (goto (TWriteError r) (slot (writeResult r)))
          | TWriteError r => Some (goto (TMatch r) (slot (writeError r)))
          | TMatch r =>
              match sp_match sp with
              | Some re => Some (goto TSend (slot (writeMatch re r)))
              | None => Some (with_crashed true st)
              end
          | TSend => None
          | TDone => Some (goto TExit (with_wg (wg st - 1) st))
          | TExit => None
          end
      end
  end.

(** One step of the program under the scheduler's choice; [None] when
    the chosen goroutine is blocked or gone, or the process is dead. *)
Definition step (a : Action) (st : State) : option State :=
  if crashed st then None
  else match a with
       | AMain => stepMain st
       | ATimeout => stepTimeout st
       | ARecv k => stepRecv k st
       | ASpawner k => stepSpawner k st
       | ATask k => stepTask k st
       end.

Fixpoint run (sched : list Action) (st : State) : option State :=
  match sched with
  | [] => Some st
  | a :: sched' =>
      match step a st with
      | Some st' => run sched' st'
      | None => None
      end
  end.

(** [return *c, nil]: what the caller of [BatchExecute] gets once the
    request's goroutine is at its [return]. *)
Definition BatchExecute_result (st : State) : option (Config * error) :=
  match main st with
  | MReturned => Some (conf st, None)
  | _ => None
  end.

End Run.

End Exporter.

(* ================================================================== *)
(** * Concrete instances of the library interfaces *)
(* ================================================================== *)

(** A fragment of package [regexp]: literal bytes, [.], a single postfix
    [*], alternation and grouping, with Go's unanchored search.  It is
    where the closed examples below take their name filters and match
    patterns from.  [Compile] answers [None] for what Go rejects inside
    the fragment (an unbalanced parenthesis, a [*] with nothing to repeat
    or after another [*]) and also for every pattern using a
    metacharacter outside the fragment, which this development never
    passes to it. *)
Module RegexpFragment.

Inductive re :=
| Nul
| Eps
| Chr (c : ascii)
| Dot
| Cat (r1 r2 : re)
| Alt (r1 r2 : re)
| Star (r : re).

Fixpoint nullable (r : re) : bool :=
  match r with
  | Nul | Chr _ | Dot => false
  | Eps | Star _ => true
  | Cat r1 r2 => nullable r1 && nullable r2
  | Alt r1 r2 => nullable r1 || nullable r2
  end.

(** The derivative of [r] by the byte [c]; [.] is any byte but the
    newline. *)
Fixpoint deriv (c : ascii) (r : re) : re :=
  match r with
  | Nul | Eps => Nul
  | Chr d => if Ascii.eqb c d then Eps else Nul
  | Dot => if Ascii.eqb c nl_char then Nul else Eps
  | Cat r1 r2 =>
      if nullable r1
      then Alt (Cat (deriv c r1) r2) (deriv c r2)
      else Cat (deriv c r1) r2
  | Alt r1 r2 => Alt (deriv c r1) (deriv c r2)
  | Star r1 => Cat (deriv c r1) (Star r1)
  end.

(** Some prefix of [s] is in the language of [r]. *)
Fixpoint match_here (r : re) (s : string) : bool :=
  nullable r ||
  match s with
  | String c s' => match_here (deriv c r) s'
  | EmptyString => false
  end.

(** Some substring of [s] is in the language of [r]. *)
Fixpoint MatchString (r : re) (s : string) : bool :=
  match_here r s ||
  match s with
  | String _ s' => MatchString r s'
  | EmptyString => false
  end.

Definition is_meta (c : ascii) : bool :=
  contains_char c "\.+*?()|[]{}^$".

Fixpoint parse_alt (fuel : nat) (s : string) : option (re * string) :=
  match fuel with
  | O => None
  | S f =>
      match parse_cat f s Eps with
      | Some (r1, String "|" rest) =>
          match parse_alt f rest with
          | Some (r2, rest') => Some (Alt r1 r2, rest')
          | None => None
          end
      | other => other
      end
  end
with parse_cat (fuel : nat) (s : string) (acc : re) : option (re * string) :=
  match fuel with
  | O => None
  | S f =>
      match s with
      | EmptyString => Some (acc, s)
      | String c _ =>
          if Ascii.eqb c "|" || Ascii.eqb c ")" then Some (acc, s)
          else
            match parse_atom f s with
            | Some (a, String "*" (String "*" _)) => None
            | Some (a, String "*" rest) => parse_cat f rest (Cat acc (Star a))
            | Some (a, rest) => parse_cat f rest (Cat acc a)
            | None => None
            end
      end
  end
with parse_atom (fuel : nat) (s : string) : option (re * string) :=
  match fuel with
  | O => None
  | S f =>
      match s with
      | String "(" rest =>
          match parse_alt f rest with
          | Some (r, String ")" rest') => Some (r, rest')
          | _ => None
          end
      | String "." rest => Some (Dot, rest)
      | String c rest => if is_meta c then None else Some (Chr c, rest)
      | EmptyString => None
      end
  end.

Definition Compile (pattern : string) : option re :=
  match parse_alt (3 * String.length pattern + 3) pattern with
  | Some (r, EmptyString) => Some r
  | _ => None
  end.

End RegexpFragment.

(** [time.ParseDuration] on durations without a fractional part:
    [[-+]?([0-9]+unit)+] and the lone ["0"], with the overflow checks of the
    library.  A string with a decimal point is outside this fragment (and
    answered [None]); the examples below use ["5s"], ["10s"] and strings
    that no duration syntax accepts. *)
Module DurationFragment.

Fixpoint leadingInt (s : string) (x : Z) : option (Z * string) :=
  match s with
  | String c s' =>
      if is_digit c then
        if x >? 2 ^ 63 / 10 then None
        else
          let x' := x * 10 + (Z.of_nat (nat_of_ascii c) - 48) in
          if x' >? 2 ^ 63 then None else leadingInt s' x'
      else Some (x, s)
  | EmptyString => Some (x, s)
  end.

Fixpoint unitName (s : string) : string * string :=
  match s with
  | String c s' =>
      if Ascii.eqb c "." || is_digit c then (EmptyString, s)
      else let '(u, rest) := unitName s' in (String c u, rest)
  | EmptyString => (EmptyString, EmptyString)
  end.

Definition micro1 : string :=
  String (ascii_of_nat 194) (String (ascii_of_nat 181) "s").
Definition micro2 : string :=
  String (ascii_of_nat 206) (String (ascii_of_nat 188) "s").

Definition unitMap (u : string) : option Z :=
  if String.eqb u "ns" then Some 1
  else if String.eqb u "us" then Some 1000
  else if String.eqb u micro1 then Some 1000
  else if String.eqb u micro2 then Some 1000
  else if String.eqb u "ms" then Some 1000000
  else if String.eqb u "s" then Some Second
  else if String.eqb u "m" then Some (60 * Second)
  else if String.eqb u "h" then Some (3600 * Second)
  else None.

Fixpoint groups (fuel : nat) (s : string) (d : Z) : option Z :=
  match s with
  | EmptyString => Some d
  | String c _ =>
      match fuel with
      | O => None
      | S f =>
          if negb (is_digit c) then None
          else
            match leadingInt s 0 with
            | None => None
            | Some (v, rest) =>
                let '(u, rest') := unitName rest in
                match unitMap u with
                | None => None
                | Some unit =>
                    if v >? 2 ^ 63 / unit then None
                    else
                      let d' := d + v * unit in
                      if d' >? 2 ^ 63 then None else groups f rest' d'
                end
            end
      end
  end.

Definition ParseDuration (s : string) : option Z :=
  let '(neg, s1) :=
    match s with
    | String "-" r => (true, r)
    | String "+" r => (false, r)
    | _ => (false, s)
    end in
  if String.eqb s1 "0" then Some 0
  else
    match s1 with
    | EmptyString => None
    | _ =>
        match groups (String.length s1) s1 0 with
        | None => None
        | Some d =>
            if neg then Some (- d)
            else if d >? 2 ^ 63 - 1 then None else Some d
        end
    end.

End DurationFragment.

(** [Waitmsg.String()] of package [ssh], the text of the [ExitError] that
    [CombinedOutput] returns when the remote command exits with a status
    other than zero: the status, the signal and the message the server
    sent. *)
Definition Waitmsg_String (status : Z) (signal msg : string) : string :=
  "Process exited with status " ++ fmt_d status
  ++ (if String.eqb signal EmptyString then EmptyString else " from signal " ++ signal)
  ++ (if String.eqb msg EmptyString then EmptyString else ". Reason was: " ++ msg).

(** A small network for the closed examples: the host [down.example]
    refuses the connection; on every other host [exit 3] exits with status
    3 after printing, [kill] ends without status or signal, and any other
    script prints two lines, [foo] and [bar]. *)
Module Network.

Definition Session := string.

Definition sshConnectToHost (host port user keyfile : string) : Session + string :=
  if String.eqb host "down.example"
  then inr ("dial tcp " ++ host ++ ":" ++ port ++ ": connect: connection refused")
  else inl host.

Definition CombinedOutput (session : Session) (script : string) : string * error :=
  if String.eqb script "exit 3"
  then ("partial" ++ nl, Some (Waitmsg_String 3 EmptyString EmptyString))
  else if String.eqb script "kill"
  then (EmptyString,
        Some "wait: remote command exited without exit status or exit signal")
  else ("foo" ++ nl ++ "bar" ++ nl, None).

End Network.

(** The program on the fragment instances above. *)
Abbreviation exampleHostTask :=
  (@hostTask RegexpFragment.re RegexpFragment.MatchString
     Network.Session Network.sshConnectToHost Network.CombinedOutput).
Abbreviation exampleRun :=
  (@run RegexpFragment.re RegexpFragment.Compile RegexpFragment.MatchString
     Network.Session Network.sshConnectToHost Network.CombinedOutput).
Abbreviation exampleStep :=
  (@step RegexpFragment.re RegexpFragment.Compile RegexpFragment.MatchString
     Network.Session Network.sshConnectToHost Network.CombinedOutput).

(** Configurations and requests for the closed examples. *)
Module Examples.

Definition credential (host port : string) : CredentialConfig :=
  mkCredentialConfig host port "monitor" "/etc/ssh_exporter/id_rsa"
    EmptyString 0 EmptyString 0.

Definition script (name cmd timeout pattern : string)
    (creds : list CredentialConfig) : ScriptConfig :=
  mkScriptConfig name cmd timeout pattern creds 0 false.

(** The populated configuration of [TestUnitPrometheusFormatResponse]. *)
Definition unitTestConf : Config :=
  mkConfig "v0"
    [mkScriptConfig "scriptName" "echo foo" "5s" "foo"
       [mkCredentialConfig "localhost" "2222" "username" "/noop"
          "foo" 0 EmptyString 1]
       Second false].

(** A configuration document as [yaml.Unmarshal] leaves it: one script
    without [timeout], hosts with and without [port]. *)
Definition rawConf : Config :=
  mkConfig "v0"
    [script "echo_output" "echo foo" EmptyString "foo"
       [credential "up.example" EmptyString; credential "down.example" "2222"]].

Definition adjustConfig : Config -> Config * error :=
  adjustConfig DurationFragment.ParseDuration.


(** A pattern of the examples, compiled ([Nul] stands for the nil
    pointer and is not reached: the patterns given here compile). *)
Definition compiled (pattern : string) : RegexpFragment.re :=
  match RegexpFragment.Compile pattern with
  | Some r => r
  | None => RegexpFragment.Nul
  end.

Definition State : Type := State RegexpFragment.re.

(** One script on one reachable host. *)
Definition probeConf : Config :=
  mkConfig "v0"
    [mkScriptConfig "echo_output" "echo foo" "5s" "foo"
       [credential "up.example" "22"] (5 * Second) false].

(** The same with a match pattern that does not compile. *)
Definition badPatternConf : Config :=
  mkConfig "v0"
    [mkScriptConfig "echo_output" "echo foo" "5s" "("
       [credential "up.example" "22"] (5 * Second) false].

(** Two scripts, of which a request for [echo_output] selects one. *)
Definition twoScriptsConf : Config :=
  mkConfig "v0"
    [mkScriptConfig "disk_usage" "df" "5s" "foo"
       [credential "up.example" "22"] (5 * Second) false;
     mkScriptConfig "echo_output" "echo foo" "5s" "foo"
       [credential "up.example" "22"] (5 * Second) false].

(** Three schedules of a request [pattern=.*] on one script and one host.

    In the first the request's goroutine reaches [done.Wait()] before the
    [executeScript] goroutine has run: the counter is still zero, the wait
    is over at once, and while the closure is at work the timer of the
    [select] fires. *)
Definition earlyReturnSchedule : list Action :=
  [AMain; AMain; AMain; ASpawner 0; ASpawner 0; ASpawner 0; ASpawner 0;
   ATask 0; ATimeout; AMain].

(** In the second the [executeScript] goroutine has called [done.Add(1)]
    before the request's goroutine reaches [done.Wait()]. *)
Definition addBeforeWaitSchedule : list Action :=
  [AMain; AMain; ASpawner 0; ASpawner 0; ASpawner 0; ASpawner 0; ASpawner 0;
   ATask 0; ATask 0; ATask 0; ATask 0; ATask 0].

(** In the third every goroutine runs to its end, the closure hands its
    signal to the [select]. *)
Definition completeSchedule : list Action :=
  [AMain; AMain; AMain; ASpawner 0; ASpawner 0; ASpawner 0; ASpawner 0; ASpawner 0;
   ATask 0; ATask 0; ATask 0; ATask 0; ATask 0; ARecv 0; ATask 0; AMain].

(** A request [pattern=echo_output] on two scripts, run to the end. *)
Definition twoScriptsSchedule : list Action :=
  [AMain; AMain; AMain; AMain;
   ASpawner 0; ASpawner 0; ASpawner 0; ASpawner 0; ASpawner 0;
   ATask 0; ATask 0; ATask 0; ATask 0; ATask 0; ARecv 0; ATask 0; AMain].

(** The request's goroutine alone on two scripts, none of which is
    selected. *)
Definition nothingSchedule : list Action :=
  [AMain; AMain; AMain; AMain; AMain].

(** Up to the launch of the closure. *)
Definition launchSchedule : list Action :=
  [AMain; AMain; ASpawner 0; ASpawner 0; ASpawner 0; ASpawner 0].

(** Up to [done.Add(1)]: the closure is announced and not launched. *)
Definition announceSchedule : list Action :=
  [AMain; AMain; ASpawner 0; ASpawner 0; ASpawner 0].

(** One script on two hosts, of which the second refuses the
    connection. *)
Definition twoHostsScript (cmd : string) : ScriptConfig :=
  mkScriptConfig "echo_output" cmd "5s" "foo"
    [credential "up.example" "22"; credential "down.example" "22"] (5 * Second) false.

Definition twoHostsConf (cmd : string) : Config :=
  mkConfig "v0" [twoHostsScript cmd].

(** One script without [pattern] on the host that refuses the
    connection. *)
Definition noPatternConf : Config :=
  mkConfig "v0"
    [mkScriptConfig "echo_output" "echo foo" "5s" EmptyString
       [credential "down.example" "22"] (5 * Second) false].

(** Schedules of a request [pattern=.*] on one script and two hosts; in
    all of them the request's goroutine has passed [done.Wait()] before
    the [executeScript] goroutine runs.

    Up to the launch of the first closure: the loop variables designate
    the first host. *)
Definition firstLaunchedSchedule : list Action :=
  [AMain; AMain; AMain; ASpawner 0; ASpawner 0; ASpawner 0; ASpawner 0].

(** Then the first closure does its call and its assignments, and a
    timer of the request's goroutine fires in between. *)
Definition firstClosureSchedule : list Action :=
  [ATask 0; ATimeout; ATask 0; ATask 0; ATask 0; ATask 0].

(** Up to the launch of the second closure: the loop variables designate
    the second host. *)
Definition secondLaunchedSchedule : list Action :=
  (firstLaunchedSchedule ++ [ASpawner 0; ASpawner 0; ASpawner 0])%list.

(** Then the second closure does its call and its assignments. *)
Definition secondClosureSchedule : list Action :=
  [ATask 1; ATimeout; ATask 1; ATask 1; ATask 1; ATask 1].

(** The loop moves under the first closure: the closure makes its call
    while [c] is the first host, the loop goes through its second turn
    and ends, and then the closure makes its four assignments, with [i]
    at 1.  After that the second closure runs, both hand their signal to
    a [select], both call [done.Done()], and [BatchExecute] returns. *)
Definition movedLoopSchedule : list Action :=
  (firstLaunchedSchedule
   ++ [ATask 0; ASpawner 0; ASpawner 0; ASpawner 0; ASpawner 0;
       ATask 0; ATask 0; ATask 0; ATask 0;
       ATask 1; ATask 1; ATask 1; ATask 1; ATask 1;
       ARecv 0; ARecv 1; ATask 0; ATask 1; AMain])%list.

(** The same up to the assignments of the first closure; then the second
    closure does not get to run before the timer of the second [select]
    fires. *)
Definition movedLoopTimeoutSchedule : list Action :=
  (firstLaunchedSchedule
   ++ [ATask 0; ASpawner 0; ASpawner 0; ASpawner 0; ASpawner 0;
       ATask 0; ATask 0; ATask 0; ATask 0;
       ARecv 0; ATask 0; ATimeout; AMain])%list.

(** The state a schedule leads to (the initial one if the schedule
    cannot be run). *)
Definition finalState (p : RegexpFragment.re) (sched : list Action) (c : Config)
  : State :=
  match exampleRun p sched (initState _ c) with
  | Some st => st
  | None => initState _ c
  end.

(** What the slots hold at the end, host by host: output, exit status,
    error text, match flag. *)
Definition slotReport (st : State) : list (list (string * string * Z * string * Z)) :=
  map (fun s =>
         map (fun cr => (Host cr, ScriptResult cr, ScriptReturnCode cr,
                         ScriptError cr, ResultPatternMatch cr))
           (Credentials s))
    (Scripts (conf st)).

(** What a slot holds at the end: output, exit status, match flag. *)
Definition slotResults (st : State) : list (list (string * Z * Z)) :=
  map (fun s =>
         map (fun cr => (ScriptResult cr, ScriptReturnCode cr, ResultPatternMatch cr))
           (Credentials s))
    (Scripts (conf st)).

End Examples.

(** ** Predicates on the states of a request *)

Section Invariants.

Variable Regexp : Type.

(** Script number [i] of the shared configuration is marked ignored. *)
Definition ignoredAt (i : nat) (st : State Regexp) : Prop :=
  exists s, nth_error (Scripts (conf st)) i = Some s /\ Ignored s = true.

(** The first loop of the request's goroutine is past index [i]. *)
Definition passed (i : nat) (pc : MainPC) : Prop :=
  match pc with
  | MRange j => (i < j)%nat
  | _ => True
  end.

(** What holds of script number [i] throughout a request whose filter
    does not match its name: the names of the scripts stay what they were,
    no [executeScript] goroutine works on its credentials, every closure
    belongs to an existing [executeScript] goroutine, none of its hosts was
    contacted, and it is marked ignored once the first loop is past it. *)
Record Untouched (names : list string) (i : nat) (st : State Regexp) : Prop := {
  inv_names : map Name (Scripts (conf st)) = names;
  inv_spawners : Forall (fun sp => sp_creds sp <> i) (spawners st);
  inv_tasks : Forall (fun t => (t_owner t < List.length (spawners st))%nat) (tasks st);
  inv_contacted : Forall (fun e => fst e <> i) (contacted st);
  inv_ignored : passed i (main st) -> ignoredAt i st
}.

End Invariants.

(* ================================================================== *)
(** * The callers: [ParseConfig], [ParseQuery] and the probe handler *)
(* ================================================================== *)

(** [patternHelpText] of [ssh_exporter.go], a raw string of four lines. *)
Definition patternHelpText : string :=
  "<p>Please include a valid <code>?pattern=[regex]</code>" ++ nl ++
  "query parameter in your URL. This should match the <bold>name</bold> of the" ++ nl ++
  "scripts you want to run (e.g., <code>?pattern=.*logs</code> matches" ++ nl ++
  "<code>chef_logs</code> and not <code>proc_status</code>)</p>.".

(** How a probe request ends: [log.Fatal] ends the process, or the
    handler hands a text to [fmt.Fprintf(w, ...)] as its format, or it
    never gets there ([BatchExecute] does not return). *)
Inductive Outcome :=
| ProcessExit
| NoReply
| Reply (format : string).

Section Handlers.

Variable Regexp : Type.
Variable regexp_Compile : string -> option Regexp.
Variable MatchString : Regexp -> string -> bool.
Variable Session : Type.
Variable sshConnectToHost : string -> string -> string -> string -> Session + string.
Variable CombinedOutput : Session -> string -> string * error.
Variable ParseDuration : string -> option Z.

(** The text of the error [regexp.Compile] returns with a nil pointer. *)
Variable regexp_error : string -> string.

(** [ioutil.ReadFile]: the content of the file or the text of the error.
    [yaml.Unmarshal] into the zero [Config]: what it has filled in, and
    its error. *)
Variable ReadFile : string -> string + string.
Variable Unmarshal : string -> Config * error.

(** [None]: [FatalCheck] has ended the process.  The two [SoftCheck]s
    only log; the error returned is the one of [adjustConfig]. *)
Definition ParseConfig (c : string) : option (Config * error) :=
  match ReadFile c with
  | inr _ => None
  | inl raw =>
      let '(initialConfig, _) := Unmarshal raw in
      let '(finalConfig, err) := adjustConfig ParseDuration initialConfig in
      Some (finalConfig, err)
  end.

(** [pattern] is [r.URL.Query().Get("pattern")], empty when the parameter
    is absent. *)
Definition ParseQuery (pattern : string) : option Regexp * error :=
  if String.eqb pattern EmptyString
  then (None, Some "Probe endpoint was hit, but pattern parameter was not passed.")
  else (regexp_Compile pattern,
        match regexp_Compile pattern with
        | Some _ => None
        | None => Some (regexp_error pattern)
        end).

(** [probeHandler]; [sched] is what the scheduler does while
    [BatchExecute] runs.  The formatter reads the configuration that
    [BatchExecute] has changed in place. *)
Definition probeHandler (configPath pattern : string) (sched : list Action) : Outcome :=
  match ParseConfig configPath with
  | None => ProcessExit
  | Some (conf0, _) =>
      match ParseQuery pattern with
      | (_, Some _) => Reply patternHelpText
      | (None, None) => NoReply
      | (Some p, None) =>
          match run regexp_Compile MatchString sshConnectToHost CombinedOutput p
                  sched (initState Regexp conf0) with
          | Some st =>
              match BatchExecute_result st with
              | Some (c', _) => Reply (fst (PrometheusFormatResponse c'))
              | None => NoReply
              end
          | None => NoReply
          end
      end
  end.

End Handlers.

(** A file system and a YAML decoder for the closed examples: one
    readable file, which decodes to [Examples.rawConf]. *)
Module ExampleFiles.

Definition configText : string :=
  "version: v0" ++ nl ++ "scripts:" ++ nl ++ "  - name: echo_output" ++ nl.

Definition ReadFile (path : string) : string + string :=
  if String.eqb path "config.yml" then inl configText
  else inr ("open " ++ path ++ ": no such file or directory").

Definition Unmarshal (raw : string) : Config * error :=
  if String.eqb raw configText then (Examples.rawConf, None)
  else (mkConfig EmptyString [], Some "yaml: unmarshal errors").

Definition regexp_error (pattern : string) : string :=
  "error parsing regexp: " ++ pattern.

End ExampleFiles.

Abbreviation exampleProbeHandler :=
  (@probeHandler RegexpFragment.re RegexpFragment.Compile RegexpFragment.MatchString
     Network.Session Network.sshConnectToHost Network.CombinedOutput
     DurationFragment.ParseDuration ExampleFiles.regexp_error
     ExampleFiles.ReadFile ExampleFiles.Unmarshal).

(** ** What the formatter reads, what the dispatcher keeps *)

(** The fields of a credential and of a script that the user configures. *)
Definition staticCredential (cr : CredentialConfig) : string * string * string * string :=
  (Host cr, Port cr, User cr, KeyFile cr).

Definition staticScript (s : ScriptConfig)
  : string * string * string * string * Z * list (string * string * string * string) :=
  (Name s, Script s, Timeout s, Pattern s, ParsedTimeout s,
   map staticCredential (Credentials s)).

(** The fields that occur in [PrometheusFormatResponse]. *)
Definition renderedCredential (cr : CredentialConfig) : string * string * Z * Z :=
  (Host cr, User cr, ScriptReturnCode cr, ResultPatternMatch cr).

Definition renderedScript (s : ScriptConfig)
  : string * string * string * bool * list (string * string * Z * Z) :=
  (Name s, Script s, Pattern s, Ignored s, map renderedCredential (Credentials s)).

(** The strings of a configuration that the formatter copies into the
    document. *)
Definition renderedStrings (s : ScriptConfig) : list string :=
  ([Name s; Script s; Pattern s]
   ++ flat_map (fun cr => [Host cr; User cr]) (Credentials s))%list.

(** A string without percent sign. *)
Definition no_percent (s : string) : Prop := contains_char "%" s = false.

(** A closure that has not called [done.Done()] yet counts one. *)
Definition live (pc : TaskPC) : Z :=
  match pc with
  | TExit => 0
  | _ => 1
  end.

Definition liveTasks (l : list Task) : Z :=
  fold_right (fun t n => live (t_pc t) + n) 0 l.

(** An [executeScript] goroutine that has called [done.Add(1)] and is at
    its [go] statement has announced a closure that does not exist yet. *)
Definition announced (pc : SpawnerPC) : Z :=
  match pc with
  | SGo _ => 1
  | _ => 0
  end.

Definition announcedClosures {Regexp : Type} (l : list (Spawner Regexp)) : Z :=
  fold_right (fun sp n => announced (sp_pc sp) + n) 0 l.

(** Inside a turn of the [range] loop, past its header. *)
Definition inTurn (pc : SpawnerPC) : Prop :=
  match pc with
  | SAdd _ | SGo _ => True
  | _ => False
  end.

(** The closure has made its four assignments. *)
Definition pastWrites (pc : TaskPC) : Prop :=
  match pc with
  | TSend | TDone | TExit => True
  | _ => False
  end.

(** [c.Scripts[k].Credentials[j]], when there is such a slot. *)
Definition slotAt (k j : nat) (c : Config) : option CredentialConfig :=
  match nth_error (Scripts c) k with
  | Some s => nth_error (Credentials s) j
  | None => None
  end.

(** How far the first loop of the request's goroutine has come, [n]
    being the number of scripts. *)
Definition progress (n : nat) (pc : MainPC) : nat :=
  match pc with
  | MRange j => j
  | _ => n
  end.

Section DispatcherInvariants.

Variable Regexp : Type.
Variable regexp_Compile : string -> option Regexp.
Variable MatchString : Regexp -> string -> bool.
Variable p : Regexp.

(** The configuration [c0] the request started with. *)
Variable c0 : Config.

(** The shared configuration keeps its shape and its configured fields;
    of a script the first loop has passed, [Ignored] is set if it was set
    or the name does not match, and of the others [Ignored] is as it was. *)
Record Tracked (st : State Regexp) : Prop := {
  tr_version : Version (conf st) = Version c0;
  tr_length : List.length (Scripts (conf st)) = List.length (Scripts c0);
  tr_progress :
    (progress (List.length (Scripts c0)) (main st) <= List.length (Scripts c0))%nat;
  tr_scripts : forall i s0,
    nth_error (Scripts c0) i = Some s0 ->
    exists s,
      nth_error (Scripts (conf st)) i = Some s /\
      staticScript s = staticScript s0 /\
      Ignored s =
      if (i <? progress (List.length (Scripts c0)) (main st))%nat
      then Ignored s0 || negb (MatchString p (Name s0))
      else Ignored s0
}.

(** [c] carries the configured fields of credential number [j] of script
    number [k], a script whose name the filter matches. *)
Definition configuredFor (k j : nat) (c : CredentialConfig) : Prop :=
  exists s0 cr0,
    nth_error (Scripts c0) k = Some s0 /\
    MatchString p (Name s0) = true /\
    nth_error (Credentials s0) j = Some cr0 /\
    staticCredential c = staticCredential cr0.

(** An [executeScript] goroutine works for a script the filter matches,
    with its command and pattern; once past [regexp.Compile] it holds
    what [regexp.Compile] gave for that pattern; and inside a turn of its
    loop its loop variables designate a configured credential of its
    script. *)
Definition spawnerOK (sp : Spawner Regexp) : Prop :=
  exists s0,
    nth_error (Scripts c0) (sp_creds sp) = Some s0 /\
    MatchString p (Name s0) = true /\
    sp_script sp = Script s0 /\
    sp_pattern sp = Pattern s0 /\
    (sp_pc sp <> SCompile -> sp_match sp = regexp_Compile (Pattern s0)) /\
    (inTurn (sp_pc sp) -> configuredFor (sp_creds sp) (sp_i sp) (sp_c sp)).

(** A closure belongs to an [executeScript] goroutine that is in its
    loop or past it and whose loop variables designate a configured
    credential of its script. *)
Definition taskOK (sps : list (Spawner Regexp)) (t : Task) : Prop :=
  exists sp,
    nth_error sps (t_owner t) = Some sp /\
    sp_pc sp <> SCompile /\
    configuredFor (sp_creds sp) (sp_i sp) (sp_c sp).

Record Launched (st : State Regexp) : Prop := {
  la_spawners : Forall spawnerOK (spawners st);
  la_tasks : Forall (taskOK (spawners st)) (tasks st);
  la_contacted :
    Forall (fun e => exists j, configuredFor (fst e) j (snd e)) (contacted st)
}.

(** [BatchExecute] starts at most one [executeScript] goroutine per
    script, for scripts its first loop has passed. *)
Record OnePerScript (st : State Regexp) : Prop := {
  ops_nodup : NoDup (map (@sp_creds Regexp) (spawners st));
  ops_below : forall j, main st = MRange j ->
                        Forall (fun k => (k < j)%nat)
                          (map (@sp_creds Regexp) (spawners st))
}.

End DispatcherInvariants.

(** ** What a closure records *)

Section ClosureInvariants.

Variable Regexp : Type.
Variable MatchString : Regexp -> string -> bool.
Variable Session : Type.
Variable sshConnectToHost : string -> string -> string -> string -> Session + string.
Variable CombinedOutput : Session -> string -> string * error.

(** The triple [result, status, err] a closure of the [executeScript]
    goroutine [sp] gets when it makes its call while the loop variable [c]
    holds what it holds in [sp]. *)
Definition callResult (sp : Spawner Regexp) : string * Z * error :=
  executeScriptOnHost sshConnectToHost CombinedOutput
    (Host (sp_c sp)) (Port (sp_c sp)) (User (sp_c sp)) (KeyFile (sp_c sp))
    (sp_script sp).

(** The slot holds the triple [r] and the verdict of [re] on its output;
    [ScriptError] is assigned only when there is an error. *)
Definition recorded (re : Regexp) (r : string * Z * error) (slot : CredentialConfig)
  : Prop :=
  ScriptReturnCode slot = snd (fst r) /\
  ScriptResult slot = fst (fst r) /\
  (forall e, snd r = Some e -> ScriptError slot = e) /\
  ResultPatternMatch slot = (if MatchString re (fst (fst r)) then 1 else 0).

(** How much of [r] the slot holds when the closure is at [pc]. *)
Definition written (re : Regexp) (r : string * Z * error) (pc : TaskPC)
    (slot : CredentialConfig) : Prop :=
  match pc with
  | TStart => True
  | TWriteCode r' => r' = r
  | TWriteResult r' => r' = r /\ ScriptReturnCode slot = snd (fst r)
  | TWriteError r' =>
      r' = r /\ ScriptReturnCode slot = snd (fst r) /\ ScriptResult slot = fst (fst r)
  | TMatch r' =>
      r' = r /\ ScriptReturnCode slot = snd (fst r) /\ ScriptResult slot = fst (fst r) /\
      (forall e, snd r = Some e -> ScriptError slot = e)
  | TSend | TDone | TExit => recorded re r slot
  end.

(** In [sched] the [executeScript] goroutine number [o] takes no step,
    and of the closures it has launched in [st] only number [kt] does.
    The request's goroutine and the goroutines of the other scripts are
    free. *)
Definition undisturbed (st : State Regexp) (o kt : nat) (sched : list Action) : Prop :=
  ~ In (ASpawner o) sched /\
  forall k' t', In (ATask k') sched -> nth_error (tasks st) k' = Some t' ->
                t_owner t' = o -> k' = kt.

(** What holds from the start of closure number [kt] of goroutine
    number [o] on, as long as it is undisturbed: the goroutine is as it
    was ([sp0]), the closures launched since are not its own ([owners0]
    are the owners of the closures there were), and the slot its loop
    variable [i] designates holds what the closure has assigned so far. *)
Record Settling (o kt : nat) (sp0 : Spawner Regexp) (re : Regexp)
    (owners0 : list nat) (st : State Regexp) : Prop := {
  se_spawner : nth_error (spawners st) o = Some sp0;
  se_owners : exists extra,
      map t_owner (tasks st) = (owners0 ++ extra)%list /\
      Forall (fun x => x <> o) extra;
  se_task : exists t slot,
      nth_error (tasks st) kt = Some t /\ t_owner t = o /\
      slotAt (sp_creds sp0) (sp_i sp0) (conf st) = Some slot /\
      written re (callResult sp0) (t_pc t) slot
}.

End ClosureInvariants.

(* ================================================================== *)
(** * Facts about byte strings, [%d] and the scan of the exit status *)
(* ================================================================== *)

Module GoStringFacts.

#[local] Arguments digit_char : simpl never.
#[local] Arguments is_digit : simpl never.
#[local] Arguments is_blank : simpl never.
#[local] Arguments is_number_byte : simpl never.
#[local] Arguments Z.pow : simpl never.

Lemma append_assoc (a b c : string) : (a ++ b) ++ c = a ++ b ++ c.
Proof. induction a as [|x a IH]; simpl; [reflexivity | now rewrite IH]. Qed.

Lemma append_empty_r (a : string) : a ++ EmptyString = a.
Proof. induction a as [|x a IH]; simpl; [reflexivity | now rewrite IH]. Qed.

(** [strings.Replace] of the newline by backslash-n is the bytewise
    substitution. *)
Lemma Replace_newline (s : string) : Replace s nl "\n" = escape_newlines s.
Proof.
  unfold Replace, nl.
  induction s as [|c s IH]; [reflexivity|].
  cbn [replace_from has_prefix escape_newlines String.length Nat.sub append].
  rewrite Bool.andb_true_r, (Ascii.eqb_sym nl_char c).
  destruct (Ascii.eqb c nl_char); now rewrite IH.
Qed.

Lemma escape_newlines_no_newline (s : string) :
  contains_char nl_char (escape_newlines s) = false.
Proof.
  induction s as [|c s IH]; [reflexivity|].
  cbn [escape_newlines]. destruct (Ascii.eqb c nl_char) eqn:E.
  - exact IH.
  - cbn [contains_char]. now rewrite (Ascii.eqb_sym nl_char c), E.
Qed.

Lemma escape_newlines_app (a b : string) :
  escape_newlines (a ++ b) = escape_newlines a ++ escape_newlines b.
Proof.
  induction a as [|c a IH]; simpl; [reflexivity|].
  destruct (Ascii.eqb c nl_char); simpl; now rewrite IH.
Qed.

(** ** Decimal digits *)

Lemma digit_cases (d : Z) :
  0 <= d < 10 ->
  d = 0 \/ d = 1 \/ d = 2 \/ d = 3 \/ d = 4 \/ d = 5 \/ d = 6 \/ d = 7 \/ d = 8 \/ d = 9.
Proof. lia. Qed.

Lemma digit_char_spec (d : Z) :
  0 <= d < 10 ->
  is_digit (digit_char d) = true /\
  Z.of_nat (nat_of_ascii (digit_char d)) - 48 = d /\
  is_blank (digit_char d) = false /\
  Ascii.eqb (digit_char d) nl_char = false /\
  Ascii.eqb (digit_char d) "-" = false /\
  Ascii.eqb (digit_char d) "+" = false.
Proof.
  intros H. destruct (digit_cases H) as [->|[->|[->|[->|[->|[->|[->|[->|[->| ->]]]]]]]]];
    repeat split; reflexivity.
Qed.

Lemma fmt_uint_aux_acc (fuel : nat) : forall n acc,
  fmt_uint_aux fuel n acc = fmt_uint_aux fuel n EmptyString ++ acc.
Proof.
  induction fuel as [|f IH]; intros n acc; simpl; [reflexivity|].
  destruct (n <? 10); [reflexivity|].
  rewrite (IH (n / 10) (String _ acc)), (IH (n / 10) (String _ EmptyString)).
  now rewrite append_assoc.
Qed.

Lemma digits_value_app (s t : string) : forall acc,
  digits_value (s ++ t) acc =
  match digits_value s acc with
  | Some v => digits_value t v
  | None => None
  end.
Proof.
  induction s as [|c s IH]; intros acc; simpl; [reflexivity|].
  destruct (is_digit c); [apply IH | reflexivity].
Qed.

Lemma digits_value_last (d : Z) (v : Z) :
  0 <= d < 10 ->
  digits_value (String (digit_char d) EmptyString) v = Some (v * 10 + d).
Proof.
  intros H. destruct (digit_char_spec H) as (Hd & Hv & _).
  cbn [digits_value]. now rewrite Hd, Hv.
Qed.

(** Reading back what [%d] wrote. *)
Lemma digits_value_fmt_uint_aux (fuel : nat) : forall n,
  0 <= n < 10 ^ (Z.of_nat fuel + 1) ->
  digits_value (fmt_uint_aux fuel n EmptyString) 0 = Some n.
Proof.
  induction fuel as [|f IH]; intros n Hn.
  - cbn [fmt_uint_aux]. change (10 ^ (Z.of_nat 0 + 1)) with 10 in Hn.
    rewrite Z.mod_small by lia. rewrite digits_value_last by lia.
    f_equal; lia.
  - cbn [fmt_uint_aux]. destruct (n <? 10) eqn:E.
    + apply Z.ltb_lt in E. rewrite Z.mod_small by lia.
      rewrite digits_value_last by lia. f_equal; lia.
    + apply Z.ltb_ge in E.
      rewrite fmt_uint_aux_acc, digits_value_app, IH.
      * rewrite digits_value_last by (apply Z.mod_pos_bound; lia).
        f_equal. pose proof (Z.div_mod n 10). lia.
      * replace (Z.of_nat (S f) + 1) with (Z.succ (Z.of_nat f + 1)) in Hn by lia.
        rewrite Z.pow_succ_r in Hn by lia.
        split; [apply Z.div_pos; lia | apply Z.div_lt_upper_bound; lia].
Qed.

Lemma all_digits_app (s t : string) :
  all_digits (s ++ t) = all_digits s && all_digits t.
Proof.
  induction s as [|c s IH]; simpl; [reflexivity|].
  now rewrite IH, Bool.andb_assoc.
Qed.

Lemma all_digits_fmt_uint_aux (fuel : nat) : forall n,
  0 <= n -> all_digits (fmt_uint_aux fuel n EmptyString) = true.
Proof.
  assert (D : forall n, 0 <= n -> is_digit (digit_char (n mod 10)) = true).
  { intros n Hn. apply digit_char_spec, Z.mod_pos_bound; lia. }
  induction fuel as [|f IH]; intros n Hn; cbn [fmt_uint_aux].
  - cbn [all_digits]. now rewrite D.
  - destruct (n <? 10).
    + cbn [all_digits]. now rewrite D.
    + rewrite fmt_uint_aux_acc, all_digits_app, IH by (apply Z.div_pos; lia).
      cbn [all_digits]. now rewrite D.
Qed.

Lemma log2_fuel (n : Z) :
  0 <= n -> n < 10 ^ (Z.of_nat (Z.to_nat (Z.log2 n)) + 1).
Proof.
  intros Hn. rewrite Z2Nat.id by apply Z.log2_nonneg.
  destruct (Z.eq_dec n 0) as [->|Hz]; [reflexivity|].
  pose proof (Z.log2_nonneg n) as Hl.
  assert (H2 : n < 2 ^ (Z.log2 n + 1)).
  { replace (Z.log2 n + 1) with (Z.succ (Z.log2 n)) by lia.
    apply Z.log2_spec; lia. }
  assert (H10 : 2 ^ (Z.log2 n + 1) <= 10 ^ (Z.log2 n + 1)).
  { apply Z.pow_le_mono_l; lia. }
  lia.
Qed.

Lemma digits_value_fmt_uint (n : Z) :
  0 <= n -> digits_value (fmt_uint n) 0 = Some n.
Proof.
  intros Hn. unfold fmt_uint. apply digits_value_fmt_uint_aux.
  split; [exact Hn | now apply log2_fuel].
Qed.

Lemma all_digits_fmt_uint (n : Z) : 0 <= n -> all_digits (fmt_uint n) = true.
Proof. intros Hn. now apply all_digits_fmt_uint_aux. Qed.

(** [%d] of a natural number is a digit followed by digits. *)
Lemma fmt_uint_head (n : Z) :
  0 <= n -> exists d s, fmt_uint n = String d s /\ is_digit d = true.
Proof.
  intros Hn. pose proof (all_digits_fmt_uint Hn) as H.
  destruct (fmt_uint n) as [|d s] eqn:E.
  - exfalso. unfold fmt_uint in E.
    destruct (Z.to_nat (Z.log2 n)); cbn [fmt_uint_aux] in E.
    + discriminate.
    + destruct (n <? 10); [discriminate|].
      rewrite fmt_uint_aux_acc in E.
      destruct (fmt_uint_aux n0 (n / 10) EmptyString); discriminate.
  - cbn [all_digits] in H. apply Bool.andb_true_iff in H. now exists d, s.
Qed.

(** ** The scan *)

Lemma scanNumber_digits (s rest : string) :
  all_digits s = true -> starts_number rest = false ->
  scanNumber (s ++ rest) = (s, rest).
Proof.
  intros Hs Hr. induction s as [|c s IH]; cbn [append scanNumber all_digits] in *.
  - destruct rest as [|c r]; [reflexivity|].
    cbn [starts_number scanNumber] in *. now rewrite Hr.
  - apply Bool.andb_true_iff in Hs as [Hc Hs].
    unfold is_number_byte. rewrite Hc. cbn [orb]. now rewrite IH.
Qed.

Lemma is_digit_not_blank (c : ascii) :
  is_digit c = true ->
  is_blank c = false /\ Ascii.eqb c nl_char = false /\
  Ascii.eqb c "-" = false /\ Ascii.eqb c "+" = false.
Proof.
  unfold is_digit, is_blank, is_space. intros H.
  apply Bool.andb_true_iff in H as [H1 H2].
  apply Nat.leb_le in H1. apply Nat.leb_le in H2.
  assert (N : forall d : ascii, (nat_of_ascii d < 48)%nat -> Ascii.eqb c d = false).
  { intros d Hd. apply Ascii.eqb_neq. intros ->. lia. }
  repeat split.
  - replace (nat_of_ascii c <=? 13)%nat with false by (symmetry; apply Nat.leb_gt; lia).
    replace (nat_of_ascii c =? 32)%nat with false by (symmetry; apply Nat.eqb_neq; lia).
    now rewrite Bool.andb_false_r.
  - apply N. vm_compute. lia.
  - apply N. vm_compute. lia.
  - apply N. vm_compute. lia.
Qed.

Lemma skip_blanks_idem (s : string) : skip_blanks (skip_blanks s) = skip_blanks s.
Proof.
  induction s as [|c s IH]; simpl; [reflexivity|].
  destruct (is_blank c) eqn:E; [exact IH|]. simpl. now rewrite E.
Qed.

(** After the literal part of the format the scan is at the number. *)
Lemma Sscanf_exit_status_prefix (x : string) :
  Sscanf_exit_status (exit_status_format ++ x) = scanInt x.
Proof.
  unfold Sscanf_exit_status, exit_status_format. simpl.
  unfold scanInt, SkipSpace. now rewrite skip_blanks_idem.
Qed.

Lemma scanInt_fmt_d (n : Z) (rest : string) :
  0 <= n < 2 ^ 63 -> starts_number rest = false ->
  scanInt (fmt_d n ++ rest) = Some n.
Proof.
  intros Hn Hr. unfold fmt_d.
  replace (n <? 0) with false by (symmetry; apply Z.ltb_ge; lia).
  destruct (@fmt_uint_head n) as (d & s & E & Hd); [lia|].
  destruct (is_digit_not_blank _ Hd) as (Hb & Hnl & Hm & Hp).
  unfold scanInt, SkipSpace. rewrite E. cbn [append skip_blanks].
  rewrite Hb, Hnl, Hm, Hp.
  change (String d (s ++ rest)) with (String d s ++ rest). rewrite <- E.
  rewrite scanNumber_digits by (try apply all_digits_fmt_uint; easy || lia).
  cbn [fst]. unfold ParseInt. rewrite E, <- E, digits_value_fmt_uint by lia.
  replace (- 2 ^ 63 <=? n) with true by (symmetry; apply Z.leb_le; lia).
  replace (n <? 2 ^ 63) with true by (symmetry; apply Z.ltb_lt; lia).
  reflexivity.
Qed.

(** The scan recovers the status from the text of an [ExitError]. *)
Lemma Sscanf_Waitmsg (status : Z) (signal msg : string) :
  0 <= status < 2 ^ 63 ->
  Sscanf_exit_status (Waitmsg_String status signal msg) = Some status.
Proof.
  intros H. unfold Waitmsg_String.
  change "Process exited with status " with exit_status_format.
  rewrite Sscanf_exit_status_prefix. apply scanInt_fmt_d; [exact H|].
  destruct (String.eqb signal EmptyString); [|reflexivity].
  destruct (String.eqb msg EmptyString); reflexivity.
Qed.

End GoStringFacts.

(* ================================================================== *)
(** * The per-host executor *)
(* ================================================================== *)

(** Reads the fields of a slot after the writes of the closure. *)
Ltac slot_fields :=
  cbn [ScriptResult ScriptReturnCode ScriptError ResultPatternMatch
       Host Port User KeyFile fst snd
       writeCode writeResult writeError writeMatch
       set_ScriptReturnCode set_ScriptResult set_ScriptError
       set_ResultPatternMatch].

Section ExecutorFacts.

Variable Regexp : Type.
Variable MatchString : Regexp -> string -> bool.
Variable Session : Type.
Variable sshConnectToHost : string -> string -> string -> string -> Session + string.
Variable CombinedOutput : Session -> string -> string * error.

#[local] Abbreviation execute :=
  (executeScriptOnHost sshConnectToHost CombinedOutput).
#[local] Abbreviation task :=
  (hostTask MatchString sshConnectToHost CombinedOutput).

Lemma literalFormat_escape (out : string) :
  literalFormat out = escape_newlines out.
Proof. apply GoStringFacts.Replace_newline. Qed.

(** What the call returns on each of its three paths. *)
Lemma executeScriptOnHost_connect_error host port user keyfile script err :
  sshConnectToHost host port user keyfile = inr err ->
  execute host port user keyfile script = (EmptyString, -1, Some err).
Proof. intros H. unfold executeScriptOnHost. now rewrite H. Qed.

Lemma executeScriptOnHost_success host port user keyfile script session out :
  sshConnectToHost host port user keyfile = inl session ->
  CombinedOutput session script = (out, None) ->
  execute host port user keyfile script = (escape_newlines out, 0, None).
Proof.
  intros H1 H2. unfold executeScriptOnHost.
  now rewrite H1, H2, literalFormat_escape.
Qed.

Lemma executeScriptOnHost_run_error host port user keyfile script session out e :
  sshConnectToHost host port user keyfile = inl session ->
  CombinedOutput session script = (out, Some e) ->
  execute host port user keyfile script =
  (EmptyString,
   match Sscanf_exit_status e with
   | Some n => if n =? 0 then -1 else n
   | None => -1
   end,
   Some e).
Proof.
  intros H1 H2. unfold executeScriptOnHost. rewrite H1, H2.
  destruct (Sscanf_exit_status e) as [n|]; [|reflexivity].
  now destruct (n =? 0).
Qed.

(** The closure of a script whose pattern did not compile: [match] is
    the nil pointer and the call of [MatchString] on it panics, whatever
    the host answered. *)
Lemma hostTask_nil_pattern (script : string) (c slot : CredentialConfig) :
  task script None c slot = None.
Proof. reflexivity. Qed.

End ExecutorFacts.

(** The pattern [foo] of the fragment matches every string that contains
    [foo]. *)
Lemma MatchString_foo (a b : string) :
  RegexpFragment.MatchString (Examples.compiled "foo") (a ++ "foo" ++ b) = true.
Proof.
  induction a as [|c a IH].
  - destruct b; reflexivity.
  - cbn [append RegexpFragment.MatchString] in IH |- *.
    rewrite IH. apply Bool.orb_true_r.
Qed.

(* ================================================================== *)
(** * Configuration normalisation *)
(* ================================================================== *)

Section AdjustConfigFacts.

Variable ParseDuration : string -> option Z.

Lemma adjustScript_Credentials (s : ScriptConfig) :
  Credentials (adjustScript ParseDuration s) = map adjustCredential (Credentials s).
Proof.
  unfold adjustScript. cbn [Timeout set_Credentials].
  now destruct (ParseDuration (Timeout s)).
Qed.

Lemma adjustScript_static (s : ScriptConfig) :
  Name (adjustScript ParseDuration s) = Name s /\
  Script (adjustScript ParseDuration s) = Script s /\
  Timeout (adjustScript ParseDuration s) = Timeout s /\
  Pattern (adjustScript ParseDuration s) = Pattern s.
Proof.
  unfold adjustScript. cbn [Timeout set_Credentials].
  now destruct (ParseDuration (Timeout s)).
Qed.

Lemma adjustCredential_Port (cr : CredentialConfig) :
  Port (adjustCredential cr) =
  if String.eqb (Port cr) EmptyString then "22" else Port cr.
Proof. unfold adjustCredential. now destruct (String.eqb (Port cr) EmptyString). Qed.

Lemma adjustCredential_static (cr : CredentialConfig) :
  Host (adjustCredential cr) = Host cr /\
  User (adjustCredential cr) = User cr /\
  KeyFile (adjustCredential cr) = KeyFile cr.
Proof. unfold adjustCredential. now destruct (String.eqb (Port cr) EmptyString). Qed.

(** C9: normalisation gives port 22 to every credential whose port is
    empty and leaves a configured port, and the host, user and key file,
    as they are; it returns no error. *)
Theorem default_port (c : Config) (i j : nat) (s : ScriptConfig) (cr : CredentialConfig) :
  nth_error (Scripts c) i = Some s ->
  nth_error (Credentials s) j = Some cr ->
  snd (adjustConfig ParseDuration c) = None /\
  exists s' cr',
    nth_error (Scripts (fst (adjustConfig ParseDuration c))) i = Some s' /\
    nth_error (Credentials s') j = Some cr' /\
    (Port cr = EmptyString -> Port cr' = "22") /\
    (Port cr <> EmptyString -> Port cr' = Port cr) /\
    Host cr' = Host cr /\ User cr' = User cr /\ KeyFile cr' = KeyFile cr.
Proof.
  intros Hs Hc. split; [reflexivity|].
  exists (adjustScript ParseDuration s), (adjustCredential cr).
  split. { cbn [adjustConfig fst Scripts set_Scripts]. now apply map_nth_error. }
  split. { rewrite adjustScript_Credentials. now apply map_nth_error. }
  rewrite adjustCredential_Port.
  destruct (adjustCredential_static cr) as (Hh & Hu & Hk).
  destruct (String.eqb_spec (Port cr) EmptyString) as [E|E]; repeat split;
    try assumption; try reflexivity; intros; congruence.
Qed.

(** C8: when the library parses [10s] as ten seconds, a script whose
    [timeout] does not parse is normalised all the same, with a parsed
    timeout of ten seconds; normalisation returns no error and keeps every
    script. *)
Theorem timeout_fallback (c : Config) (i : nat) (s : ScriptConfig) :
  ParseDuration "10s" = Some (10 * Second) ->
  nth_error (Scripts c) i = Some s ->
  ParseDuration (Timeout s) = None ->
  snd (adjustConfig ParseDuration c) = None /\
  List.length (Scripts (fst (adjustConfig ParseDuration c))) = List.length (Scripts c) /\
  exists s',
    nth_error (Scripts (fst (adjustConfig ParseDuration c))) i = Some s' /\
    Name s' = Name s /\
    ParsedTimeout s' = 10 * Second.
Proof.
  intros H10 Hs Hbad. split; [reflexivity|].
  cbn [adjustConfig fst Scripts set_Scripts].
  split; [apply length_map|].
  exists (adjustScript ParseDuration s).
  split; [now apply map_nth_error|].
  split; [apply adjustScript_static|].
  unfold adjustScript. cbn [Timeout set_Credentials]. now rewrite Hbad, H10.
Qed.

(** A [timeout] that parses is the parsed timeout. *)
Lemma timeout_parsed (s : ScriptConfig) (d : Z) :
  ParseDuration (Timeout s) = Some d ->
  ParsedTimeout (adjustScript ParseDuration s) = d.
Proof.
  intros H. unfold adjustScript. cbn [Timeout set_Credentials]. now rewrite H.
Qed.

End AdjustConfigFacts.

(** Witness of C9 on the raw example: the first host has no port, the
    second has port 2222. *)
Lemma default_port_witness :
  (nth_error (Scripts Examples.rawConf) 0
   = Some (Examples.script "echo_output" "echo foo" EmptyString "foo"
             [Examples.credential "up.example" EmptyString;
              Examples.credential "down.example" "2222"])
   /\ nth_error [Examples.credential "up.example" EmptyString;
                 Examples.credential "down.example" "2222"] 0
      = Some (Examples.credential "up.example" EmptyString))
  /\ snd (Examples.adjustConfig Examples.rawConf) = None
  /\ exists s' cr',
      nth_error (Scripts (fst (Examples.adjustConfig Examples.rawConf))) 0 = Some s' /\
      nth_error (Credentials s') 0 = Some cr' /\
      Port cr' = "22" /\ Host cr' = "up.example".
Proof.
  split; [split; reflexivity|].
  destruct (@default_port DurationFragment.ParseDuration Examples.rawConf 0%nat 0%nat
              _ _ eq_refl eq_refl)
    as (Herr & s' & cr' & Hs & Hc & Hdef & _ & Hhost & _).
  split; [exact Herr|].
  exists s', cr'. repeat split; [exact Hs | exact Hc | now apply Hdef | exact Hhost].
Defined.

Example configured_port_kept :
  option_map (fun s => map Port (Credentials s))
    (nth_error (Scripts (fst (Examples.adjustConfig Examples.rawConf))) 0)
  = Some ["22"; "2222"].
Proof. reflexivity. Qed.

(** Witness of C8 on the raw example, whose script has no [timeout]: the
    empty string is not a duration. *)
Lemma timeout_fallback_witness :
  (DurationFragment.ParseDuration "10s" = Some (10 * Second)
   /\ DurationFragment.ParseDuration EmptyString = None)
  /\ snd (Examples.adjustConfig Examples.rawConf) = None
  /\ exists s',
      nth_error (Scripts (fst (Examples.adjustConfig Examples.rawConf))) 0 = Some s' /\
      Name s' = "echo_output" /\
      ParsedTimeout s' = 10000000000.
Proof.
  split; [split; reflexivity|].
  destruct (@timeout_fallback DurationFragment.ParseDuration Examples.rawConf 0%nat
              _ eq_refl eq_refl eq_refl)
    as (Herr & _ & s' & Hs & Hname & Ht).
  split; [exact Herr|].
  exists s'. repeat split; [exact Hs | exact Hname | exact Ht].
Defined.

(* ================================================================== *)
(** * The exposition formatter *)
(* ================================================================== *)

Module FormatFacts.

Import GoStringFacts.

Lemma fold_left_lines {A : Type} (f : A -> string) (l : list A) : forall acc,
  fold_left (fun r j => r ++ nl ++ f j) l acc
  = acc ++ concatStrings (map (fun j => nl ++ f j) l).
Proof.
  induction l as [|x l IH]; intros acc; cbn [fold_left map concatStrings fold_right].
  - now rewrite append_empty_r.
  - rewrite IH. fold (concatStrings (map (fun j => nl ++ f j) l)).
    now rewrite !append_assoc.
Qed.

(** Lines that each begin with a newline, then one newline, are a
    newline and then lines that each end with one. *)
Lemma lines_shift {A : Type} (f : A -> string) (l : list A) (rest : string) :
  concatStrings (map (fun j => nl ++ f j) l) ++ nl ++ rest
  = nl ++ unlines (map f l) ++ rest.
Proof.
  induction l as [|x l IH]; cbn [map concatStrings fold_right unlines].
  - reflexivity.
  - fold (concatStrings (map (fun j => nl ++ f j) l)).
    rewrite !append_assoc, IH. reflexivity.
Qed.

Lemma lines_shift_end {A : Type} (f : A -> string) (l : list A) :
  concatStrings (map (fun j => nl ++ f j) l) ++ nl = nl ++ unlines (map f l).
Proof.
  pose proof (lines_shift f l EmptyString) as H.
  now rewrite !append_empty_r in H.
Qed.

Lemma append_empty_l (a : string) : EmptyString ++ a = a.
Proof. reflexivity. Qed.

Lemma unlines_app (a b : list string) :
  unlines (a ++ b) = unlines a ++ unlines b.
Proof.
  induction a as [|x a IH]; cbn [unlines List.app]; [reflexivity|].
  now rewrite IH, !append_assoc.
Qed.

(** The loop body appends the block of a selected script and nothing for
    an ignored one. *)
Lemma formatScript_selected (r : string) (i : ScriptConfig) :
  Ignored i = false -> formatScript r i = r ++ codeBlock i.
Proof.
  intros H. unfold formatScript, codeBlock, blockLines. rewrite H. cbn [negb].
  rewrite !fold_left_lines. unfold exitedDoc, matchedDoc.
  rewrite !unlines_app. cbn [unlines].
  rewrite !append_assoc, !append_empty_l.
  now rewrite lines_shift, lines_shift_end.
Qed.

Lemma formatScript_ignored (r : string) (i : ScriptConfig) :
  Ignored i = true -> formatScript r i = r.
Proof. intros H. unfold formatScript. now rewrite H. Qed.

Lemma fold_left_formatScript (l : list ScriptConfig) : forall acc,
  fold_left formatScript l acc
  = acc ++ concatStrings (map codeBlock (filter selected l)).
Proof.
  induction l as [|i l IH]; intros acc; cbn [fold_left filter].
  - cbn. now rewrite append_empty_r.
  - rewrite IH. unfold selected at 2. destruct (Ignored i) eqn:E; cbn [negb].
    + now rewrite formatScript_ignored.
    + rewrite formatScript_selected by exact E.
      cbn [map concatStrings fold_right]. now rewrite append_assoc.
Qed.

Lemma filter_selected_remove (l : list ScriptConfig) (i : nat) (s : ScriptConfig) :
  nth_error l i = Some s -> Ignored s = true ->
  filter selected (firstn i l ++ skipn (S i) l) = filter selected l.
Proof.
  revert i. induction l as [|x l IH]; intros [|i] H Hi; try discriminate.
  - cbn in H. injection H as ->. cbn [firstn skipn List.app filter].
    unfold selected at 2. now rewrite Hi.
  - cbn [firstn skipn List.app filter nth_error] in *.
    now rewrite (IH i H Hi).
Qed.

End FormatFacts.

(** C7, as the code has it: the document is, for the selected scripts in
    configuration order, the exit-status help line and the type line, one
    exit-status line per host in configuration order, the pattern-match
    help line and the type line, one pattern-match line per host in
    configuration order; every line is ended by one newline and no empty
    line follows a block.  The formatter returns no error. *)
Theorem document_layout (c : Config) :
  PrometheusFormatResponse c = (documentOf codeBlock c, None).
Proof.
  unfold PrometheusFormatResponse, documentOf.
  now rewrite FormatFacts.fold_left_formatScript.
Qed.

(** C7 as the specification words it, with a blank line that ends every
    block, fails on the configuration of the unit test: the document ends
    with the newline of its last pattern-match line, and the layout with
    the blank line is one byte longer. *)
Lemma blank_line_counterexample :
  fst (PrometheusFormatResponse Examples.unitTestConf)
  <> documentOf specBlock Examples.unitTestConf
  /\ String.length (documentOf specBlock Examples.unitTestConf)
     = S (String.length (fst (PrometheusFormatResponse Examples.unitTestConf))).
Proof.
  split; [|reflexivity].
  intros H. apply (f_equal String.length) in H. vm_compute in H. discriminate H.
Qed.

(** The document of the unit test, line by line. *)
Example unit_test_document :
  fst (PrometheusFormatResponse Examples.unitTestConf)
  = unlines
      ["# HELP ssh_exporter_scriptName_exit_status Integer exit status of commands and metadata about the command's execution.";
       "# TYPE ssh_exporter gauge";
       "ssh_exporter_scriptName_exit_status{name=" ++ dq ++ "scriptName" ++ dq
         ++ ",host=" ++ dq ++ "localhost" ++ dq ++ ",user=" ++ dq ++ "username" ++ dq
         ++ ",script=" ++ dq ++ "echo foo" ++ dq ++ ",exit_status=" ++ dq ++ "0" ++ dq ++ "} 0";
       "# HELP ssh_exporter_scriptName_pattern_match Boolean match of regex on output of script of commands and metadata about the command's execution.";
       "# TYPE ssh_exporter gauge";
       "ssh_exporter_scriptName_pattern_match{name=" ++ dq ++ "scriptName" ++ dq
         ++ ",host=" ++ dq ++ "localhost" ++ dq ++ ",user=" ++ dq ++ "username" ++ dq
         ++ ",script=" ++ dq ++ "echo foo" ++ dq ++ ",regex=" ++ dq ++ "foo" ++ dq ++ "} 1"].
Proof. reflexivity. Qed.

(* ================================================================== *)
(** * The batch dispatcher *)
(* ================================================================== *)

(** ** Updates by index *)

Module UpdateFacts.

Lemma length_update {A : Type} (f : A -> A) (l : list A) : forall i,
  List.length (update i f l) = List.length l.
Proof.
  induction l as [|x l IH]; intros [|i]; cbn [update List.length]; auto.
Qed.

Lemma nth_error_update {A : Type} (f : A -> A) (l : list A) : forall i j,
  nth_error (update i f l) j
  = if Nat.eqb j i then option_map f (nth_error l j) else nth_error l j.
Proof.
  induction l as [|x l IH]; intros [|i] [|j]; cbn [update nth_error Nat.eqb];
    try reflexivity.
  - now destruct (Nat.eqb j i).
  - apply IH.
Qed.

Lemma map_update {A B : Type} (g : A -> B) (f : A -> A) (l : list A) :
  (forall x, g (f x) = g x) -> forall i, map g (update i f l) = map g l.
Proof.
  intros H. induction l as [|x l IH]; intros [|i]; cbn [update map];
    try reflexivity.
  - now rewrite H.
  - now rewrite IH.
Qed.

Lemma Forall_update {A : Type} (P : A -> Prop) (f : A -> A) (l : list A) :
  (forall x, P x -> P (f x)) -> forall i, Forall P l -> Forall P (update i f l).
Proof.
  intros H. induction l as [|x l IH]; intros [|i] Hl; cbn [update];
    try assumption; inversion Hl; subst; constructor; auto.
Qed.

Lemma update_update {A : Type} (f g : A -> A) (l : list A) : forall i,
  update i f (update i g l) = update i (fun x => f (g x)) l.
Proof.
  induction l as [|x l IH]; intros [|i]; cbn [update]; try reflexivity.
  now rewrite IH.
Qed.

Lemma update_ext {A : Type} (f g : A -> A) (l : list A) :
  (forall x, f x = g x) -> forall i, update i f l = update i g l.
Proof.
  intros H. induction l as [|x l IH]; intros [|i]; cbn [update]; try reflexivity.
  - now rewrite H.
  - now rewrite IH.
Qed.

Lemma writeSlot_Names (k i : nat) f (c : Config) :
  map Name (Scripts (writeSlot k i f c)) = map Name (Scripts c).
Proof. cbn [writeSlot Scripts set_Scripts]. now apply map_update. Qed.

Lemma writeSlot_Ignored (k i : nat) f (c : Config) (j : nat) (s : ScriptConfig) :
  nth_error (Scripts c) j = Some s -> Ignored s = true ->
  exists s', nth_error (Scripts (writeSlot k i f c)) j = Some s' /\ Ignored s' = true.
Proof.
  intros Hs Hi. cbn [writeSlot Scripts set_Scripts].
  rewrite nth_error_update, Hs. destruct (Nat.eqb j k); eexists; split;
    try reflexivity; exact Hi.
Qed.

End UpdateFacts.

(** Reads the components of a state after a step. *)
Ltac state_fields :=
  cbn [conf wg main spawners tasks contacted crashed
       with_conf with_wg with_main with_spawners with_tasks with_contacted
       with_crashed].

Section DispatcherFacts.

Import UpdateFacts.

Variable Regexp : Type.
Variable regexp_Compile : string -> option Regexp.
Variable MatchString : Regexp -> string -> bool.
Variable Session : Type.
Variable sshConnectToHost : string -> string -> string -> string -> Session + string.
Variable CombinedOutput : Session -> string -> string * error.
Variable p : Regexp.

#[local] Abbreviation step' :=
  (step regexp_Compile MatchString sshConnectToHost CombinedOutput p).
#[local] Abbreviation run' :=
  (run regexp_Compile MatchString sshConnectToHost CombinedOutput p).

Lemma run_app (s1 s2 : list Action) : forall st,
  run' (s1 ++ s2) st =
  match run' s1 st with
  | Some st' => run' s2 st'
  | None => None
  end.
Proof.
  induction s1 as [|a s1 IH]; intros st; cbn [run List.app]; [reflexivity|].
  destruct (step' a st); [apply IH | reflexivity].
Qed.

(** ** A script the filter does not match *)

Section Unselected.

Variable names : list string.
Variable i : nat.
Variable name_i : string.
Hypothesis Hname : nth_error names i = Some name_i.
Hypothesis Hnomatch : MatchString p name_i = false.

#[local] Abbreviation Inv := (@Untouched Regexp names i).

Lemma ignoredAt_conf (st st' : State Regexp) :
  conf st' = conf st -> ignoredAt i st -> ignoredAt i st'.
Proof. unfold ignoredAt. now intros ->. Qed.

Lemma stepMain_Untouched (st st' : State Regexp) :
  Inv st -> stepMain MatchString p st = Some st' -> Inv st'.
Proof.
  intros [Hn Hs Ht Hc Hi] H. unfold stepMain in H.
  destruct (main st) as [j| |[|n]|] eqn:Em; try discriminate.
  - destruct (nth_error (Scripts (conf st)) j) as [v|] eqn:Ev.
    + assert (Hij : MatchString p (Name v) = true -> i <> j).
      { intros Hm ->. rewrite <- Hn, nth_error_map, Ev in Hname.
        cbn in Hname. congruence. }
      destruct (MatchString p (Name v)) eqn:Em'; cbn [negb] in H;
        injection H as <-; constructor; cbn; auto.
      * apply Forall_app. split; [exact Hs|].
        constructor; [|constructor]. cbn. intros E. now apply Hij.
      * rewrite length_app. cbn. eapply Forall_impl; [|exact Ht].
        cbn. intros; lia.
      * intros Hlt. apply (@ignoredAt_conf st); [reflexivity|].
        apply Hi. cbn. specialize (Hij eq_refl). lia.
      * now rewrite map_update.
      * intros Hlt. destruct (Nat.eq_dec i j) as [->|Hne].
        -- exists (set_Ignored true v). cbn.
           now rewrite nth_error_update, Nat.eqb_refl, Ev.
        -- destruct Hi as (s & Hs' & Hig); [cbn; lia|].
           exists s. cbn. rewrite nth_error_update.
           now replace (Nat.eqb i j) with false by (symmetry; now apply Nat.eqb_neq).
    + injection H as <-. constructor; cbn; auto.
      intros _. apply (@ignoredAt_conf st); [reflexivity|].
      apply Hi. cbn.
      apply nth_error_None in Ev.
      assert (i < List.length names)%nat by (apply nth_error_Some; congruence).
      rewrite <- Hn, length_map in *. lia.
  - destruct (wg st =? 0); [|discriminate]. injection H as <-.
    constructor; cbn; auto.
  - injection H as <-. constructor; cbn; auto.
Qed.

Lemma stepTimeout_Untouched (st st' : State Regexp) :
  Inv st -> stepTimeout st = Some st' -> Inv st'.
Proof.
  intros [Hn Hs Ht Hc Hi] H. unfold stepTimeout in H.
  destruct (main st) as [j| |[|n]|] eqn:Em; try discriminate.
  injection H as <-. constructor; cbn; auto.
Qed.

Lemma stepRecv_Untouched (k : nat) (st st' : State Regexp) :
  Inv st -> stepRecv k st = Some st' -> Inv st'.
Proof.
  intros [Hn Hs Ht Hc Hi] H. unfold stepRecv in H.
  destruct (main st) as [j| |[|n]|] eqn:Em; try discriminate.
  destruct (nth_error (tasks st) k) as [t|]; [|discriminate].
  destruct (t_pc t); try discriminate.
  injection H as <-. constructor; cbn; auto.
  apply Forall_update; auto.
Qed.

Lemma stepSpawner_Untouched (k : nat) (st st' : State Regexp) :
  Inv st -> stepSpawner regexp_Compile k st = Some st' -> Inv st'.
Proof.
  intros [Hn Hs Ht Hc Hi] H. unfold stepSpawner in H.
  destruct (nth_error (spawners st) k) as [sp|] eqn:Ek; [|discriminate].
  assert (Hk : (k < List.length (spawners st))%nat)
    by (apply nth_error_Some; congruence).
  destruct (sp_pc sp) as [|j|j|j|]; try discriminate.
  - injection H as <-. constructor; cbn; auto.
    + apply Forall_update; auto.
    + now rewrite length_update.
  - destruct (nth_error (Scripts (conf st)) (sp_creds sp)) as [v|]; [|discriminate].
    destruct (nth_error (Credentials v) j) as [cr|]; injection H as <-;
      constructor; cbn; auto.
    + apply Forall_update; auto.
    + now rewrite length_update.
    + apply Forall_update; auto.
    + now rewrite length_update.
  - injection H as <-. constructor; cbn; auto.
    + apply Forall_update; auto.
    + now rewrite length_update.
  - injection H as <-. constructor; cbn; auto.
    + apply Forall_update; auto.
    + rewrite length_update. apply Forall_app. split; [exact Ht|].
      constructor; [exact Hk | constructor].
Qed.

Lemma stepTask_Untouched (k : nat) (st st' : State Regexp) :
  Inv st ->
  stepTask MatchString sshConnectToHost CombinedOutput k st = Some st' -> Inv st'.
Proof.
  intros [Hn Hs Ht Hc Hi] H. unfold stepTask in H.
  destruct (nth_error (tasks st) k) as [t|] eqn:Ek; [|discriminate].
  destruct (nth_error (spawners st) (t_owner t)) as [sp|] eqn:Eo; [|discriminate].
  assert (Hsp : sp_creds sp <> i).
  { rewrite Forall_forall in Hs. apply Hs. eapply nth_error_In; eauto. }
  assert (Hw : forall f (st0 : State Regexp),
                 conf st0 = writeSlot (sp_creds sp) (sp_i sp) f (conf st) ->
                 passed i (main st) -> ignoredAt i st0).
  { intros f st0 Hc0 Hp.
    destruct (Hi Hp) as (s & Hs' & Hig). unfold ignoredAt. rewrite Hc0.
    now apply writeSlot_Ignored with (s := s). }
  destruct (t_pc t) as [|r|r|r|r| | |]; try discriminate.
  - injection H as <-. constructor; state_fields; auto.
    apply Forall_update; auto.
  - injection H as <-. constructor; state_fields; auto.
    + now rewrite writeSlot_Names.
    + apply Forall_update; auto.
    + intros Hp. eapply Hw; [reflexivity | exact Hp].
  - injection H as <-. constructor; state_fields; auto.
    + now rewrite writeSlot_Names.
    + apply Forall_update; auto.
    + intros Hp. eapply Hw; [reflexivity | exact Hp].
  - injection H as <-. constructor; state_fields; auto.
    + now rewrite writeSlot_Names.
    + apply Forall_update; auto.
    + intros Hp. eapply Hw; [reflexivity | exact Hp].
  - destruct (sp_match sp) as [re|]; injection H as <-; constructor; state_fields; auto.
    + now rewrite writeSlot_Names.
    + apply Forall_update; auto.
    + intros Hp. eapply Hw; [reflexivity | exact Hp].
  - injection H as <-. constructor; state_fields; auto.
    apply Forall_update; auto.
Qed.

Lemma step_Untouched (a : Action) (st st' : State Regexp) :
  Inv st -> step' a st = Some st' -> Inv st'.
Proof.
  intros HI H. unfold step in H. destruct (crashed st); [discriminate|].
  destruct a.
  - eapply stepMain_Untouched; eauto.
  - eapply stepTimeout_Untouched; eauto.
  - eapply stepRecv_Untouched; eauto.
  - eapply stepSpawner_Untouched; eauto.
  - eapply stepTask_Untouched; eauto.
Qed.

Lemma run_Untouched (sched : list Action) : forall st st',
  Inv st -> run' sched st = Some st' -> Inv st'.
Proof.
  induction sched as [|a sched IH]; intros st st' HI H; cbn [run] in H.
  - now injection H as <-.
  - destruct (step' a st) as [st1|] eqn:E; [|discriminate].
    eapply IH; [|exact H]. eapply step_Untouched; eauto.
Qed.

End Unselected.

Lemma initState_Untouched (c : Config) (i : nat) :
  @Untouched Regexp (map Name (Scripts c)) i (initState Regexp c).
Proof.
  constructor; cbn; auto. intros H. lia.
Qed.


(** ** The request's goroutine running alone *)

Lemma main_range_alone (n : nat) : forall (st : State Regexp) (j : nat),
  main st = MRange j -> crashed st = false ->
  List.length (Scripts (conf st)) = (j + n)%nat ->
  exists st',
    run' (repeat AMain n) st = Some st' /\
    main st' = MRange (j + n) /\ crashed st' = false /\ wg st' = wg st /\
    List.length (Scripts (conf st')) = (j + n)%nat.
Proof.
  induction n as [|n IH]; intros st j Hm Hc Hl.
  - exists st. rewrite Nat.add_0_r in *. now cbn.
  - cbn [repeat run]. unfold step. rewrite Hc. unfold stepMain. rewrite Hm.
    destruct (nth_error (Scripts (conf st)) j) as [v|] eqn:Ev.
    2:{ apply nth_error_None in Ev. lia. }
    replace (j + S n)%nat with (S j + n)%nat in * by lia.
    destruct (negb (MatchString p (Name v)));
      match goal with
      | |- context [run' _ ?s] =>
          destruct (IH s (S j)) as (st' & Hr & Hm' & Hc' & Hw' & Hl');
          [reflexivity | exact Hc | state_fields | exists st'; auto]
      end.
    + cbn [Scripts set_Scripts]. now rewrite length_update.
    + exact Hl.
Qed.

Lemma main_timeouts_alone (n : nat) : forall (st : State Regexp),
  main st = MCollect n -> crashed st = false ->
  exists st',
    run' (repeat ATimeout n) st = Some st' /\
    main st' = MCollect 0 /\ crashed st' = false.
Proof.
  induction n as [|n IH]; intros st Hm Hc.
  - exists st. now cbn.
  - cbn [repeat run]. unfold step. rewrite Hc. unfold stepTimeout. rewrite Hm.
    destruct (IH (with_main (MCollect n) st)) as (st' & Hr & Hm' & Hc');
      [reflexivity | exact Hc |].
    now exists st'.
Qed.

(** Whatever the configuration, the scheduler can let [BatchExecute]
    return: the request's goroutine alone, with every [select] taking its
    timer. *)
Lemma BatchExecute_can_return (c : Config) :
  exists sched st,
    run' sched (initState Regexp c) = Some st /\
    BatchExecute_result st = Some (conf st, None).
Proof.
  destruct (@main_range_alone (List.length (Scripts c)) (initState Regexp c) 0)
    as (st1 & Hr1 & Hm1 & Hc1 & Hw1 & Hl1); try reflexivity.
  cbn [Nat.add] in Hm1, Hl1. cbn [initState wg] in Hw1.
  destruct (@main_timeouts_alone (pendingSelects (conf st1))
              (with_main (MCollect (pendingSelects (conf st1))) st1))
    as (st2 & Hr2 & Hm2 & Hc2); [reflexivity | exact Hc1 |].
  exists (repeat AMain (List.length (Scripts c)) ++ [AMain; AMain]
          ++ repeat ATimeout (pendingSelects (conf st1)) ++ [AMain])%list.
  exists (with_main MReturned st2).
  split; [|reflexivity].
  rewrite run_app, Hr1. cbn [List.app run].
  assert (E1 : step' AMain st1 = Some (with_main MWait st1)).
  { unfold step. rewrite Hc1. unfold stepMain. rewrite Hm1.
    destruct (nth_error (Scripts (conf st1)) (List.length (Scripts c))) eqn:Ev;
      [|reflexivity].
    assert (nth_error (Scripts (conf st1)) (List.length (Scripts c)) <> None)
      by congruence.
    apply nth_error_Some in H. lia. }
  rewrite E1.
  assert (E2 : step' AMain (with_main MWait st1)
               = Some (with_main (MCollect (pendingSelects (conf st1))) st1)).
  { unfold step. state_fields. rewrite Hc1. unfold stepMain. state_fields.
    now rewrite Hw1. }
  rewrite E2, run_app, Hr2. cbn [run].
  unfold step. rewrite Hc2. unfold stepMain. now rewrite Hm2.
Qed.

(** C1: when the filter does not match the name of script number [i],
    then in every state a request can reach no [executeScript] goroutine
    works on the credentials of that script, no closure belongs to it, and
    none of its hosts has been contacted; the script is marked ignored
    from the moment the first loop is past it; and the configuration that
    [BatchExecute] returns has the script, under its name, marked ignored,
    so that the formatter's loop body leaves the response as it is for
    that script and the rendered document is the one of the configuration
    without the script. *)
Theorem unselected_script_untouched
    (c : Config) (i : nat) (s : ScriptConfig) (sched : list Action)
    (st : State Regexp) :
  nth_error (Scripts c) i = Some s ->
  MatchString p (Name s) = false ->
  run' sched (initState Regexp c) = Some st ->
  Forall (fun sp => sp_creds sp <> i) (spawners st) /\
  Forall (fun t => exists sp, nth_error (spawners st) (t_owner t) = Some sp /\
                              sp_creds sp <> i) (tasks st) /\
  Forall (fun e => fst e <> i) (contacted st) /\
  (passed i (main st) -> ignoredAt i st) /\
  forall r, BatchExecute_result st = Some r ->
    exists s',
      nth_error (Scripts (fst r)) i = Some s' /\
      Name s' = Name s /\
      Ignored s' = true /\
      (forall response, formatScript response s' = response) /\
      PrometheusFormatResponse (fst r)
      = PrometheusFormatResponse
          (set_Scripts (firstn i (Scripts (fst r)) ++ skipn (S i) (Scripts (fst r)))
             (fst r)).
Proof.
  intros Hs Hno Hrun.
  assert (HI : @Untouched Regexp (map Name (Scripts c)) i st).
  { eapply (@run_Untouched (map Name (Scripts c)) i (Name s)); eauto.
    - now apply map_nth_error.
    - apply initState_Untouched. }
  destruct HI as [Hn Hsp Ht Hc Hi].
  split; [exact Hsp|]. split.
  { rewrite Forall_forall in *. intros t Hin. specialize (Ht t Hin).
    destruct (nth_error (spawners st) (t_owner t)) as [sp|] eqn:E.
    - exists sp. split; [reflexivity|]. apply Hsp. eapply nth_error_In; eauto.
    - apply nth_error_None in E. lia. }
  split; [exact Hc|]. split; [exact Hi|].
  intros r Hr. unfold BatchExecute_result in Hr.
  destruct (main st) eqn:Em; try discriminate. injection Hr as <-. cbn [fst].
  destruct (Hi I) as (s' & Hs' & Hig).
  exists s'. split; [exact Hs'|]. split.
  { apply (f_equal (fun l => nth_error l i)) in Hn.
    rewrite !nth_error_map, Hs', Hs in Hn. cbn in Hn. congruence. }
  split; [exact Hig|]. split.
  { intros response. now apply FormatFacts.formatScript_ignored. }
  unfold PrometheusFormatResponse. cbn [Scripts set_Scripts].
  rewrite !FormatFacts.fold_left_formatScript.
  now rewrite (FormatFacts.filter_selected_remove _ _ Hs' Hig).
Qed.

(** C10: the formatter returns the nil error for every configuration;
    for every configuration and compiled filter there is a run in which
    [BatchExecute] returns; and whenever it returns, the error it returns
    is nil. *)
Theorem error_components_nil (c : Config) :
  snd (PrometheusFormatResponse c) = None /\
  (exists sched st,
      run' sched (initState Regexp c) = Some st /\
      BatchExecute_result st = Some (conf st, None)) /\
  (forall sched st r,
      run' sched (initState Regexp c) = Some st ->
      BatchExecute_result st = Some r -> snd r = None).
Proof.
  split; [reflexivity|]. split; [apply BatchExecute_can_return|].
  intros sched st r _ Hr. unfold BatchExecute_result in Hr.
  destruct (main st); try discriminate. now injection Hr as <-.
Qed.


(** ** A closure that runs without interruption *)

Lemma writeSlot_writeSlot (k i : nat) f g (c : Config) :
  writeSlot k i f (writeSlot k i g c) = writeSlot k i (fun x => f (g x)) c.
Proof.
  unfold writeSlot, set_Scripts. cbn [Scripts Version]. f_equal.
  rewrite update_update. apply update_ext. intros s.
  cbn [Credentials set_Credentials Name Script Timeout Pattern ParsedTimeout Ignored].
  now rewrite update_update.
Qed.

(** Five steps in a row of a closure at its start do to the slot number
    [i] what [hostTask] computes for the credential [c], and leave the
    closure at its send and everything else as it was; with the nil
    pattern the fifth step is the panic. *)
Lemma five_steps (st : State Regexp) (k : nat) (t : Task)
    (sp : Spawner Regexp) :
  crashed st = false ->
  nth_error (tasks st) k = Some t -> t_pc t = TStart ->
  nth_error (spawners st) (t_owner t) = Some sp ->
  exists st',
    run' (repeat (ATask k) 5) st = Some st' /\
    match sp_match sp with
    | Some re =>
        conf st'
        = writeSlot (sp_creds sp) (sp_i sp)
            (fun slot =>
               match hostTask MatchString sshConnectToHost CombinedOutput
                       (sp_script sp) (Some re) (sp_c sp) slot with
               | Some slot' => slot'
               | None => slot
               end) (conf st)
        /\ crashed st' = false
        /\ nth_error (tasks st') k = Some (mkTask (t_owner t) TSend)
    | None => crashed st' = true
    end.
Proof.
  intros Hc Ek Epc Eo. destruct t as [owner pc]. cbn [t_pc t_owner] in *. subst pc.
  assert (Hk : forall pc l, nth_error l k = Some (mkTask owner pc) ->
                 forall pc', nth_error (update k (set_t_pc pc') l) k
                             = Some (mkTask owner pc')).
  { intros pc l H pc'. now rewrite nth_error_update, Nat.eqb_refl, H. }
  assert (Huu : forall pc pc' (l : list Task),
                 update k (set_t_pc pc') (update k (set_t_pc pc) l)
                 = update k (set_t_pc pc') l).
  { intros. rewrite update_update. now apply update_ext. }
  cbn [repeat run]. unfold step at 1. rewrite Hc. unfold stepTask at 1.
  rewrite Ek. cbn [t_owner t_pc]. rewrite Eo.
  set (r := executeScriptOnHost sshConnectToHost CombinedOutput
              (Host (sp_c sp)) (Port (sp_c sp)) (User (sp_c sp))
              (KeyFile (sp_c sp)) (sp_script sp)).
  do 3 (unfold step at 1; state_fields; rewrite Hc; unfold stepTask at 1;
        state_fields; rewrite ?Huu; rewrite (Hk _ _ Ek); cbn [t_owner t_pc];
        rewrite Eo; state_fields).
  unfold step at 1; state_fields; rewrite Hc; unfold stepTask at 1;
    state_fields; rewrite ?Huu; rewrite (Hk _ _ Ek); cbn [t_owner t_pc];
    rewrite Eo.
  destruct (sp_match sp) as [re|].
  - eexists. split; [reflexivity|]. state_fields.
    rewrite !writeSlot_writeSlot, ?Huu, (Hk _ _ Ek).
    repeat split. exact Hc.
  - eexists. split; [reflexivity|]. reflexivity.
Qed.

End DispatcherFacts.

(** ** Requests on the example network *)

(** Witness of C1: a request for [echo_output] on two scripts, run to
    its end, leaves [disk_usage] alone. *)
Lemma unselected_script_untouched_witness :
  (nth_error (Scripts Examples.twoScriptsConf) 0
   = Some (mkScriptConfig "disk_usage" "df" "5s" "foo"
             [Examples.credential "up.example" "22"] (5 * Second) false)
   /\ RegexpFragment.MatchString (Examples.compiled "echo_output") "disk_usage" = false
   /\ exampleRun (Examples.compiled "echo_output") Examples.twoScriptsSchedule
        (initState _ Examples.twoScriptsConf)
      = Some (Examples.finalState (Examples.compiled "echo_output")
                Examples.twoScriptsSchedule Examples.twoScriptsConf))
  /\
  let st := Examples.finalState (Examples.compiled "echo_output")
              Examples.twoScriptsSchedule Examples.twoScriptsConf in
  BatchExecute_result st = Some (conf st, None) /\
  Forall (fun e => fst e <> 0%nat) (contacted st) /\
  exists s',
    nth_error (Scripts (conf st)) 0 = Some s' /\
    Name s' = "disk_usage" /\ Ignored s' = true /\
    PrometheusFormatResponse (conf st)
    = PrometheusFormatResponse (set_Scripts (skipn 1 (Scripts (conf st))) (conf st)).
Proof.
  assert (H1 : nth_error (Scripts Examples.twoScriptsConf) 0
               = Some (mkScriptConfig "disk_usage" "df" "5s" "foo"
                         [Examples.credential "up.example" "22"] (5 * Second) false))
    by reflexivity.
  assert (H2 : RegexpFragment.MatchString (Examples.compiled "echo_output")
                 "disk_usage" = false)
    by (vm_compute; reflexivity).
  assert (H3 : exampleRun (Examples.compiled "echo_output")
                 Examples.twoScriptsSchedule (initState _ Examples.twoScriptsConf)
               = Some (Examples.finalState (Examples.compiled "echo_output")
                         Examples.twoScriptsSchedule Examples.twoScriptsConf))
    by (vm_compute; reflexivity).
  assert (H4 : BatchExecute_result
                 (Examples.finalState (Examples.compiled "echo_output")
                    Examples.twoScriptsSchedule Examples.twoScriptsConf)
               = Some (conf (Examples.finalState (Examples.compiled "echo_output")
                               Examples.twoScriptsSchedule Examples.twoScriptsConf),
                       None))
    by (vm_compute; reflexivity).
  split; [split; [exact H1 | split; [exact H2 | exact H3]]|].
  cbv zeta. split; [exact H4|].
  revert H3 H4.
  generalize (Examples.finalState (Examples.compiled "echo_output")
                Examples.twoScriptsSchedule Examples.twoScriptsConf).
  intros st H3 H4.
  destruct (@unselected_script_untouched RegexpFragment.re RegexpFragment.Compile
              RegexpFragment.MatchString Network.Session Network.sshConnectToHost
              Network.CombinedOutput (Examples.compiled "echo_output")
              Examples.twoScriptsConf 0%nat _ Examples.twoScriptsSchedule st
              H1 H2 H3)
    as (_ & _ & Hcontacted & _ & Hret).
  destruct (Hret _ H4) as (s' & Hs' & Hname & Hig & _ & Hdoc).
  split; [exact Hcontacted|].
  exists s'. split; [exact Hs' | split; [exact Hname | split; [exact Hig | exact Hdoc]]].
Defined.

(** The request run to its end on one script and one host: the slot
    holds the escaped output, status 0 and the match flag 1, and the
    counter of [done] is back at zero. *)
Example complete_run :
  let st := Examples.finalState (Examples.compiled ".*") Examples.completeSchedule
              Examples.probeConf in
  main st = MReturned /\ wg st = 0 /\ map t_pc (tasks st) = [TExit] /\
  Examples.slotResults st = [[("foo\nbar\n", 0, 1)]].
Proof. vm_compute. repeat split. Qed.

(** C6, the code at the failing schedule: the request's goroutine is at
    [done.Wait()] while the counter is still zero, since [done.Add(1)] is
    called by the [executeScript] goroutine, which has not run yet; the
    wait is over at once.  Then the closure is launched and contacts the
    host, the timer of the [select] fires, and [BatchExecute] returns the
    configuration as it was: the counter is 1, the closure still holds the
    result it has not recorded, and the slot handed to the formatter has
    the zero values. *)
Theorem early_return_misses_result :
  (let st0 := Examples.finalState (Examples.compiled ".*")
                (firstn 3 Examples.earlyReturnSchedule) Examples.probeConf in
   main st0 = MCollect 1 /\ wg st0 = 0 /\ tasks st0 = [])
  /\
  exists st,
    exampleRun (Examples.compiled ".*") Examples.earlyReturnSchedule
      (initState _ Examples.probeConf) = Some st /\
    BatchExecute_result st = Some (Examples.probeConf, None) /\
    wg st = 1 /\
    map t_pc (tasks st) = [TWriteCode ("foo\nbar\n", 0, None)] /\
    map (fun e => Host (snd e)) (contacted st) = ["up.example"] /\
    Examples.slotResults st = [[(EmptyString, 0, 0)]].
Proof.
  split; [vm_compute; repeat split|].
  eexists. split; [vm_compute; reflexivity|]. vm_compute. repeat split.
Qed.

(** The other order, [done.Add(1)] before [done.Wait()]: the request's
    goroutine waits for the counter, the closure waits at its send for the
    [select] that comes after the wait, and nothing can move. *)
Example add_before_wait_blocks :
  exists st,
    exampleRun (Examples.compiled ".*") Examples.addBeforeWaitSchedule
      (initState _ Examples.probeConf) = Some st /\
    main st = MWait /\ wg st = 1 /\ map t_pc (tasks st) = [TSend] /\
    map (@sp_pc _) (spawners st) = [SExit] /\
    forall a, exampleStep (Examples.compiled ".*") a st = None.
Proof.
  eexists. split; [vm_compute; reflexivity|].
  split; [reflexivity|]. split; [reflexivity|]. split; [reflexivity|].
  split; [reflexivity|].
  intros [ | |k|k|k]; try reflexivity; destruct k as [|k]; try reflexivity;
    destruct k; reflexivity.
Qed.

(** C3, the code at the failing input: the pattern [(] does not compile,
    [executeScript] drops the error and keeps the nil pointer, and the
    closure panics at [match.MatchString]: the process is dead, no
    goroutine moves any more and [BatchExecute] does not return. *)
Theorem invalid_pattern_crashes :
  RegexpFragment.Compile "(" = None /\
  exists st,
    exampleRun (Examples.compiled ".*") Examples.addBeforeWaitSchedule
      (initState _ Examples.badPatternConf) = Some st /\
    crashed st = true /\
    BatchExecute_result st = None /\
    (forall a, exampleStep (Examples.compiled ".*") a st = None) /\
    exampleHostTask "echo foo" (RegexpFragment.Compile "(")
      (Examples.credential "up.example" "22")
      (Examples.credential "up.example" "22") = None.
Proof.
  split; [vm_compute; reflexivity|].
  eexists. split; [vm_compute; reflexivity|]. repeat split.
Qed.

(* ================================================================== *)
(** * Further properties of the executor *)
(* ================================================================== *)

Module EscapeFacts.

Import GoStringFacts.

Lemma escape_newlines_id (s : string) :
  contains_char nl_char s = false -> escape_newlines s = s.
Proof.
  induction s as [|c s IH]; [reflexivity|].
  cbn [contains_char escape_newlines]. rewrite (Ascii.eqb_sym nl_char c).
  destruct (Ascii.eqb c nl_char); [discriminate|].
  cbn [orb]. intros H. now rewrite IH.
Qed.

Lemma length_append (a b : string) :
  String.length (a ++ b) = (String.length a + String.length b)%nat.
Proof. induction a as [|c a IH]; cbn; [reflexivity | now rewrite IH]. Qed.

Lemma contains_char_app (c : ascii) (a b : string) :
  contains_char c (a ++ b) = contains_char c a || contains_char c b.
Proof.
  induction a as [|x a IH]; cbn [append contains_char]; [reflexivity|].
  now rewrite IH, Bool.orb_assoc.
Qed.

Lemma Sscanf_exit_status_range (e : string) (n : Z) :
  Sscanf_exit_status e = Some n -> - 2 ^ 63 <= n < 2 ^ 63.
Proof.
  unfold Sscanf_exit_status.
  destruct (advance exit_status_format e) as [rest|]; [|discriminate].
  unfold scanInt. destruct (SkipSpace rest) as [[|c r]|]; try discriminate.
  assert (P : forall neg tok, ParseInt neg tok = Some n -> - 2 ^ 63 <= n < 2 ^ 63).
  { intros neg tok. unfold ParseInt. destruct tok; [discriminate|].
    destruct (digits_value _ 0) as [v|]; [|discriminate].
    destruct (- 2 ^ 63 <=? (if neg then - v else v)) eqn:E1; [|discriminate].
    destruct ((if neg then - v else v) <? 2 ^ 63) eqn:E2; [|discriminate].
    cbn [andb]. intros H. injection H as <-.
    apply Z.leb_le in E1. apply Z.ltb_lt in E2. lia. }
  destruct (Ascii.eqb c "-"); [apply P|].
  destruct (Ascii.eqb c "+"); apply P.
Qed.

(** The status [executeScriptOnHost] returns with the error text [e] of
    a command. *)
Lemma status_of_error (e : string) :
  (forall status signal msg,
      0 < status < 2 ^ 32 -> e = Waitmsg_String status signal msg ->
      match Sscanf_exit_status e with
      | Some n => if n =? 0 then -1 else n
      | None => -1
      end = status) /\
  (forall n, Sscanf_exit_status e = Some n -> n <> 0 ->
             match Sscanf_exit_status e with
             | Some n => if n =? 0 then -1 else n
             | None => -1
             end = n) /\
  (Sscanf_exit_status e = None ->
   match Sscanf_exit_status e with
   | Some n => if n =? 0 then -1 else n
   | None => -1
   end = -1).
Proof.
  repeat split.
  - intros status signal msg Hs ->.
    rewrite GoStringFacts.Sscanf_Waitmsg by lia.
    destruct (Z.eqb_spec status 0); [lia | reflexivity].
  - intros n -> Hn. destruct (Z.eqb_spec n 0); [contradiction | reflexivity].
  - now intros ->.
Qed.

End EscapeFacts.

(** X1: escaping an escaped output again changes nothing, since no
    newline is left in it. *)
Theorem literalFormat_idempotent (s : string) :
  literalFormat (literalFormat s) = literalFormat s.
Proof.
  rewrite !literalFormat_escape.
  apply EscapeFacts.escape_newlines_id, GoStringFacts.escape_newlines_no_newline.
Qed.

(** X2: the escape of a concatenation is the concatenation of the
    escapes. *)
Theorem literalFormat_app (a b : string) :
  literalFormat (a ++ b) = literalFormat a ++ literalFormat b.
Proof.
  rewrite !literalFormat_escape. apply GoStringFacts.escape_newlines_app.
Qed.

(** X3: the escape cannot be undone: an output with a newline and the
    output that has the two characters backslash and n at that place are
    different and have the same escape. *)
Theorem literalFormat_collision (a b : string) :
  a ++ nl ++ b <> a ++ "\n" ++ b /\
  literalFormat (a ++ nl ++ b) = literalFormat (a ++ "\n" ++ b).
Proof.
  split.
  - intros H. apply (f_equal String.length) in H.
    rewrite !EscapeFacts.length_append in H. cbn in H. lia.
  - rewrite !literalFormat_escape, !GoStringFacts.escape_newlines_app.
    reflexivity.
Qed.

Section ExecutorResults.

Variable Session : Type.
Variable sshConnectToHost : string -> string -> string -> string -> Session + string.
Variable CombinedOutput : Session -> string -> string * error.

(** X4: whatever the transport answers, [executeScriptOnHost] returns
    status 0 exactly when it returns no error; with an error the output it
    returns is empty; the output never holds a newline; and the status is
    a 64-bit integer. *)
Theorem status_zero_iff_no_error (host port user keyfile script : string) :
  let r := executeScriptOnHost sshConnectToHost CombinedOutput
             host port user keyfile script in
  (snd (fst r) = 0 <-> snd r = None) /\
  (snd r <> None -> fst (fst r) = EmptyString) /\
  contains_char nl_char (fst (fst r)) = false /\
  - 2 ^ 63 <= snd (fst r) < 2 ^ 63.
Proof.
  cbv zeta. unfold executeScriptOnHost.
  destruct (sshConnectToHost host port user keyfile) as [session|err].
  2:{ cbn [fst snd]. repeat split; try discriminate; try reflexivity; lia. }
  destruct (CombinedOutput session script) as [out [e|]].
  - destruct (Sscanf_exit_status e) as [n|] eqn:E.
    + pose proof (EscapeFacts.Sscanf_exit_status_range _ E) as Hr.
      destruct (Z.eqb_spec n 0) as [->|Hn]; cbn [negb fst snd];
        repeat split; try discriminate; try reflexivity; try lia;
        intros; congruence.
    + cbn [negb fst snd Z.eqb].
      repeat split; try discriminate; try reflexivity; lia.
  - cbn [fst snd]. rewrite literalFormat_escape.
    repeat split; try reflexivity; try lia; try congruence.
    apply GoStringFacts.escape_newlines_no_newline.
Qed.

End ExecutorResults.

(* ================================================================== *)
(** * Further properties of the normalisation and of the formatter *)
(* ================================================================== *)

Section AdjustConfigIdempotent.

Variable ParseDuration : string -> option Z.

Lemma adjustCredential_idempotent (cr : CredentialConfig) :
  adjustCredential (adjustCredential cr) = adjustCredential cr.
Proof.
  unfold adjustCredential.
  destruct (String.eqb (Port cr) EmptyString) eqn:E; [reflexivity|].
  now rewrite E.
Qed.

Lemma adjustScript_idempotent (s : ScriptConfig) :
  adjustScript ParseDuration (adjustScript ParseDuration s)
  = adjustScript ParseDuration s.
Proof.
  unfold adjustScript, set_ParsedTimeout, set_Credentials.
  cbn [Timeout Credentials Name Script Pattern Ignored ParsedTimeout].
  assert (E : map adjustCredential (map adjustCredential (Credentials s))
              = map adjustCredential (Credentials s)).
  { rewrite map_map. apply map_ext. intros. apply adjustCredential_idempotent. }
  destruct (ParseDuration (Timeout s)) eqn:Et;
    cbn [Timeout Credentials Name Script Pattern Ignored ParsedTimeout];
    now rewrite Et, E.
Qed.

Lemma adjustConfig_fixed (c : Config) :
  adjustConfig ParseDuration (fst (adjustConfig ParseDuration c))
  = (fst (adjustConfig ParseDuration c), None).
Proof.
  unfold adjustConfig, set_Scripts. cbn [fst Scripts Version]. f_equal. f_equal.
  rewrite map_map. apply map_ext. intros. apply adjustScript_idempotent.
Qed.

(** X5: normalising a normalised configuration changes nothing. *)
Theorem adjustConfig_idempotent (c : Config) :
  adjustConfig ParseDuration (fst (adjustConfig ParseDuration c))
  = adjustConfig ParseDuration c.
Proof.
  unfold adjustConfig, set_Scripts. cbn [fst Scripts Version]. f_equal. f_equal.
  rewrite map_map. apply map_ext. intros. apply adjustScript_idempotent.
Qed.

End AdjustConfigIdempotent.

Module DocumentFacts.

Import GoStringFacts FormatFacts EscapeFacts.

Lemma concatStrings_app (a b : list string) :
  concatStrings (a ++ b) = concatStrings a ++ concatStrings b.
Proof.
  induction a as [|x a IH]; cbn [concatStrings fold_right List.app]; [reflexivity|].
  fold (concatStrings (a ++ b)). fold (concatStrings a).
  now rewrite IH, append_assoc.
Qed.

Lemma document_scripts (v : string) (l : list ScriptConfig) :
  fst (PrometheusFormatResponse (mkConfig v l))
  = concatStrings (map codeBlock (filter selected l)).
Proof.
  unfold PrometheusFormatResponse. cbn [fst Scripts].
  now rewrite fold_left_formatScript.
Qed.

Lemma cons_inj {A : Type} (a b : A) (l m : list A) :
  a :: l = b :: m -> a = b /\ l = m.
Proof. intros H. now injection H. Qed.

Lemma lines_rendered (f g : CredentialConfig -> string) (l1 : list CredentialConfig) :
  (forall j1 j2, renderedCredential j1 = renderedCredential j2 -> f j1 = g j2) ->
  forall l2,
    map renderedCredential l1 = map renderedCredential l2 -> map f l1 = map g l2.
Proof.
  intros Hfg. induction l1 as [|j1 l1 IH]; intros [|j2 l2] H; try discriminate;
    [reflexivity|].
  cbn [map] in *. apply cons_inj in H as [Hj Hl].
  f_equal; [now apply Hfg | now apply IH].
Qed.

(** The lines of a block are read off the rendered fields. *)
Lemma codeBlock_rendered (s1 s2 : ScriptConfig) :
  renderedScript s1 = renderedScript s2 -> codeBlock s1 = codeBlock s2.
Proof.
  unfold renderedScript. intros H. injection H as Hn Hs Hp _ Hc.
  unfold codeBlock, blockLines. rewrite Hn.
  assert (E1 : map (exitStatusLine s1) (Credentials s1)
               = map (exitStatusLine s2) (Credentials s2)).
  { apply lines_rendered; [|exact Hc].
    intros j1 j2 Hj. unfold renderedCredential in Hj. injection Hj as Hh Hu Hcode _.
    unfold exitStatusLine. now rewrite Hn, Hs, Hh, Hu, Hcode. }
  assert (E2 : map (patternMatchLine s1) (Credentials s1)
               = map (patternMatchLine s2) (Credentials s2)).
  { apply lines_rendered; [|exact Hc].
    intros j1 j2 Hj. unfold renderedCredential in Hj. injection Hj as Hh Hu _ Hm.
    unfold patternMatchLine. now rewrite Hn, Hs, Hp, Hh, Hu, Hm. }
  now rewrite E1, E2.
Qed.

Lemma blocks_rendered (l1 : list ScriptConfig) : forall l2,
  map renderedScript l1 = map renderedScript l2 ->
  map codeBlock (filter selected l1) = map codeBlock (filter selected l2).
Proof.
  induction l1 as [|s1 l1 IH]; intros [|s2 l2] H; try discriminate; [reflexivity|].
  cbn [map] in H. apply cons_inj in H as [Hs Hl].
  assert (Hi : selected s1 = selected s2).
  { unfold selected. f_equal. unfold renderedScript in Hs. now injection Hs. }
  cbn [filter]. rewrite Hi. destruct (selected s2); cbn [map].
  - f_equal; [now apply codeBlock_rendered | now apply IH].
  - now apply IH.
Qed.

(** ** Percent signs *)

Lemma no_percent_app (a b : string) :
  no_percent a -> no_percent b -> no_percent (a ++ b).
Proof.
  unfold no_percent. intros Ha Hb. now rewrite contains_char_app, Ha, Hb.
Qed.

Lemma no_percent_digits (s : string) : all_digits s = true -> no_percent s.
Proof.
  unfold no_percent. induction s as [|c s IH]; [reflexivity|].
  cbn [all_digits contains_char]. intros H.
  apply Bool.andb_true_iff in H as [Hc Hs]. rewrite (IH Hs), Bool.orb_false_r.
  apply Ascii.eqb_neq. intros <-. discriminate Hc.
Qed.

Lemma no_percent_fmt_d (n : Z) : no_percent (fmt_d n).
Proof.
  unfold fmt_d. destruct (n <? 0) eqn:E.
  - apply Z.ltb_lt in E. change (String "-" (fmt_uint (- n))) with ("-" ++ fmt_uint (- n)).
    apply no_percent_app; [reflexivity|].
    apply no_percent_digits, all_digits_fmt_uint. lia.
  - apply Z.ltb_ge in E. apply no_percent_digits, all_digits_fmt_uint. lia.
Qed.

Lemma no_percent_unlines (ls : list string) :
  Forall no_percent ls -> no_percent (unlines ls).
Proof.
  induction 1 as [|x ls Hx _ IH]; cbn [unlines]; [reflexivity|].
  apply no_percent_app; [exact Hx|]. apply no_percent_app; [reflexivity | exact IH].
Qed.

Lemma no_percent_concat (ls : list string) :
  Forall no_percent ls -> no_percent (concatStrings ls).
Proof.
  induction 1 as [|x ls Hx _ IH]; cbn [concatStrings fold_right]; [reflexivity|].
  now apply no_percent_app.
Qed.

Ltac no_percent_parts :=
  repeat first [ reflexivity | assumption | apply no_percent_fmt_d
               | apply no_percent_app ].

Lemma no_percent_block (s : ScriptConfig) :
  Forall no_percent (renderedStrings s) -> no_percent (codeBlock s).
Proof.
  unfold renderedStrings. intros H.
  apply Forall_app in H as [H3 Hc].
  inversion H3 as [|? ? Hn H2]; subst. inversion H2 as [|? ? Hs H1]; subst.
  inversion H1 as [|? ? Hp _]; subst.
  assert (Hcr : forall j, In j (Credentials s) -> no_percent (Host j) /\ no_percent (User j)).
  { intros j Hj. rewrite Forall_forall in Hc.
    split; apply Hc; apply in_flat_map; exists j; (split; [exact Hj|]); cbn; auto. }
  unfold codeBlock, blockLines. apply no_percent_unlines.
  apply Forall_app; split.
  { constructor; [|constructor; [reflexivity | constructor]].
    unfold exitStatusHelpLine. no_percent_parts. }
  apply Forall_app; split.
  { apply Forall_forall. intros x Hx. apply in_map_iff in Hx as (j & <- & Hj).
    destruct (Hcr j Hj). unfold exitStatusLine. no_percent_parts. }
  apply Forall_app; split.
  { constructor; [|constructor; [reflexivity | constructor]].
    unfold patternMatchHelpLine. no_percent_parts. }
  apply Forall_forall. intros x Hx. apply in_map_iff in Hx as (j & <- & Hj).
  destruct (Hcr j Hj). unfold patternMatchLine. no_percent_parts.
Qed.

End DocumentFacts.

(** X6: the document of a configuration is the document of the first
    part of its scripts followed by the document of the rest. *)
Theorem document_app (v : string) (l1 l2 : list ScriptConfig) :
  fst (PrometheusFormatResponse (mkConfig v (l1 ++ l2)))
  = fst (PrometheusFormatResponse (mkConfig v l1))
    ++ fst (PrometheusFormatResponse (mkConfig v l2)).
Proof.
  rewrite !DocumentFacts.document_scripts, filter_app, map_app.
  apply DocumentFacts.concatStrings_app.
Qed.

(** X7: the document is a function of the names, commands, patterns and
    ignored flags of the scripts and of the hosts, users, exit statuses and
    match flags of their credentials: two configurations that agree on
    these have the same document, whatever their recorded outputs, error
    texts, ports, key files and timeouts. *)
Theorem document_depends_on_rendered (c1 c2 : Config) :
  map renderedScript (Scripts c1) = map renderedScript (Scripts c2) ->
  PrometheusFormatResponse c1 = PrometheusFormatResponse c2.
Proof.
  intros H. unfold PrometheusFormatResponse.
  rewrite !FormatFacts.fold_left_formatScript.
  now rewrite (DocumentFacts.blocks_rendered _ _ H).
Qed.

(** Witness of X7: the configuration of the unit test and the same with
    another output, an error text, another port and no key file. *)
Lemma document_depends_on_rendered_witness :
  map renderedScript (Scripts Examples.unitTestConf)
  = map renderedScript
      [mkScriptConfig "scriptName" "echo foo" "1h" "foo"
         [mkCredentialConfig "localhost" "22" "username" EmptyString
            "bar" 0 "some error" 1]
         0 false]
  /\
  PrometheusFormatResponse Examples.unitTestConf
  = PrometheusFormatResponse
      (mkConfig "v1"
         [mkScriptConfig "scriptName" "echo foo" "1h" "foo"
            [mkCredentialConfig "localhost" "22" "username" EmptyString
               "bar" 0 "some error" 1]
            0 false]).
Proof.
  split; [reflexivity|].
  apply document_depends_on_rendered. reflexivity.
Defined.

(** X8: the handler gives the document to [fmt.Fprintf] as the format.
    When no name, command or pattern of a selected script and no host or
    user of its credentials holds a percent sign, the document holds
    none. *)
Theorem document_percent_free (c : Config) :
  (forall s, In s (Scripts c) -> Ignored s = false ->
             Forall (fun x => contains_char "%" x = false) (renderedStrings s)) ->
  contains_char "%" (fst (PrometheusFormatResponse c)) = false.
Proof.
  intros H. unfold PrometheusFormatResponse. cbn [fst].
  rewrite FormatFacts.fold_left_formatScript. cbn [append].
  apply DocumentFacts.no_percent_concat.
  apply Forall_forall. intros x Hx. apply in_map_iff in Hx as (s & <- & Hs).
  apply filter_In in Hs as [Hin Hsel].
  apply DocumentFacts.no_percent_block, H; [exact Hin|].
  unfold selected in Hsel. now destruct (Ignored s).
Qed.

(** Witness of X8: the configuration of the unit test. *)
Lemma document_percent_free_witness :
  (forall s, In s (Scripts Examples.unitTestConf) -> Ignored s = false ->
             Forall (fun x => contains_char "%" x = false) (renderedStrings s))
  /\ contains_char "%" (fst (PrometheusFormatResponse Examples.unitTestConf)) = false.
Proof.
  assert (H : forall s, In s (Scripts Examples.unitTestConf) -> Ignored s = false ->
                Forall (fun x => contains_char "%" x = false) (renderedStrings s)).
  { intros s [<-|[]] _. repeat constructor. }
  split; [exact H|]. apply document_percent_free. exact H.
Defined.

(** A command with a percent sign puts it into the format. *)
Example percent_in_command :
  contains_char "%"
    (fst (PrometheusFormatResponse
            (mkConfig "v0"
               [mkScriptConfig "clock" "date +%s" "5s" "foo"
                  [Examples.credential "up.example" "22"] 0 false]))) = true.
Proof. reflexivity. Qed.

(* ================================================================== *)
(** * Further properties of the batch dispatcher *)
(* ================================================================== *)

Module ListFacts.

Lemma map_pointwise {A B : Type} (f g : A -> B) (l l0 : list A) :
  List.length l = List.length l0 ->
  (forall i x0, nth_error l0 i = Some x0 ->
                exists x, nth_error l i = Some x /\ f x = g x0) ->
  map f l = map g l0.
Proof.
  intros Hlen H. apply nth_error_ext. intros i. rewrite !nth_error_map.
  destruct (nth_error l0 i) as [x0|] eqn:E0.
  - destruct (H i x0 E0) as (x & -> & Hx). cbn. now rewrite Hx.
  - apply nth_error_None in E0. rewrite <- Hlen in E0.
    apply nth_error_None in E0. now rewrite E0.
Qed.

Lemma nth_error_map_eq {A B : Type} (f : A -> B) (l l0 : list A) (i : nat) (x : A) :
  map f l = map f l0 -> nth_error l i = Some x ->
  exists x0, nth_error l0 i = Some x0 /\ f x = f x0.
Proof.
  intros H Hx. apply (f_equal (fun m => nth_error m i)) in H.
  rewrite !nth_error_map, Hx in H. cbn in H.
  destruct (nth_error l0 i) as [x0|]; [|discriminate].
  cbn in H. injection H as H. now exists x0.
Qed.

Lemma filter_map_names (l : list ScriptConfig) : forall (l0 : list ScriptConfig)
    (ig : ScriptConfig -> bool),
  map Name l = map Name l0 ->
  map Ignored l = map ig l0 ->
  map Name (filter selected l) = map Name (filter (fun s0 => negb (ig s0)) l0).
Proof.
  induction l as [|s l IH]; intros [|s0 l0] ig Hn Hi; try discriminate; [reflexivity|].
  cbn [map] in Hn, Hi. injection Hn as Hn Hn'. injection Hi as Hi Hi'.
  cbn [filter]. unfold selected at 1. rewrite Hi.
  destruct (ig s0); cbn [negb map]; [now apply IH|].
  f_equal; [exact Hn | now apply IH].
Qed.

Lemma NoDup_snoc {A : Type} (x : A) (l : list A) :
  NoDup l -> ~ In x l -> NoDup (l ++ [x]).
Proof.
  induction l as [|y l IH]; intros Hn Hx; cbn [List.app].
  - constructor; [intros [] | constructor].
  - inversion Hn; subst. constructor.
    + rewrite in_app_iff. intros [H|[H|[]]]; [contradiction|].
      subst. apply Hx. now left.
    + apply IH; [assumption|]. intros H. apply Hx. now right.
Qed.

Lemma nth_error_map_Some {A B : Type} (f : A -> B) (l : list A) (i : nat) (y : B) :
  nth_error (map f l) i = Some y -> exists x, nth_error l i = Some x /\ f x = y.
Proof.
  rewrite nth_error_map. destruct (nth_error l i) as [x|]; [|discriminate].
  cbn. intros H. injection H as <-. now exists x.
Qed.

End ListFacts.

(** ** Slots of the shared configuration *)

Module SlotFacts.

Import UpdateFacts.

Lemma slotAt_writeSlot_same (k i : nat) f (c : Config) :
  slotAt k i (writeSlot k i f c) = option_map f (slotAt k i c).
Proof.
  unfold slotAt, writeSlot. cbn [Scripts set_Scripts].
  rewrite nth_error_update, Nat.eqb_refl.
  destruct (nth_error (Scripts c) k) as [s|]; cbn [option_map]; [|reflexivity].
  cbn [Credentials set_Credentials]. now rewrite nth_error_update, Nat.eqb_refl.
Qed.

Lemma slotAt_writeSlot_other (k i k' i' : nat) f (c : Config) :
  k <> k' -> slotAt k i (writeSlot k' i' f c) = slotAt k i c.
Proof.
  intros Hk. unfold slotAt, writeSlot. cbn [Scripts set_Scripts].
  rewrite nth_error_update.
  now replace (Nat.eqb k k') with false by (symmetry; now apply Nat.eqb_neq).
Qed.

Lemma slotAt_ignore (k i j : nat) (c : Config) :
  slotAt k i (set_Scripts (update j (set_Ignored true) (Scripts c)) c) = slotAt k i c.
Proof.
  unfold slotAt. cbn [Scripts set_Scripts]. rewrite nth_error_update.
  destruct (Nat.eqb k j); [|reflexivity].
  now destruct (nth_error (Scripts c) k).
Qed.

Lemma slotAt_Some (k i : nat) (c : Config) (slot : CredentialConfig) :
  slotAt k i c = Some slot <->
  exists s, nth_error (Scripts c) k = Some s /\ nth_error (Credentials s) i = Some slot.
Proof.
  unfold slotAt. split.
  - destruct (nth_error (Scripts c) k) as [s|]; [|discriminate]. intros H. now exists s.
  - intros (s & -> & H). exact H.
Qed.

End SlotFacts.

Module CounterFacts.

Lemma liveTasks_app (l1 l2 : list Task) :
  liveTasks (l1 ++ l2) = liveTasks l1 + liveTasks l2.
Proof.
  induction l1 as [|t l1 IH]; cbn [liveTasks fold_right List.app]; [reflexivity|].
  fold (liveTasks (l1 ++ l2)). fold (liveTasks l1). lia.
Qed.

Lemma liveTasks_update (pc : TaskPC) (l : list Task) : forall k t,
  nth_error l k = Some t ->
  liveTasks (update k (set_t_pc pc) l) = liveTasks l - live (t_pc t) + live pc.
Proof.
  induction l as [|x l IH]; intros [|k] t H; try discriminate;
    cbn [nth_error update liveTasks fold_right] in *.
  - injection H as ->. fold (liveTasks l). cbn [set_t_pc t_pc]. lia.
  - fold (liveTasks (update k (set_t_pc pc) l)). fold (liveTasks l).
    rewrite (IH k t H). lia.
Qed.

Lemma liveTasks_nonneg (l : list Task) : 0 <= liveTasks l.
Proof.
  induction l as [|t l IH]; cbn [liveTasks fold_right]; [lia|].
  fold (liveTasks l). destruct (t_pc t); cbn [live]; lia.
Qed.

Lemma liveTasks_zero (l : list Task) :
  liveTasks l = 0 -> Forall (fun t => t_pc t = TExit) l.
Proof.
  induction l as [|t l IH]; cbn [liveTasks fold_right]; [constructor|].
  fold (liveTasks l). pose proof (liveTasks_nonneg l).
  destruct (t_pc t) eqn:E; cbn [live]; intros H0; try lia.
  constructor; [exact E | apply IH; lia].
Qed.

Lemma announced_app {Regexp : Type} (l1 l2 : list (Spawner Regexp)) :
  announcedClosures (l1 ++ l2) = announcedClosures l1 + announcedClosures l2.
Proof.
  induction l1 as [|sp l1 IH]; cbn [announcedClosures fold_right List.app];
    [reflexivity|].
  fold (announcedClosures (l1 ++ l2)). fold (announcedClosures l1). lia.
Qed.

Lemma announced_update {Regexp : Type} (g : Spawner Regexp -> Spawner Regexp)
    (l : list (Spawner Regexp)) : forall k sp,
  nth_error l k = Some sp ->
  announcedClosures (update k g l)
  = announcedClosures l - announced (sp_pc sp) + announced (sp_pc (g sp)).
Proof.
  induction l as [|x l IH]; intros [|k] sp H; try discriminate;
    cbn [nth_error update announcedClosures fold_right] in *.
  - injection H as ->. fold (announcedClosures l). lia.
  - fold (announcedClosures (update k g l)). fold (announcedClosures l).
    rewrite (IH k sp H). lia.
Qed.

Lemma announced_nonneg {Regexp : Type} (l : list (Spawner Regexp)) :
  0 <= announcedClosures l.
Proof.
  induction l as [|sp l IH]; cbn [announcedClosures fold_right]; [lia|].
  fold (announcedClosures l). destruct (sp_pc sp); cbn [announced]; lia.
Qed.

Lemma announced_zero {Regexp : Type} (l : list (Spawner Regexp)) :
  announcedClosures l = 0 -> Forall (fun sp => forall j, sp_pc sp <> SGo j) l.
Proof.
  induction l as [|sp l IH]; cbn [announcedClosures fold_right]; [constructor|].
  fold (announcedClosures l). pose proof (announced_nonneg l).
  destruct (sp_pc sp) eqn:E; cbn [announced]; intros H0; try lia;
    (constructor; [rewrite E; discriminate | apply IH; lia]).
Qed.

End CounterFacts.

Section DispatcherProperties.

Import UpdateFacts ListFacts CounterFacts.

Variable Regexp : Type.
Variable regexp_Compile : string -> option Regexp.
Variable MatchString : Regexp -> string -> bool.
Variable Session : Type.
Variable sshConnectToHost : string -> string -> string -> string -> Session + string.
Variable CombinedOutput : Session -> string -> string * error.
Variable p : Regexp.
Variable c0 : Config.

#[local] Abbreviation stepP :=
  (step regexp_Compile MatchString sshConnectToHost CombinedOutput p).
#[local] Abbreviation runP :=
  (run regexp_Compile MatchString sshConnectToHost CombinedOutput p).
#[local] Abbreviation TrackedP := (@Tracked Regexp MatchString p c0).
#[local] Abbreviation LaunchedP := (@Launched Regexp regexp_Compile MatchString p c0).

(** ** The counter of [done] *)

#[local] Abbreviation Counted :=
  (fun st : State Regexp =>
     wg st = liveTasks (tasks st) + announcedClosures (spawners st)).

Lemma step_counted (a : Action) (st st' : State Regexp) :
  Counted st -> stepP a st = Some st' -> Counted st'.
Proof.
  cbv beta. intros Hw H. unfold step in H. destruct (crashed st); [discriminate|].
  destruct a as [| |k|k|k].
  - unfold stepMain in H. destruct (main st) as [j| |[|n]|]; try discriminate.
    + destruct (nth_error (Scripts (conf st)) j) as [v|];
        [destruct (negb (MatchString p (Name v)))|]; injection H as <-;
        state_fields; try exact Hw.
      rewrite announced_app. cbn [announcedClosures fold_right sp_pc announced]. lia.
    + destruct (wg st =? 0); [|discriminate]. injection H as <-. exact Hw.
    + injection H as <-. exact Hw.
  - unfold stepTimeout in H. destruct (main st) as [j| |[|n]|]; try discriminate.
    injection H as <-. exact Hw.
  - unfold stepRecv in H. destruct (main st) as [j| |[|n]|]; try discriminate.
    destruct (nth_error (tasks st) k) as [t|] eqn:Ek; [|discriminate].
    destruct (t_pc t) eqn:Epc; try discriminate. injection H as <-. state_fields.
    rewrite (liveTasks_update _ _ _ Ek), Epc, Hw. cbn [live]. lia.
  - unfold stepSpawner in H.
    destruct (nth_error (spawners st) k) as [sp|] eqn:Ek; [|discriminate].
    destruct (sp_pc sp) as [|j|j|j|] eqn:Epc; try discriminate.
    + injection H as <-. state_fields.
      rewrite (announced_update _ _ _ Ek), Epc, Hw. cbn [sp_pc announced]. lia.
    + destruct (nth_error (Scripts (conf st)) (sp_creds sp)) as [v|]; [|discriminate].
      destruct (nth_error (Credentials v) j) as [cr|]; injection H as <-;
        state_fields; rewrite (announced_update _ _ _ Ek), Epc, Hw;
        cbn [sp_pc set_sp_pc announced]; lia.
    + injection H as <-. state_fields.
      rewrite (announced_update _ _ _ Ek), Epc, Hw. cbn [sp_pc set_sp_pc announced]. lia.
    + injection H as <-. state_fields.
      rewrite liveTasks_app, (announced_update _ _ _ Ek), Epc, Hw.
      cbn [sp_pc set_sp_pc announced liveTasks fold_right t_pc live]. lia.
  - unfold stepTask in H.
    destruct (nth_error (tasks st) k) as [t|] eqn:Ek; [|discriminate].
    destruct (nth_error (spawners st) (t_owner t)) as [sp|]; [|discriminate].
    destruct (t_pc t) eqn:Epc; try discriminate;
      try (injection H as <-; state_fields;
           rewrite (liveTasks_update _ _ _ Ek), Epc, Hw; cbn [live]; lia).
    destruct (sp_match sp); injection H as <-; state_fields; [|exact Hw].
    rewrite (liveTasks_update _ _ _ Ek), Epc, Hw. cbn [live]. lia.
Qed.

Lemma run_counted (sched : list Action) : forall st st',
  Counted st -> runP sched st = Some st' -> Counted st'.
Proof.
  induction sched as [|a sched IH]; intros st st' Hw H; cbn [run] in H.
  - now injection H as <-.
  - destruct (stepP a st) as [st1|] eqn:E; [|discriminate].
    eapply IH; [|exact H]. eapply step_counted; eauto.
Qed.

(** ** The configured fields and the ignored flags *)

Lemma Tracked_same (st st' : State Regexp) :
  conf st' = conf st -> main st' = main st -> TrackedP st -> TrackedP st'.
Proof.
  intros Hc Hm [Hv Hl Hp Hs]. constructor; rewrite ?Hc, ?Hm; assumption.
Qed.

Lemma staticScript_set_Credentials (s : ScriptConfig) (i : nat) f :
  (forall cr, staticCredential (f cr) = staticCredential cr) ->
  staticScript (set_Credentials (update i f (Credentials s)) s) = staticScript s.
Proof.
  intros Hf. unfold staticScript, set_Credentials.
  cbn [Name Script Timeout Pattern ParsedTimeout Credentials].
  now rewrite map_update.
Qed.

Lemma Tracked_write (st st' : State Regexp) (k i : nat) f :
  (forall cr, staticCredential (f cr) = staticCredential cr) ->
  conf st' = writeSlot k i f (conf st) -> main st' = main st ->
  TrackedP st -> TrackedP st'.
Proof.
  intros Hf Hc Hm [Hv Hl Hp Hs]. constructor; rewrite ?Hc, ?Hm.
  - exact Hv.
  - cbn [writeSlot Scripts set_Scripts]. now rewrite length_update.
  - exact Hp.
  - intros j s0 H0. destruct (Hs j s0 H0) as (s & Hn & Hst & Hig).
    cbn [writeSlot Scripts set_Scripts]. rewrite nth_error_update, Hn.
    destruct (Nat.eqb j k); cbn [option_map]; eexists; (split; [reflexivity|]).
    + split; [now rewrite staticScript_set_Credentials | exact Hig].
    + split; assumption.
Qed.

Lemma write_static (r : string * Z * error) :
  (forall cr, staticCredential (writeCode r cr) = staticCredential cr) /\
  (forall cr, staticCredential (writeResult r cr) = staticCredential cr) /\
  (forall cr, staticCredential (writeError r cr) = staticCredential cr) /\
  (forall re cr, staticCredential (writeMatch MatchString re r cr) = staticCredential cr).
Proof.
  repeat split; intros; try reflexivity.
  unfold writeError. now destruct (snd r).
Qed.

Lemma step_Tracked (a : Action) (st st' : State Regexp) :
  TrackedP st -> stepP a st = Some st' -> TrackedP st'.
Proof.
  intros HT H. unfold step in H. destruct (crashed st); [discriminate|].
  destruct a as [| |k|k|k].
  - unfold stepMain in H. destruct HT as [Hv Hl Hp Hs].
    destruct (main st) as [j| |[|n]|] eqn:Em; try discriminate.
    + cbn [progress] in *.
      destruct (nth_error (Scripts (conf st)) j) as [v|] eqn:Ev.
      * assert (Hj : (j < List.length (Scripts c0))%nat).
        { rewrite <- Hl. apply nth_error_Some. congruence. }
        destruct (MatchString p (Name v)) eqn:Hm; cbn [negb] in H;
          injection H as <-; constructor; state_fields; cbn [progress];
          cbn [Scripts set_Scripts Version]; rewrite ?length_update;
          try assumption; try lia.
        -- intros i s0 H0. destruct (Hs i s0 H0) as (s & Hn & Hst & Hig).
           exists s. split; [exact Hn|]. split; [exact Hst|].
           destruct (Nat.eq_dec i j) as [->|Hne].
           ++ rewrite Nat.ltb_irrefl in Hig.
              replace (j <? S j)%nat with true by (symmetry; apply Nat.ltb_lt; lia).
              assert (Name s0 = Name v).
              { rewrite Ev in Hn. injection Hn as <-.
                unfold staticScript in Hst. now injection Hst. }
              rewrite Hig, H, Hm. cbn. now rewrite Bool.orb_false_r.
           ++ replace (i <? S j)%nat with (i <? j)%nat; [exact Hig|].
              destruct (Nat.ltb_spec i j), (Nat.ltb_spec i (S j)); try reflexivity; lia.
        -- intros i s0 H0. destruct (Hs i s0 H0) as (s & Hn & Hst & Hig).
           rewrite nth_error_update, Hn.
           destruct (Nat.eqb_spec i j) as [->|Hne]; cbn [option_map];
             eexists; (split; [reflexivity|]).
           ++ split; [exact Hst|].
              replace (j <? S j)%nat with true by (symmetry; apply Nat.ltb_lt; lia).
              assert (Name s0 = Name v).
              { rewrite Ev in Hn. injection Hn as <-.
                unfold staticScript in Hst. now injection Hst. }
              rewrite H, Hm. cbn. now rewrite Bool.orb_true_r.
           ++ split; [exact Hst|].
              replace (i <? S j)%nat with (i <? j)%nat; [exact Hig|].
              destruct (Nat.ltb_spec i j), (Nat.ltb_spec i (S j)); try reflexivity; lia.
      * apply nth_error_None in Ev. assert (j = List.length (Scripts c0)) by lia.
        subst j. injection H as <-. constructor; state_fields; cbn [progress];
          try assumption; lia.
    + cbn [progress] in *. destruct (wg st =? 0); [|discriminate]. injection H as <-.
      constructor; state_fields; cbn [progress]; assumption.
    + cbn [progress] in *. injection H as <-.
      constructor; state_fields; cbn [progress]; assumption.
  - unfold stepTimeout in H.
    destruct (main st) as [j| |[|n]|] eqn:Em; try discriminate.
    injection H as <-. destruct HT as [Hv Hl Hp Hs]. rewrite Em in *.
    constructor; state_fields; cbn [progress] in *; assumption.
  - unfold stepRecv in H.
    destruct (main st) as [j| |[|n]|] eqn:Em; try discriminate.
    destruct (nth_error (tasks st) k) as [t|]; [|discriminate].
    destruct (t_pc t); try discriminate.
    injection H as <-. destruct HT as [Hv Hl Hp Hs]. rewrite Em in *.
    constructor; state_fields; cbn [progress] in *; assumption.
  - unfold stepSpawner in H.
    destruct (nth_error (spawners st) k) as [sp|]; [|discriminate].
    destruct (sp_pc sp) as [|j|j|j|]; try discriminate.
    + injection H as <-. (eapply Tracked_same; [| |exact HT]; reflexivity).
    + destruct (nth_error (Scripts (conf st)) (sp_creds sp)) as [v|]; [|discriminate].
      destruct (nth_error (Credentials v) j) as [cr|]; injection H as <-;
        (eapply Tracked_same; [| |exact HT]; reflexivity).
    + injection H as <-. (eapply Tracked_same; [| |exact HT]; reflexivity).
    + injection H as <-. (eapply Tracked_same; [| |exact HT]; reflexivity).
  - unfold stepTask in H.
    destruct (nth_error (tasks st) k) as [t|]; [|discriminate].
    destruct (nth_error (spawners st) (t_owner t)) as [sp|]; [|discriminate].
    destruct (t_pc t) as [|r|r|r|r| | |]; try discriminate.
    + injection H as <-. (eapply Tracked_same; [| |exact HT]; reflexivity).
    + injection H as <-.
      (eapply Tracked_write with (f := writeCode r); [| | |exact HT];
       [apply write_static | reflexivity | reflexivity]).
    + injection H as <-.
      (eapply Tracked_write with (f := writeResult r); [| | |exact HT];
       [apply write_static | reflexivity | reflexivity]).
    + injection H as <-.
      (eapply Tracked_write with (f := writeError r); [| | |exact HT];
       [apply write_static | reflexivity | reflexivity]).
    + destruct (sp_match sp) as [re|]; injection H as <-.
      * (eapply Tracked_write with (f := writeMatch MatchString re r);
           [| | |exact HT]; [apply write_static | reflexivity | reflexivity]).
      * (eapply Tracked_same; [| |exact HT]; reflexivity).
    + injection H as <-. (eapply Tracked_same; [| |exact HT]; reflexivity).
Qed.

Lemma run_Tracked (sched : list Action) : forall st st',
  TrackedP st -> runP sched st = Some st' -> TrackedP st'.
Proof.
  induction sched as [|a sched IH]; intros st st' HT H; cbn [run] in H.
  - now injection H as <-.
  - destruct (stepP a st) as [st1|] eqn:E; [|discriminate].
    eapply IH; [|exact H]. eapply step_Tracked; eauto.
Qed.

Lemma initState_Tracked : TrackedP (initState Regexp c0).
Proof.
  constructor; cbn; try reflexivity; try lia.
  intros i s0 H0. exists s0. repeat split; assumption.
Qed.

(** ** The goroutines and the hosts they contact *)

Lemma Forall_update_at {A : Type} (P : A -> Prop) (g : A -> A) (l : list A) :
  forall k x, nth_error l k = Some x -> (P x -> P (g x)) ->
              Forall P l -> Forall P (update k g l).
Proof.
  induction l as [|y l IH]; intros [|k] x Hx Hg Hl; try discriminate;
    cbn [nth_error update] in *; inversion Hl; subst; constructor; auto.
  - injection Hx as ->. auto.
  - eapply IH; eauto.
Qed.

#[local] Abbreviation configuredP := (@configuredFor Regexp MatchString p c0).
#[local] Abbreviation spawnerP := (@spawnerOK Regexp regexp_Compile MatchString p c0).
#[local] Abbreviation taskP := (@taskOK Regexp MatchString p c0).

Lemma taskOK_app (sps : list (Spawner Regexp)) (x : Spawner Regexp) (t : Task) :
  taskP sps t -> taskP (sps ++ [x])%list t.
Proof.
  intros (sp & Hn & Hpc & Hcf). exists sp. split; [|split; assumption].
  rewrite nth_error_app1; [exact Hn|]. apply nth_error_Some. congruence.
Qed.

Lemma taskOK_update (sps : list (Spawner Regexp)) (k : nat) (sp : Spawner Regexp)
    (g : Spawner Regexp -> Spawner Regexp) (ts : list Task) :
  nth_error sps k = Some sp ->
  (sp_pc sp <> SCompile /\ configuredP (sp_creds sp) (sp_i sp) (sp_c sp) ->
   sp_pc (g sp) <> SCompile /\
   configuredP (sp_creds (g sp)) (sp_i (g sp)) (sp_c (g sp))) ->
  Forall (taskP sps) ts -> Forall (taskP (update k g sps)) ts.
Proof.
  intros Hk Hg. apply Forall_impl. intros t (sp' & Hn & Hpc & Hcf).
  destruct (Nat.eqb_spec (t_owner t) k) as [E|E].
  - rewrite E, Hk in Hn. injection Hn as <-.
    exists (g sp). rewrite E, nth_error_update, Nat.eqb_refl, Hk.
    split; [reflexivity|]. now apply Hg.
  - exists sp'. rewrite nth_error_update.
    replace (Nat.eqb (t_owner t) k) with false by (symmetry; now apply Nat.eqb_neq).
    repeat split; assumption.
Qed.

Lemma taskOK_set_t_pc (sps : list (Spawner Regexp)) (pc : TaskPC) (ts : list Task) :
  forall k, Forall (taskP sps) ts -> Forall (taskP sps) (update k (set_t_pc pc) ts).
Proof. intros k. apply Forall_update. intros t H. exact H. Qed.

Lemma Launched_tasks (st st' : State Regexp) (k : nat) (pc : TaskPC) :
  spawners st' = spawners st ->
  tasks st' = update k (set_t_pc pc) (tasks st) ->
  contacted st' = contacted st ->
  LaunchedP st -> LaunchedP st'.
Proof.
  intros Hs Ht Hc [Ls Lt Lc]. constructor; rewrite ?Hs, ?Ht, ?Hc; try assumption.
  now apply taskOK_set_t_pc.
Qed.

Lemma step_Launched (a : Action) (st st' : State Regexp) :
  TrackedP st -> LaunchedP st -> stepP a st = Some st' -> LaunchedP st'.
Proof.
  intros HT HL H. unfold step in H. destruct (crashed st); [discriminate|].
  destruct a as [| |k|k|k].
  - unfold stepMain in H. destruct HL as [Ls Lt Lc].
    destruct (main st) as [j| |[|n]|] eqn:Em; try discriminate.
    + destruct (nth_error (Scripts (conf st)) j) as [v|] eqn:Ev.
      * destruct (MatchString p (Name v)) eqn:Hm; cbn [negb] in H;
          injection H as <-; constructor; state_fields; try assumption.
        -- apply Forall_app. split; [exact Ls|]. constructor; [|constructor].
           destruct (nth_error (Scripts c0) j) as [s0|] eqn:E0.
           ++ destruct (tr_scripts HT _ E0) as (s & Hn & Hst & _).
              rewrite Ev in Hn. injection Hn as <-.
              unfold staticScript in Hst. injection Hst as Hname Hscript _ Hpat _ _.
              exists s0. cbn. rewrite <- Hname.
              repeat split; try assumption; [|intros []].
              intros C. now contradiction C.
           ++ apply nth_error_None in E0. rewrite <- (tr_length HT) in E0.
              apply nth_error_None in E0. congruence.
        -- eapply Forall_impl; [|exact Lt]. intros t. apply taskOK_app.
      * injection H as <-. constructor; assumption.
    + destruct (wg st =? 0); [|discriminate]. injection H as <-.
      constructor; assumption.
    + injection H as <-. constructor; assumption.
  - unfold stepTimeout in H.
    destruct (main st) as [j| |[|n]|]; try discriminate.
    injection H as <-. destruct HL. constructor; assumption.
  - unfold stepRecv in H.
    destruct (main st) as [j| |[|n]|]; try discriminate.
    destruct (nth_error (tasks st) k) as [t|]; [|discriminate].
    destruct (t_pc t); try discriminate. injection H as <-.
    eapply Launched_tasks; [| | |exact HL]; reflexivity.
  - unfold stepSpawner in H. destruct HL as [Ls Lt Lc].
    destruct (nth_error (spawners st) k) as [sp|] eqn:Ek; [|discriminate].
    destruct (sp_pc sp) as [|j|j|j|] eqn:Epc; try discriminate.
    + injection H as <-. constructor; state_fields; try assumption.
      * eapply Forall_update_at; [exact Ek| |exact Ls].
        intros (s0 & H0 & Hm & Hsc & Hpa & _ & _). exists s0. cbn.
        rewrite Hpa. repeat split; try assumption. intros [].
      * eapply taskOK_update; [exact Ek| |exact Lt].
        intros [C _]. now contradiction C.
    + destruct (nth_error (Scripts (conf st)) (sp_creds sp)) as [v|] eqn:Ev;
        [|discriminate].
      destruct (nth_error (Credentials v) j) as [cr|] eqn:Ec; injection H as <-;
        constructor; state_fields; try assumption.
      * assert (Hcf : configuredP (sp_creds sp) j cr).
        { rewrite Forall_forall in Ls.
          destruct (Ls sp (nth_error_In _ _ Ek)) as (s0 & H0 & Hm & _).
          destruct (tr_scripts HT _ H0) as (s & Hn & Hst & _).
          rewrite Ev in Hn. injection Hn as <-.
          unfold staticScript in Hst. injection Hst as _ _ _ _ _ Hcr.
          destruct (nth_error_map_eq staticCredential _ _ _ Hcr Ec) as (cr0 & Hc0 & Hs0).
          exists s0, cr0. repeat split; assumption. }
        eapply Forall_update_at; [exact Ek| |exact Ls].
        intros (s0 & H0 & Hm & Hsc & Hpa & Hma & _). exists s0. cbn.
        repeat split; try assumption;
          [intros _; apply Hma; congruence | intros _; exact Hcf].
      * assert (Hcf : configuredP (sp_creds sp) j cr).
        { rewrite Forall_forall in Ls.
          destruct (Ls sp (nth_error_In _ _ Ek)) as (s0 & H0 & Hm & _).
          destruct (tr_scripts HT _ H0) as (s & Hn & Hst & _).
          rewrite Ev in Hn. injection Hn as <-.
          unfold staticScript in Hst. injection Hst as _ _ _ _ _ Hcr.
          destruct (nth_error_map_eq staticCredential _ _ _ Hcr Ec) as (cr0 & Hc0 & Hs0).
          exists s0, cr0. repeat split; assumption. }
        eapply taskOK_update; [exact Ek| |exact Lt].
        intros _. cbn. split; [discriminate | exact Hcf].
      * eapply Forall_update_at; [exact Ek| |exact Ls].
        intros (s0 & H0 & Hm & Hsc & Hpa & Hma & _). exists s0. cbn.
        repeat split; try assumption; [|intros []]. intros _. apply Hma. congruence.
      * eapply taskOK_update; [exact Ek| |exact Lt].
        intros [_ Hcf]. cbn. split; [discriminate | exact Hcf].
    + injection H as <-. constructor; state_fields; try assumption.
      * eapply Forall_update_at; [exact Ek| |exact Ls].
        intros (s0 & H0 & Hm & Hsc & Hpa & Hma & Hcf). exists s0. cbn.
        repeat split; try assumption.
        -- intros _. apply Hma. congruence.
        -- intros _. apply Hcf. now rewrite Epc.
      * eapply taskOK_update; [exact Ek| |exact Lt].
        intros [_ Hcf]. cbn. split; [discriminate | exact Hcf].
    + assert (Hcf : configuredP (sp_creds sp) (sp_i sp) (sp_c sp)).
      { rewrite Forall_forall in Ls.
        destruct (Ls sp (nth_error_In _ _ Ek)) as (s0 & _ & _ & _ & _ & _ & Hcf).
        apply Hcf. now rewrite Epc. }
      injection H as <-. constructor; state_fields; try assumption.
      * eapply Forall_update_at; [exact Ek| |exact Ls].
        intros (s0 & H0 & Hm & Hsc & Hpa & Hma & _). exists s0. cbn.
        repeat split; try assumption; [|intros []]. intros _. apply Hma. congruence.
      * apply Forall_app. split.
        -- eapply taskOK_update; [exact Ek| |exact Lt].
           intros [_ Hcf']. cbn. split; [discriminate | exact Hcf'].
        -- constructor; [|constructor].
           exists (set_sp_pc (SRange (S j)) sp).
           cbn [t_owner]. rewrite nth_error_update, Nat.eqb_refl, Ek.
           cbn. repeat split; [discriminate | exact Hcf].
  - unfold stepTask in H.
    destruct (nth_error (tasks st) k) as [t|] eqn:Ek; [|discriminate].
    destruct (nth_error (spawners st) (t_owner t)) as [sp|] eqn:Eo; [|discriminate].
    destruct (t_pc t) as [|r|r|r|r| | |]; try discriminate;
      try (injection H as <-; eapply Launched_tasks; [| | |exact HL]; reflexivity).
    + injection H as <-. destruct HL as [Ls Lt Lc].
      constructor; state_fields; try assumption.
      * now apply taskOK_set_t_pc.
      * constructor; [|exact Lc]. cbn [fst snd].
        rewrite Forall_forall in Lt.
        destruct (Lt t (nth_error_In _ _ Ek)) as (sp' & Hn & _ & Hcf).
        rewrite Eo in Hn. injection Hn as <-. now exists (sp_i sp).
    + destruct (sp_match sp); injection H as <-.
      * eapply Launched_tasks; [| | |exact HL]; reflexivity.
      * destruct HL. constructor; assumption.
Qed.

(** The panic needs a selected script whose pattern does not compile. *)
Lemma step_no_crash (a : Action) (st st' : State Regexp) :
  (forall s0, In s0 (Scripts c0) -> MatchString p (Name s0) = true ->
              regexp_Compile (Pattern s0) <> None) ->
  LaunchedP st -> stepP a st = Some st' -> crashed st' = false.
Proof.
  intros Hcomp [Ls Lt Lc] H. unfold step in H.
  destruct (crashed st) eqn:Ecr; [discriminate|].
  destruct a as [| |k|k|k].
  - unfold stepMain in H. destruct (main st) as [j| |[|n]|]; try discriminate.
    + destruct (nth_error (Scripts (conf st)) j) as [v|];
        [destruct (negb (MatchString p (Name v)))|]; injection H as <-; exact Ecr.
    + destruct (wg st =? 0); [|discriminate]. injection H as <-. exact Ecr.
    + injection H as <-. exact Ecr.
  - unfold stepTimeout in H. destruct (main st) as [j| |[|n]|]; try discriminate.
    injection H as <-. exact Ecr.
  - unfold stepRecv in H. destruct (main st) as [j| |[|n]|]; try discriminate.
    destruct (nth_error (tasks st) k) as [t|]; [|discriminate].
    destruct (t_pc t); try discriminate. injection H as <-. exact Ecr.
  - unfold stepSpawner in H.
    destruct (nth_error (spawners st) k) as [sp|]; [|discriminate].
    destruct (sp_pc sp) as [|j|j|j|]; try discriminate.
    + injection H as <-. exact Ecr.
    + destruct (nth_error (Scripts (conf st)) (sp_creds sp)) as [v|]; [|discriminate].
      destruct (nth_error (Credentials v) j) as [cr|]; injection H as <-; exact Ecr.
    + injection H as <-. exact Ecr.
    + injection H as <-. exact Ecr.
  - unfold stepTask in H.
    destruct (nth_error (tasks st) k) as [t|] eqn:Ek; [|discriminate].
    destruct (nth_error (spawners st) (t_owner t)) as [sp|] eqn:Eo; [|discriminate].
    destruct (t_pc t) as [|r|r|r|r| | |]; try discriminate;
      try (injection H as <-; exact Ecr).
    destruct (sp_match sp) as [re|] eqn:Ematch; injection H as <-; [exact Ecr|].
    exfalso. rewrite Forall_forall in Ls, Lt.
    destruct (Lt t (nth_error_In _ _ Ek)) as (sp' & Hn & Hpc & _).
    rewrite Eo in Hn. injection Hn as <-.
    destruct (Ls sp (nth_error_In _ _ Eo)) as (s0 & H0 & Hm & _ & _ & Hma & _).
    apply (Hcomp s0 (nth_error_In _ _ H0) Hm). rewrite <- (Hma Hpc). exact Ematch.
Qed.

(** Everything that holds along a run. *)
Lemma run_invariants (sched : list Action) : forall st st',
  TrackedP st -> LaunchedP st -> Counted st ->
  runP sched st = Some st' ->
  TrackedP st' /\ LaunchedP st' /\ Counted st'.
Proof.
  induction sched as [|a sched IH]; intros st st' HT HL Hw H; cbn [run] in H.
  - injection H as <-. auto.
  - destruct (stepP a st) as [st1|] eqn:E; [|discriminate].
    apply (IH st1 st'); [| | |exact H].
    + eapply step_Tracked; eauto.
    + eapply step_Launched; eauto.
    + eapply step_counted; eauto.
Qed.

Lemma initState_Launched : LaunchedP (initState Regexp c0).
Proof. constructor; constructor. Qed.

Lemma reachable_invariants (sched : list Action) (st : State Regexp) :
  runP sched (initState Regexp c0) = Some st ->
  TrackedP st /\ LaunchedP st /\ Counted st.
Proof.
  apply run_invariants;
    [apply initState_Tracked | apply initState_Launched | reflexivity].
Qed.

Lemma run_no_crash (sched : list Action) : forall st st',
  (forall s0, In s0 (Scripts c0) -> MatchString p (Name s0) = true ->
              regexp_Compile (Pattern s0) <> None) ->
  TrackedP st -> LaunchedP st -> crashed st = false ->
  runP sched st = Some st' -> crashed st' = false.
Proof.
  induction sched as [|a sched IH]; intros st st' Hcomp HT HL Hc H; cbn [run] in H.
  - now injection H as <-.
  - destruct (stepP a st) as [st1|] eqn:E; [|discriminate].
    apply (IH st1 st' Hcomp); [| | |exact H].
    + eapply step_Tracked; eauto.
    + eapply step_Launched; eauto.
    + eapply step_no_crash; eauto.
Qed.

(** The lists behind [Tracked]. *)
Lemma Tracked_static (st : State Regexp) :
  TrackedP st ->
  map staticScript (Scripts (conf st)) = map staticScript (Scripts c0).
Proof.
  intros [Hv Hl Hp Hs]. apply map_pointwise; [exact Hl|].
  intros i s0 H0. destruct (Hs i s0 H0) as (s & Hn & Hst & _). now exists s.
Qed.

Lemma Tracked_ignored (st : State Regexp) :
  TrackedP st -> progress (List.length (Scripts c0)) (main st) = List.length (Scripts c0) ->
  map Ignored (Scripts (conf st))
  = map (fun s0 => Ignored s0 || negb (MatchString p (Name s0))) (Scripts c0).
Proof.
  intros [Hv Hl Hp Hs] Hpr. apply map_pointwise; [exact Hl|].
  intros i s0 H0. destruct (Hs i s0 H0) as (s & Hn & _ & Hig).
  exists s. split; [exact Hn|]. rewrite Hig, Hpr.
  replace (i <? List.length (Scripts c0))%nat with true; [reflexivity|].
  symmetry. apply Nat.ltb_lt, nth_error_Some. congruence.
Qed.

Lemma static_names (l l0 : list ScriptConfig) :
  map staticScript l = map staticScript l0 -> map Name l = map Name l0.
Proof.
  intros H. apply (f_equal (map (fun v : string * string * string * string * Z *
                                          list (string * string * string * string) =>
                                   fst (fst (fst (fst (fst v))))))) in H.
  now rewrite !map_map in H.
Qed.

Lemma all_ignored (l : list ScriptConfig) : forall (l0 : list ScriptConfig)
    (ig : ScriptConfig -> bool),
  map Ignored l = map ig l0 ->
  (forall s0, In s0 l0 -> ig s0 = true) ->
  filter selected l = [].
Proof.
  induction l as [|s l IH]; intros [|s0 l0] ig H Hall; try discriminate; [reflexivity|].
  cbn [map] in H. injection H as Hs Hl.
  cbn [filter]. unfold selected at 1. rewrite Hs, (Hall s0) by now left.
  cbn [negb]. apply (IH l0 ig Hl). intros x Hx. apply Hall. now right.
Qed.

(** When no name matches, the returned configuration renders to the
    empty document. *)
Lemma unselected_document (st : State Regexp) :
  (forall s0, In s0 (Scripts c0) -> MatchString p (Name s0) = false) ->
  TrackedP st -> main st = MReturned ->
  fst (PrometheusFormatResponse (conf st)) = EmptyString.
Proof.
  intros Hno HT Hm. unfold PrometheusFormatResponse. cbn [fst].
  rewrite FormatFacts.fold_left_formatScript.
  rewrite (all_ignored _ _ _ (Tracked_ignored HT ltac:(now rewrite Hm))); [reflexivity|].
  intros s0 H0. rewrite (Hno s0 H0). apply Bool.orb_true_r.
Qed.

(** X9: along every run the counter of [done] is the number of launched
    closures that have not called [done.Done()] plus the number of
    [executeScript] goroutines that stand between their [done.Add(1)] and
    their [go] statement; it is never negative, and when it is zero every
    closure launched so far has finished and no goroutine stands between
    an [Add] and its [go]. *)
Theorem wait_group_counts_closures (sched : list Action) (st : State Regexp) :
  runP sched (initState Regexp c0) = Some st ->
  wg st = liveTasks (tasks st) + announcedClosures (spawners st) /\
  0 <= wg st /\
  (wg st = 0 ->
   Forall (fun t => t_pc t = TExit) (tasks st) /\
   Forall (fun sp => forall j, sp_pc sp <> SGo j) (spawners st)).
Proof.
  intros H. destruct (reachable_invariants _ H) as (_ & _ & Hw).
  cbv beta in Hw. split; [exact Hw|]. rewrite Hw.
  pose proof (liveTasks_nonneg (tasks st)) as H1.
  pose proof (announced_nonneg (spawners st)) as H2.
  split; [lia|]. intros H0.
  split; [apply liveTasks_zero | apply announced_zero]; lia.
Qed.

(** X10: [BatchExecute] and its goroutines change nothing of what the
    user configured: in every state of a run the version, the number and
    order of the scripts, their names, commands, timeouts and patterns, and
    the hosts, ports, users and key files of their credentials are those
    of the configuration the request started with. *)
Theorem configuration_kept (sched : list Action) (st : State Regexp) :
  runP sched (initState Regexp c0) = Some st ->
  Version (conf st) = Version c0 /\
  map staticScript (Scripts (conf st)) = map staticScript (Scripts c0).
Proof.
  intros H. destruct (reachable_invariants _ H) as (HT & _ & _).
  split; [apply (tr_version HT) | now apply Tracked_static].
Qed.

(** X11: in the configuration [BatchExecute] returns, a script is
    ignored exactly when it was ignored before or the filter does not
    match its name; so the scripts the formatter renders are, in
    configuration order, those that were not ignored and whose name
    matches. *)
Theorem selection_at_return (sched : list Action) (st : State Regexp)
    (r : Config * error) :
  runP sched (initState Regexp c0) = Some st ->
  BatchExecute_result st = Some r ->
  map Ignored (Scripts (fst r))
  = map (fun s0 => Ignored s0 || negb (MatchString p (Name s0))) (Scripts c0) /\
  map Name (filter selected (Scripts (fst r)))
  = map Name (filter (fun s0 => negb (Ignored s0) && MatchString p (Name s0))
                (Scripts c0)).
Proof.
  intros H Hr. destruct (reachable_invariants _ H) as (HT & _ & _).
  unfold BatchExecute_result in Hr. destruct (main st) eqn:Em; try discriminate.
  injection Hr as <-. cbn [fst].
  assert (Hig := Tracked_ignored HT ltac:(now rewrite Em)).
  split; [exact Hig|].
  rewrite (filter_map_names _ _ _ (static_names _ _ (Tracked_static HT)) Hig).
  f_equal. apply filter_ext. intros s0.
  now rewrite Bool.negb_orb, Bool.negb_involutive.
Qed.

(** X12: when the pattern of every script the filter selects compiles,
    no run ends in the panic. *)
Theorem no_crash_when_patterns_compile (sched : list Action) (st : State Regexp) :
  (forall s0, In s0 (Scripts c0) -> MatchString p (Name s0) = true ->
              regexp_Compile (Pattern s0) <> None) ->
  runP sched (initState Regexp c0) = Some st ->
  crashed st = false.
Proof.
  intros Hcomp H.
  apply (run_no_crash sched Hcomp initState_Tracked initState_Launched eq_refl H).
Qed.

(** X13: every call of [sshConnectToHost] is made with the host, port,
    user and key file of a credential configured for a script whose name
    the filter matches; and the loop variables a closure reads designate
    such a credential, with an index inside the [Credentials] of its
    script. *)
Theorem only_configured_hosts_contacted (sched : list Action) (st : State Regexp) :
  runP sched (initState Regexp c0) = Some st ->
  Forall (fun e => exists j, configuredP (fst e) j (snd e)) (contacted st) /\
  Forall (fun t => exists sp,
              nth_error (spawners st) (t_owner t) = Some sp /\
              configuredP (sp_creds sp) (sp_i sp) (sp_c sp)) (tasks st).
Proof.
  intros H. destruct (reachable_invariants _ H) as (_ & [Ls Lt Lc] & _).
  split; [exact Lc|]. eapply Forall_impl; [|exact Lt].
  intros t (sp & Hn & _ & Hcf). now exists sp.
Qed.

(** X14: when the filter matches no name, no goroutine is ever started,
    no host is contacted, the counter of [done] stays zero, and the
    configuration [BatchExecute] returns renders to the empty document. *)
Theorem nothing_selected (sched : list Action) (st : State Regexp) :
  (forall s0, In s0 (Scripts c0) -> MatchString p (Name s0) = false) ->
  runP sched (initState Regexp c0) = Some st ->
  spawners st = [] /\ tasks st = [] /\ contacted st = [] /\ wg st = 0 /\
  forall r, BatchExecute_result st = Some r ->
            fst (PrometheusFormatResponse (fst r)) = EmptyString.
Proof.
  intros Hno H. destruct (reachable_invariants _ H) as (HT & [Ls Lt Lc] & Hw).
  assert (Hs : spawners st = []).
  { destruct (spawners st) as [|sp sps]; [reflexivity|]. inversion Ls; subst.
    match goal with
    | Hsp : spawnerOK _ _ _ _ sp |- _ => destruct Hsp as (s0 & H0 & Hm & _)
    end.
    rewrite (Hno s0 (nth_error_In _ _ H0)) in Hm. discriminate. }
  assert (Ht : tasks st = []).
  { destruct (tasks st) as [|t ts]; [reflexivity|]. inversion Lt; subst.
    match goal with
    | Htk : taskOK _ _ _ _ t |- _ => destruct Htk as (sp & Hn & _)
    end.
    rewrite Hs in Hn. now destruct (t_owner t). }
  assert (Hc : contacted st = []).
  { destruct (contacted st) as [|e es]; [reflexivity|]. inversion Lc; subst.
    match goal with
    | He : exists j, _ |- _ => destruct He as (j & s0 & cr0 & H0 & Hm & _)
    end.
    rewrite (Hno s0 (nth_error_In _ _ H0)) in Hm. discriminate. }
  repeat split; try assumption.
  - cbv beta in Hw. now rewrite Hw, Ht, Hs.
  - intros r Hr. unfold BatchExecute_result in Hr.
    destruct (main st) eqn:Em; try discriminate. injection Hr as <-. cbn [fst].
    now apply unselected_document.
Qed.

(** ** One goroutine per script *)

#[local] Abbreviation OnePerScriptP := (@OnePerScript Regexp).

Lemma OnePerScript_same (st st' : State Regexp) :
  map (@sp_creds Regexp) (spawners st') = map (@sp_creds Regexp) (spawners st) ->
  (forall j, main st' = MRange j -> main st = MRange j) ->
  OnePerScriptP st -> OnePerScriptP st'.
Proof.
  intros Hs Hm [Hn Hb]. constructor; rewrite Hs; [exact Hn|].
  intros j Hj. apply Hb, Hm, Hj.
Qed.

Lemma step_OnePerScript (a : Action) (st st' : State Regexp) :
  OnePerScriptP st -> stepP a st = Some st' -> OnePerScriptP st'.
Proof.
  intros HO H. unfold step in H. destruct (crashed st); [discriminate|].
  destruct a as [| |k|k|k].
  - unfold stepMain in H.
    destruct (main st) as [j| |[|n]|] eqn:Em; try discriminate.
    + destruct HO as [Hn Hb]. specialize (Hb j Em).
      destruct (nth_error (Scripts (conf st)) j) as [v|].
      * destruct (negb (MatchString p (Name v))); injection H as <-;
          constructor; state_fields.
        -- exact Hn.
        -- intros j' Hj'. injection Hj' as <-.
           eapply Forall_impl; [|exact Hb]. cbn. intros; lia.
        -- rewrite map_app. cbn [map sp_creds]. apply NoDup_snoc; [exact Hn|].
           intros Hin. rewrite Forall_forall in Hb. specialize (Hb j Hin). lia.
        -- intros j' Hj'. injection Hj' as <-. rewrite map_app. apply Forall_app.
           split; [eapply Forall_impl; [|exact Hb]; cbn; intros; lia|].
           cbn [map sp_creds]. constructor; [lia | constructor].
      * injection H as <-. constructor; state_fields; [exact Hn | discriminate].
    + destruct (wg st =? 0); [|discriminate]. injection H as <-.
      eapply OnePerScript_same; [| |exact HO]; [reflexivity | discriminate].
    + injection H as <-.
      eapply OnePerScript_same; [| |exact HO]; [reflexivity | discriminate].
  - unfold stepTimeout in H.
    destruct (main st) as [j| |[|n]|] eqn:Em; try discriminate. injection H as <-.
    eapply OnePerScript_same; [| |exact HO]; [reflexivity | discriminate].
  - unfold stepRecv in H.
    destruct (main st) as [j| |[|n]|] eqn:Em; try discriminate.
    destruct (nth_error (tasks st) k) as [t|]; [|discriminate].
    destruct (t_pc t); try discriminate. injection H as <-.
    eapply OnePerScript_same; [| |exact HO]; [reflexivity | discriminate].
  - unfold stepSpawner in H.
    destruct (nth_error (spawners st) k) as [sp|]; [|discriminate].
    destruct (sp_pc sp) as [|j|j|j|]; try discriminate.
    + injection H as <-. eapply OnePerScript_same; [| |exact HO]; state_fields;
        [now apply map_update | auto].
    + destruct (nth_error (Scripts (conf st)) (sp_creds sp)) as [v|]; [|discriminate].
      destruct (nth_error (Credentials v) j) as [cr|]; injection H as <-;
        (eapply OnePerScript_same; [| |exact HO]; state_fields;
         [now apply map_update | auto]).
    + injection H as <-. eapply OnePerScript_same; [| |exact HO]; state_fields;
        [now apply map_update | auto].
    + injection H as <-. eapply OnePerScript_same; [| |exact HO]; state_fields;
        [now apply map_update | auto].
  - unfold stepTask in H.
    destruct (nth_error (tasks st) k) as [t|]; [|discriminate].
    destruct (nth_error (spawners st) (t_owner t)) as [sp|]; [|discriminate].
    destruct (t_pc t) as [|r|r|r|r| | |]; try discriminate;
      try (injection H as <-; eapply OnePerScript_same; [| |exact HO];
           state_fields; auto).
    destruct (sp_match sp); injection H as <-;
      (eapply OnePerScript_same; [| |exact HO]; state_fields; auto).
Qed.

Lemma run_OnePerScript (sched : list Action) : forall st st',
  OnePerScriptP st -> runP sched st = Some st' -> OnePerScriptP st'.
Proof.
  induction sched as [|a sched IH]; intros st st' HO H; cbn [run] in H.
  - now injection H as <-.
  - destruct (stepP a st) as [st1|] eqn:E; [|discriminate].
    eapply IH; [|exact H]. eapply step_OnePerScript; eauto.
Qed.

Lemma initState_OnePerScript : OnePerScriptP (initState Regexp c0).
Proof. constructor; cbn; constructor. Qed.

Lemma one_per_script (st : State Regexp) (o1 o2 : nat) (sp1 sp2 : Spawner Regexp) :
  OnePerScriptP st ->
  nth_error (spawners st) o1 = Some sp1 -> nth_error (spawners st) o2 = Some sp2 ->
  sp_creds sp1 = sp_creds sp2 -> o1 = o2.
Proof.
  intros [Hn _] H1 H2 E. rewrite NoDup_nth_error in Hn. apply Hn.
  - rewrite length_map. apply nth_error_Some. congruence.
  - rewrite !nth_error_map, H1, H2. cbn. now rewrite E.
Qed.

(** ** A closure and the slot its loop variable designates *)

Import SlotFacts.

Section Closure.

Variables o kt : nat.
Variable sp0 : Spawner Regexp.
Variable re : Regexp.
Variable owners0 : list nat.
Hypothesis Hre : sp_match sp0 = Some re.

#[local] Abbreviation SettlingP :=
  (@Settling Regexp MatchString Session sshConnectToHost CombinedOutput
     o kt sp0 re owners0).
#[local] Abbreviation r0 := (callResult sshConnectToHost CombinedOutput sp0).
#[local] Abbreviation writtenP := (written MatchString re r0).

(** A step that leaves the goroutine, the slot and the owners of the
    closures alone, and moves the closure between program points at which
    the same is written. *)
Lemma Settling_frame (st st' : State Regexp) (extra : list nat) :
  nth_error (spawners st') o = nth_error (spawners st) o ->
  map t_owner (tasks st') = (map t_owner (tasks st) ++ extra)%list ->
  Forall (fun x => x <> o) extra ->
  slotAt (sp_creds sp0) (sp_i sp0) (conf st')
  = slotAt (sp_creds sp0) (sp_i sp0) (conf st) ->
  (forall t, nth_error (tasks st) kt = Some t ->
             exists t', nth_error (tasks st') kt = Some t' /\
                        t_owner t' = t_owner t /\
                        forall slot, writtenP (t_pc t) slot -> writtenP (t_pc t') slot) ->
  SettlingP st -> SettlingP st'.
Proof.
  intros Hsp Hown Hex Hslot Ht [S1 (ex0 & S2 & S2') (t & slot & S3 & S4 & S5 & S6)].
  constructor.
  - now rewrite Hsp.
  - exists (ex0 ++ extra)%list. rewrite Hown, S2, <- app_assoc.
    split; [reflexivity | apply Forall_app; split; assumption].
  - destruct (Ht t S3) as (t' & Ht' & Ho & Hw). exists t', slot.
    rewrite Hslot. repeat split; try assumption; [congruence | now apply Hw].
Qed.

(** A step of another closure. *)
Lemma Settling_other (st st' : State Regexp) (k : nat) (pc : TaskPC) :
  k <> kt ->
  spawners st' = spawners st ->
  tasks st' = update k (set_t_pc pc) (tasks st) ->
  slotAt (sp_creds sp0) (sp_i sp0) (conf st')
  = slotAt (sp_creds sp0) (sp_i sp0) (conf st) ->
  SettlingP st -> SettlingP st'.
Proof.
  intros Hk Hs Ht Hc HS.
  apply (@Settling_frame st st' []); try assumption.
  - now rewrite Hs.
  - rewrite Ht, app_nil_r. now apply map_update.
  - constructor.
  - intros t Ek. exists t. rewrite Ht, nth_error_update.
    replace (Nat.eqb kt k) with false by (symmetry; apply Nat.eqb_neq; congruence).
    auto.
Qed.

(** A step of the closure itself: [f] is what it does to the slot. *)
Lemma Settling_own (st st' : State Regexp) (t : Task) (pc' : TaskPC)
    (f : CredentialConfig -> CredentialConfig) :
  nth_error (tasks st) kt = Some t ->
  spawners st' = spawners st ->
  tasks st' = update kt (set_t_pc pc') (tasks st) ->
  (forall slot, slotAt (sp_creds sp0) (sp_i sp0) (conf st) = Some slot ->
                slotAt (sp_creds sp0) (sp_i sp0) (conf st') = Some (f slot)) ->
  (forall slot, writtenP (t_pc t) slot -> writtenP pc' (f slot)) ->
  SettlingP st -> SettlingP st'.
Proof.
  intros Ek Hs Ht Hc Hw [S1 (ex0 & S2 & S2') (t1 & slot & S3 & S4 & S5 & S6)].
  rewrite Ek in S3. injection S3 as <-. constructor.
  - now rewrite Hs.
  - exists ex0. rewrite Ht, map_update; [auto | reflexivity].
  - exists (set_t_pc pc' t), (f slot). rewrite Ht, nth_error_update, Nat.eqb_refl, Ek.
    repeat split; [exact S4 | now apply Hc | now apply Hw].
Qed.

Lemma slot_written (c : Config) f :
  forall slot, slotAt (sp_creds sp0) (sp_i sp0) c = Some slot ->
               slotAt (sp_creds sp0) (sp_i sp0)
                 (writeSlot (sp_creds sp0) (sp_i sp0) f c) = Some (f slot).
Proof. intros slot H. now rewrite slotAt_writeSlot_same, H. Qed.

Lemma step_Settling (a : Action) (st st' : State Regexp) :
  OnePerScriptP st -> SettlingP st ->
  a <> ASpawner o ->
  (forall k' t', a = ATask k' -> nth_error (tasks st) k' = Some t' ->
                 t_owner t' = o -> k' = kt) ->
  stepP a st = Some st' -> SettlingP st'.
Proof.
  intros HO HS Ha Hq H. unfold step in H. destruct (crashed st); [discriminate|].
  assert (Ho : (o < List.length (spawners st))%nat).
  { apply nth_error_Some. rewrite (se_spawner HS). discriminate. }
  assert (Hkt : (kt < List.length (tasks st))%nat).
  { destruct (se_task HS) as (t & slot & Et & _). apply nth_error_Some. congruence. }
  assert (Same : forall st1 : State Regexp,
             spawners st1 = spawners st -> tasks st1 = tasks st ->
             conf st1 = conf st -> SettlingP st1).
  { intros st1 E1 E2 E3. apply (@Settling_frame st st1 []); try assumption.
    - now rewrite E1.
    - now rewrite E2, app_nil_r.
    - constructor.
    - now rewrite E3.
    - intros t Et. exists t. rewrite E2. auto. }
  destruct a as [| |k|k|k].
  - unfold stepMain in H.
    destruct (main st) as [j| |[|n]|] eqn:Em; try discriminate.
    + destruct (nth_error (Scripts (conf st)) j) as [v|].
      * destruct (negb (MatchString p (Name v))); injection H as <-.
        -- apply (@Settling_frame st _ []); state_fields; try assumption;
             try reflexivity.
           ++ now rewrite app_nil_r.
           ++ constructor.
           ++ apply slotAt_ignore.
           ++ intros t Et. exists t. auto.
        -- apply (@Settling_frame st _ []); state_fields; try assumption;
             try reflexivity.
           ++ now apply nth_error_app1.
           ++ now rewrite app_nil_r.
           ++ constructor.
           ++ intros t Et. exists t. auto.
      * injection H as <-. now apply Same.
    + destruct (wg st =? 0); [|discriminate]. injection H as <-. now apply Same.
    + injection H as <-. now apply Same.
  - unfold stepTimeout in H.
    destruct (main st) as [j| |[|n]|]; try discriminate.
    injection H as <-. now apply Same.
  - unfold stepRecv in H.
    destruct (main st) as [j| |[|n]|]; try discriminate.
    destruct (nth_error (tasks st) k) as [t|] eqn:Ek; [|discriminate].
    destruct (t_pc t) eqn:Epc; try discriminate. injection H as <-.
    destruct (Nat.eq_dec k kt) as [->|Hne].
    + apply (@Settling_own st _ t TDone (fun slot => slot)); state_fields;
        try assumption; try reflexivity.
      * auto.
      * rewrite Epc. auto.
    + apply (@Settling_other st _ k TDone); state_fields; try assumption; reflexivity.
  - assert (Hko : k <> o) by congruence.
    assert (Hup : forall g, nth_error (update k g (spawners st)) o
                            = nth_error (spawners st) o).
    { intros g. rewrite nth_error_update.
      now replace (Nat.eqb o k) with false
        by (symmetry; apply Nat.eqb_neq; congruence). }
    assert (Upd : forall (st1 : State Regexp) g,
               spawners st1 = update k g (spawners st) -> tasks st1 = tasks st ->
               conf st1 = conf st -> SettlingP st1).
    { intros st1 g E1 E2 E3. apply (@Settling_frame st st1 []); try assumption.
      - now rewrite E1.
      - now rewrite E2, app_nil_r.
      - constructor.
      - now rewrite E3.
      - intros t Et. exists t. rewrite E2. auto. }
    unfold stepSpawner in H.
    destruct (nth_error (spawners st) k) as [sp|]; [|discriminate].
    destruct (sp_pc sp) as [|j|j|j|]; try discriminate.
    + injection H as <-. eapply Upd; reflexivity.
    + destruct (nth_error (Scripts (conf st)) (sp_creds sp)) as [v|]; [|discriminate].
      destruct (nth_error (Credentials v) j) as [cr|]; injection H as <-;
        eapply Upd; reflexivity.
    + injection H as <-. eapply Upd; reflexivity.
    + injection H as <-.
      apply (@Settling_frame st _ [k]); state_fields; try assumption;
        try reflexivity.
      * apply Hup.
      * now rewrite map_app.
      * constructor; [exact Hko | constructor].
      * intros t Et. exists t. split; [|auto]. now rewrite nth_error_app1.
  - unfold stepTask in H.
    destruct (nth_error (tasks st) k) as [t|] eqn:Ek; [|discriminate].
    destruct (nth_error (spawners st) (t_owner t)) as [sp|] eqn:Eo; [|discriminate].
    destruct (Nat.eq_dec k kt) as [->|Hne].
    + assert (Et : t_owner t = o /\ sp = sp0).
      { destruct (se_task HS) as (t1 & slot & E1 & E2 & _).
        rewrite Ek in E1. injection E1 as <-. split; [exact E2|].
        rewrite E2, (se_spawner HS) in Eo. now injection Eo. }
      destruct Et as [Eown ->].
      destruct (t_pc t) as [|r|r|r|r| | |] eqn:Epc; try discriminate.
      * injection H as <-.
        apply (@Settling_own st _ t (TWriteCode r0) (fun slot => slot));
          state_fields; try assumption; try reflexivity.
        auto.
      * injection H as <-.
        apply (@Settling_own st _ t (TWriteResult r) (writeCode r));
          state_fields; try assumption; try reflexivity.
        -- apply slot_written.
        -- rewrite Epc. cbn [written]. intros slot ->. split; reflexivity.
      * injection H as <-.
        apply (@Settling_own st _ t (TWriteError r) (writeResult r));
          state_fields; try assumption; try reflexivity.
        -- apply slot_written.
        -- rewrite Epc. cbn [written]. intros slot [-> Hc].
           repeat split; [exact Hc].
      * injection H as <-.
        apply (@Settling_own st _ t (TMatch r) (writeError r));
          state_fields; try assumption; try reflexivity.
        -- apply slot_written.
        -- rewrite Epc. cbn [written]. intros slot (-> & Hc & Hr).
           unfold writeError. destruct (snd r0) as [e|] eqn:Ee.
           ++ repeat split; try assumption. intros e' He'. now injection He' as <-.
           ++ repeat split; try assumption. discriminate.
      * rewrite Hre in H. injection H as <-.
        apply (@Settling_own st _ t TSend (writeMatch MatchString re r));
          state_fields; try assumption; try reflexivity.
        -- apply slot_written.
        -- rewrite Epc. cbn [written]. intros slot (-> & Hc & Hr & He).
           repeat split; assumption.
      * injection H as <-.
        apply (@Settling_own st _ t TExit (fun slot => slot));
          state_fields; try assumption; try reflexivity.
        -- auto.
        -- rewrite Epc. auto.
    + assert (Hown : t_owner t <> o).
      { intros E. apply Hne. now apply (Hq k t). }
      assert (Hcr : sp_creds sp0 <> sp_creds sp).
      { intros E. apply Hown. symmetry.
        now apply (@one_per_script st o (t_owner t) sp0 sp HO (se_spawner HS) Eo). }
      destruct (t_pc t) as [|r|r|r|r| | |]; try discriminate;
        try (injection H as <-;
             eapply (@Settling_other st _ k); state_fields; try eassumption;
             try reflexivity; now apply slotAt_writeSlot_other).
      destruct (sp_match sp); injection H as <-.
      * eapply (@Settling_other st _ k); state_fields; try eassumption;
          try reflexivity. now apply slotAt_writeSlot_other.
      * now apply Same.
Qed.

Lemma run_Settling (sched : list Action) : forall st st',
  OnePerScriptP st -> SettlingP st ->
  ~ In (ASpawner o) sched ->
  (forall k', In (ATask k') sched -> nth_error owners0 k' = Some o -> k' = kt) ->
  runP sched st = Some st' -> SettlingP st'.
Proof.
  induction sched as [|a sched IH]; intros st st' HO HS Hn Hq H; cbn [run] in H.
  - now injection H as <-.
  - destruct (stepP a st) as [st1|] eqn:E; [|discriminate].
    apply (IH st1 st'); [| | | |exact H].
    + eapply step_OnePerScript; eauto.
    + eapply step_Settling; eauto.
      * intros ->. apply Hn. now left.
      * intros k' t' -> Ek Eown. destruct (se_owners HS) as (extra & Hm & Hex).
        assert (Hk' : nth_error (owners0 ++ extra)%list k' = Some o).
        { rewrite <- Hm, nth_error_map, Ek. cbn. now rewrite Eown. }
        destruct (Nat.lt_ge_cases k' (List.length owners0)) as [Hlt|Hge].
        -- rewrite nth_error_app1 in Hk' by exact Hlt. apply Hq; [now left | exact Hk'].
        -- rewrite nth_error_app2 in Hk' by exact Hge.
           apply nth_error_In in Hk'. rewrite Forall_forall in Hex.
           now contradiction (Hex o Hk').
    + intros Hin. apply Hn. now right.
    + intros k' Hin. apply Hq. now right.
Qed.

End Closure.

#[local] Abbreviation execute := (executeScriptOnHost sshConnectToHost CombinedOutput).

(** The slot of a configured credential is there in every state, with
    its configured fields. *)
Lemma Tracked_slot (st : State Regexp) (k j : nat) (s0 : ScriptConfig)
    (cr0 : CredentialConfig) :
  TrackedP st ->
  nth_error (Scripts c0) k = Some s0 -> nth_error (Credentials s0) j = Some cr0 ->
  exists slot, slotAt k j (conf st) = Some slot /\
               staticCredential slot = staticCredential cr0.
Proof.
  intros HT H0 Hc. destruct (tr_scripts HT _ H0) as (s & Hn & Hst & _).
  unfold staticScript in Hst. injection Hst as _ _ _ _ _ Hcr. symmetry in Hcr.
  destruct (nth_error_map_eq staticCredential _ _ _ Hcr Hc) as (slot & Hs & He).
  exists slot. split; [unfold slotAt; now rewrite Hn | now symmetry].
Qed.

(** A closure that starts while the loop variables designate credential
    number [sp_i sp] of its script, and is undisturbed until it has made
    its assignments, has recorded in that slot what
    [executeScriptOnHost] returns for that credential. *)
Lemma closure_records
    (sched sched' : list Action) (st st' : State Regexp) (kt : nat) (t t' : Task)
    (sp : Spawner Regexp) (s0 : ScriptConfig) (cr0 : CredentialConfig) (re : Regexp) :
  runP sched (initState Regexp c0) = Some st ->
  nth_error (tasks st) kt = Some t -> t_pc t = TStart ->
  nth_error (spawners st) (t_owner t) = Some sp ->
  nth_error (Scripts c0) (sp_creds sp) = Some s0 ->
  nth_error (Credentials s0) (sp_i sp) = Some cr0 ->
  regexp_Compile (Pattern s0) = Some re ->
  runP sched' st = Some st' ->
  undisturbed st (t_owner t) kt sched' ->
  nth_error (tasks st') kt = Some t' -> pastWrites (t_pc t') ->
  exists s' slot',
    nth_error (Scripts (conf st')) (sp_creds sp) = Some s' /\
    nth_error (Credentials s') (sp_i sp) = Some slot' /\
    staticCredential slot' = staticCredential cr0 /\
    recorded MatchString re
      (execute (Host cr0) (Port cr0) (User cr0) (KeyFile cr0) (Script s0)) slot'.
Proof.
  intros Hrun Ek Epc Eo H0 Hc0 Hcomp Hrun' [Hq1 Hq2] Ek' Hpast.
  destruct (reachable_invariants _ Hrun) as (HT & [Ls Lt Lc] & _).
  assert (HO : OnePerScriptP st)
    by (eapply run_OnePerScript; [apply initState_OnePerScript | exact Hrun]).
  rewrite Forall_forall in Ls, Lt.
  destruct (Lt t (nth_error_In _ _ Ek))
    as (sp' & Hn & Hpc & (s1 & cr1 & H1 & _ & Hc1 & Hst)).
  rewrite Eo in Hn. injection Hn as <-.
  rewrite H0 in H1. injection H1 as <-. rewrite Hc0 in Hc1. injection Hc1 as <-.
  destruct (Ls sp (nth_error_In _ _ Eo)) as (s2 & H2 & _ & Hscript & _ & Hma & _).
  rewrite H0 in H2. injection H2 as <-.
  assert (Hre : sp_match sp = Some re) by (rewrite (Hma Hpc); exact Hcomp).
  assert (Hr : callResult sshConnectToHost CombinedOutput sp
               = execute (Host cr0) (Port cr0) (User cr0) (KeyFile cr0) (Script s0)).
  { unfold callResult. unfold staticCredential in Hst.
    injection Hst as E1 E2 E3 E4. now rewrite E1, E2, E3, E4, Hscript. }
  destruct (@Tracked_slot st _ _ _ _ HT H0 Hc0) as (slot & Hslot & _).
  assert (HS : Settling MatchString sshConnectToHost CombinedOutput
                 (t_owner t) kt sp re (map t_owner (tasks st)) st).
  { constructor.
    - exact Eo.
    - exists []. rewrite app_nil_r. split; [reflexivity | constructor].
    - exists t, slot. rewrite Epc. repeat split; assumption. }
  assert (HS' : Settling MatchString sshConnectToHost CombinedOutput
                  (t_owner t) kt sp re (map t_owner (tasks st)) st').
  { apply (run_Settling Hre sched' HO HS Hq1); [|exact Hrun'].
    intros k' Hin Hk'. destruct (nth_error_map_Some _ _ _ Hk') as (t1 & E1 & E2).
    eapply Hq2; eauto. }
  destruct (se_task HS') as (t1 & slot' & E1 & _ & Hs' & Hw).
  rewrite Ek' in E1. injection E1 as <-.
  assert (Hrec : recorded MatchString re
                   (callResult sshConnectToHost CombinedOutput sp) slot').
  { destruct (t_pc t'); try contradiction; exact Hw. }
  rewrite Hr in Hrec.
  assert (HT' : TrackedP st') by (eapply run_Tracked; eauto).
  destruct (@Tracked_slot st' _ _ _ _ HT' H0 Hc0) as (slot2 & Hs2 & Hst2).
  rewrite Hs' in Hs2. injection Hs2 as <-.
  apply slotAt_Some in Hs'. destruct Hs' as (s' & E1 & E2).
  exists s', slot'. auto.
Qed.

(** C2, as the code has it.  Take any state of a request in which a
    closure is at its first statement while the loop variables of its
    [executeScript] goroutine designate a credential on whose host the
    connection step fails, the pattern of the script having compiled; let
    the request go on in any way in which that goroutine and its other
    closures take no step, up to a state in which the closure has made its
    assignments.  Then the slot of that credential in the shared
    configuration holds exit status -1, the empty output and the text of
    the failure, and its match flag is the verdict of the compiled pattern
    on the empty output: 1 for a pattern that matches the empty string, 0
    for any other.  What the slot holds when the loop variables move under
    the closure is left open here. *)
Theorem connection_failure_recorded
    (sched sched' : list Action) (st st' : State Regexp) (kt : nat) (t t' : Task)
    (sp : Spawner Regexp) (s0 : ScriptConfig) (cr0 : CredentialConfig)
    (re : Regexp) (err : string) :
  runP sched (initState Regexp c0) = Some st ->
  nth_error (tasks st) kt = Some t -> t_pc t = TStart ->
  nth_error (spawners st) (t_owner t) = Some sp ->
  nth_error (Scripts c0) (sp_creds sp) = Some s0 ->
  nth_error (Credentials s0) (sp_i sp) = Some cr0 ->
  regexp_Compile (Pattern s0) = Some re ->
  sshConnectToHost (Host cr0) (Port cr0) (User cr0) (KeyFile cr0) = inr err ->
  runP sched' st = Some st' ->
  undisturbed st (t_owner t) kt sched' ->
  nth_error (tasks st') kt = Some t' -> pastWrites (t_pc t') ->
  exists s' slot',
    nth_error (Scripts (conf st')) (sp_creds sp) = Some s' /\
    nth_error (Credentials s') (sp_i sp) = Some slot' /\
    staticCredential slot' = staticCredential cr0 /\
    ScriptReturnCode slot' = -1 /\
    ScriptResult slot' = EmptyString /\
    ScriptError slot' = err /\
    ResultPatternMatch slot' = (if MatchString re EmptyString then 1 else 0).
Proof.
  intros Hrun Ek Epc Eo H0 Hc0 Hcomp Hconn Hrun' Hq Ek' Hpast.
  destruct (@closure_records _ _ _ _ _ _ _ _ _ _ _
              Hrun Ek Epc Eo H0 Hc0 Hcomp Hrun' Hq Ek' Hpast)
    as (s' & slot' & E1 & E2 & Hst & Hrec).
  unfold executeScriptOnHost in Hrec. rewrite Hconn in Hrec.
  destruct Hrec as (Hcode & Hres & Herr & Hm). cbn [fst snd] in Hcode, Hres, Herr, Hm.
  exists s', slot'. repeat split; try assumption. now apply Herr.
Qed.

(** X19: a closure that starts while the loop variables designate a
    credential on whose host the command completes with exit status zero,
    and that the [executeScript] goroutine and its other closures leave
    undisturbed until it has made its assignments, has recorded in the
    slot of that credential the combined output with every newline
    replaced by backslash-n, so no newline, the exit status 0, and the
    match flag 1 exactly when the compiled pattern matches the escaped
    output, 0 otherwise. *)
Theorem success_recorded_in_slot
    (sched sched' : list Action) (st st' : State Regexp) (kt : nat) (t t' : Task)
    (sp : Spawner Regexp) (s0 : ScriptConfig) (cr0 : CredentialConfig)
    (re : Regexp) (session : Session) (out : string) :
  runP sched (initState Regexp c0) = Some st ->
  nth_error (tasks st) kt = Some t -> t_pc t = TStart ->
  nth_error (spawners st) (t_owner t) = Some sp ->
  nth_error (Scripts c0) (sp_creds sp) = Some s0 ->
  nth_error (Credentials s0) (sp_i sp) = Some cr0 ->
  regexp_Compile (Pattern s0) = Some re ->
  sshConnectToHost (Host cr0) (Port cr0) (User cr0) (KeyFile cr0) = inl session ->
  CombinedOutput session (Script s0) = (out, None) ->
  runP sched' st = Some st' ->
  undisturbed st (t_owner t) kt sched' ->
  nth_error (tasks st') kt = Some t' -> pastWrites (t_pc t') ->
  exists s' slot',
    nth_error (Scripts (conf st')) (sp_creds sp) = Some s' /\
    nth_error (Credentials s') (sp_i sp) = Some slot' /\
    staticCredential slot' = staticCredential cr0 /\
    ScriptResult slot' = escape_newlines out /\
    contains_char nl_char (ScriptResult slot') = false /\
    ScriptReturnCode slot' = 0 /\
    (ResultPatternMatch slot' = 1 <-> MatchString re (escape_newlines out) = true) /\
    (ResultPatternMatch slot' = 0 <-> MatchString re (escape_newlines out) = false).
Proof.
  intros Hrun Ek Epc Eo H0 Hc0 Hcomp Hconn Hout Hrun' Hq Ek' Hpast.
  destruct (@closure_records _ _ _ _ _ _ _ _ _ _ _
              Hrun Ek Epc Eo H0 Hc0 Hcomp Hrun' Hq Ek' Hpast)
    as (s' & slot' & E1 & E2 & Hst & Hrec).
  rewrite (executeScriptOnHost_success _ _ _ _ _ _ _ Hconn Hout) in Hrec.
  destruct Hrec as (Hcode & Hres & Herr & Hm). cbn [fst snd] in Hcode, Hres, Herr, Hm.
  exists s', slot'. rewrite Hres, Hm.
  repeat split; try assumption;
    try apply GoStringFacts.escape_newlines_no_newline;
    destruct (MatchString re (escape_newlines out)); intros; congruence.
Qed.

(** X20: such a closure, when the command ends with an error, has
    recorded in the slot of its credential the empty output and the text
    of the error; for the error of a non-zero exit, whose text carries the
    status the server sent (an unsigned 32-bit number other than zero),
    the slot holds that status; whenever the scan of the text stores a
    number other than zero the slot holds that number; and when the scan
    extracts nothing it holds -1. *)
Theorem command_failure_recorded_in_slot
    (sched sched' : list Action) (st st' : State Regexp) (kt : nat) (t t' : Task)
    (sp : Spawner Regexp) (s0 : ScriptConfig) (cr0 : CredentialConfig)
    (re : Regexp) (session : Session) (out e : string) :
  runP sched (initState Regexp c0) = Some st ->
  nth_error (tasks st) kt = Some t -> t_pc t = TStart ->
  nth_error (spawners st) (t_owner t) = Some sp ->
  nth_error (Scripts c0) (sp_creds sp) = Some s0 ->
  nth_error (Credentials s0) (sp_i sp) = Some cr0 ->
  regexp_Compile (Pattern s0) = Some re ->
  sshConnectToHost (Host cr0) (Port cr0) (User cr0) (KeyFile cr0) = inl session ->
  CombinedOutput session (Script s0) = (out, Some e) ->
  runP sched' st = Some st' ->
  undisturbed st (t_owner t) kt sched' ->
  nth_error (tasks st') kt = Some t' -> pastWrites (t_pc t') ->
  exists s' slot',
    nth_error (Scripts (conf st')) (sp_creds sp) = Some s' /\
    nth_error (Credentials s') (sp_i sp) = Some slot' /\
    staticCredential slot' = staticCredential cr0 /\
    ScriptResult slot' = EmptyString /\
    ScriptError slot' = e /\
    (forall status signal msg,
        0 < status < 2 ^ 32 -> e = Waitmsg_String status signal msg ->
        ScriptReturnCode slot' = status) /\
    (forall n, Sscanf_exit_status e = Some n -> n <> 0 ->
               ScriptReturnCode slot' = n) /\
    (Sscanf_exit_status e = None -> ScriptReturnCode slot' = -1).
Proof.
  intros Hrun Ek Epc Eo H0 Hc0 Hcomp Hconn Hout Hrun' Hq Ek' Hpast.
  destruct (@closure_records _ _ _ _ _ _ _ _ _ _ _
              Hrun Ek Epc Eo H0 Hc0 Hcomp Hrun' Hq Ek' Hpast)
    as (s' & slot' & E1 & E2 & Hst & Hrec).
  pose proof (executeScriptOnHost_run_error _ _ _ _ _ _ _ Hconn Hout) as Hx.
  destruct Hrec as (Hcode & Hres & Herr & Hm).
  destruct (EscapeFacts.status_of_error e) as (A & B & C).
  exists s', slot'.
  split; [exact E1|]. split; [exact E2|]. split; [exact Hst|].
  split; [rewrite Hres, Hx; reflexivity|].
  split; [apply Herr; rewrite Hx; reflexivity|].
  split; [|split].
  - intros status signal msg Hs He. rewrite Hcode, Hx. now apply (A status signal msg).
  - intros n Hn Hn0. rewrite Hcode, Hx. now apply B.
  - intros Hn. rewrite Hcode, Hx. now apply C.
Qed.

(** X15: in every state of a request that is not dead, a closure at its
    first statement can take five steps in a row.  When the pattern of its
    script has compiled, they leave it at its send, and the slot that the
    loop variable [i] of its [executeScript] goroutine designates, which
    is the slot of the credential in the loop variable [c], holds the
    status and the output that [executeScriptOnHost] returns for [c], the
    text of its error if it returns one, and the verdict of the pattern on
    that output.  When the pattern has not compiled, the fifth step is the
    panic. *)
Theorem closure_uninterrupted
    (sched : list Action) (st : State Regexp) (kt : nat) (t : Task)
    (sp : Spawner Regexp) :
  runP sched (initState Regexp c0) = Some st ->
  crashed st = false ->
  nth_error (tasks st) kt = Some t -> t_pc t = TStart ->
  nth_error (spawners st) (t_owner t) = Some sp ->
  exists st',
    runP (repeat (ATask kt) 5) st = Some st' /\
    match sp_match sp with
    | Some re =>
        crashed st' = false /\
        nth_error (tasks st') kt = Some (mkTask (t_owner t) TSend) /\
        exists s' slot',
          nth_error (Scripts (conf st')) (sp_creds sp) = Some s' /\
          nth_error (Credentials s') (sp_i sp) = Some slot' /\
          staticCredential slot' = staticCredential (sp_c sp) /\
          let r := execute (Host (sp_c sp)) (Port (sp_c sp)) (User (sp_c sp))
                     (KeyFile (sp_c sp)) (sp_script sp) in
          ScriptReturnCode slot' = snd (fst r) /\
          ScriptResult slot' = fst (fst r) /\
          (forall e, snd r = Some e -> ScriptError slot' = e) /\
          ResultPatternMatch slot' = (if MatchString re (fst (fst r)) then 1 else 0)
    | None => crashed st' = true
    end.
Proof.
  intros Hrun Hc Ek Epc Eo.
  destruct (five_steps regexp_Compile MatchString sshConnectToHost CombinedOutput
              p st kt Hc Ek Epc Eo) as (st' & Hr & Hres).
  exists st'. split; [exact Hr|].
  destruct (sp_match sp) as [re|]; [|exact Hres].
  destruct Hres as (Hconf & Hcr & Ht). split; [exact Hcr|]. split; [exact Ht|].
  destruct (reachable_invariants _ Hrun) as (HT & [Ls Lt Lc] & _).
  rewrite Forall_forall in Lt.
  destruct (Lt t (nth_error_In _ _ Ek))
    as (sp' & Hn & Hpc & (s0 & cr0 & H0 & _ & Hc0 & Hst)).
  rewrite Eo in Hn. injection Hn as <-.
  destruct (@Tracked_slot st _ _ _ _ HT H0 Hc0) as (slot & Hslot & Hst').
  assert (Hs' : slotAt (sp_creds sp) (sp_i sp) (conf st')
                = Some (writeMatch MatchString re
                          (callResult sshConnectToHost CombinedOutput sp)
                          (writeError (callResult sshConnectToHost CombinedOutput sp)
                             (writeResult (callResult sshConnectToHost CombinedOutput sp)
                                (writeCode (callResult sshConnectToHost CombinedOutput sp)
                                   slot))))).
  { rewrite Hconf, slotAt_writeSlot_same, Hslot. reflexivity. }
  apply slotAt_Some in Hs'. destruct Hs' as (s' & E1 & E2).
  eexists. eexists. split; [exact E1|]. split; [exact E2|].
  unfold callResult. cbv zeta.
  set (r := execute (Host (sp_c sp)) (Port (sp_c sp)) (User (sp_c sp))
              (KeyFile (sp_c sp)) (sp_script sp)).
  unfold writeError. destruct (snd r) as [e|] eqn:Ee; slot_fields;
    (split; [transitivity (staticCredential slot); [reflexivity | congruence]|]).
  - repeat split. intros e' He'. now injection He' as <-.
  - repeat split. discriminate.
Qed.

End DispatcherProperties.

(* ================================================================== *)
(** * The callers *)
(* ================================================================== *)

Section HandlerProperties.

Variable Regexp : Type.
Variable regexp_Compile : string -> option Regexp.
Variable MatchString : Regexp -> string -> bool.
Variable Session : Type.
Variable sshConnectToHost : string -> string -> string -> string -> Session + string.
Variable CombinedOutput : Session -> string -> string * error.
Variable ParseDuration : string -> option Z.
Variable regexp_error : string -> string.
Variable ReadFile : string -> string + string.
Variable Unmarshal : string -> Config * error.

#[local] Abbreviation ParseConfigH := (ParseConfig ParseDuration ReadFile Unmarshal).
#[local] Abbreviation ParseQueryH := (ParseQuery regexp_Compile regexp_error).
#[local] Abbreviation probeHandlerH :=
  (probeHandler regexp_Compile MatchString sshConnectToHost CombinedOutput
     ParseDuration regexp_error ReadFile Unmarshal).

(** X16: when the file cannot be read, [ParseConfig] ends the process;
    otherwise it returns the nil error, whatever [yaml.Unmarshal] has
    reported, and the configuration it returns is what the decoder filled
    in, normalised, on which normalising again changes nothing. *)
Theorem ParseConfig_outcome (path : string) :
  match ReadFile path with
  | inr _ => ParseConfigH path = None
  | inl raw =>
      exists cfg,
        ParseConfigH path = Some (cfg, None) /\
        cfg = fst (adjustConfig ParseDuration (fst (Unmarshal raw))) /\
        adjustConfig ParseDuration cfg = (cfg, None)
  end.
Proof.
  unfold ParseConfig. destruct (ReadFile path) as [raw|e]; [|reflexivity].
  destruct (Unmarshal raw) as [initialConfig yamlErr]. cbn [fst].
  exists (fst (adjustConfig ParseDuration initialConfig)).
  split; [reflexivity|]. split; [reflexivity|]. apply adjustConfig_fixed.
Qed.

Lemma ParseQuery_error (pattern : string) :
  pattern = EmptyString \/ regexp_Compile pattern = None ->
  exists e, snd (ParseQueryH pattern) = Some e.
Proof.
  unfold ParseQuery. intros [->|H].
  - cbn. eauto.
  - destruct (String.eqb pattern EmptyString); cbn [snd]; [eauto|].
    rewrite H. eauto.
Qed.

(** X17: a request whose [pattern] parameter is absent or empty, or does
    not compile, is answered with the help text, and nothing is executed;
    the configuration file is read first all the same, so that an
    unreadable file ends the process on such a request too. *)
Theorem probe_without_filter (path pattern : string) (sched : list Action) :
  pattern = EmptyString \/ regexp_Compile pattern = None ->
  probeHandlerH path pattern sched
  = match ReadFile path with
    | inr _ => ProcessExit
    | inl _ => Reply patternHelpText
    end.
Proof.
  intros H. unfold probeHandler, ParseConfig.
  destruct (ReadFile path) as [raw|e]; [|reflexivity].
  destruct (Unmarshal raw) as [initialConfig yamlErr]. cbn [adjustConfig].
  destruct (ParseQuery_error H) as (e & He).
  destruct (ParseQueryH pattern) as [re err]. cbn [snd] in He. rewrite He.
  now destruct re.
Qed.

(** X18: a request whose filter compiles and matches the name of no
    script of the file is answered, if it is answered, with the empty
    document. *)
Theorem probe_nothing_matches (path pattern raw body : string) (re : Regexp)
    (sched : list Action) :
  ReadFile path = inl raw ->
  pattern <> EmptyString ->
  regexp_Compile pattern = Some re ->
  (forall s0, In s0 (Scripts (fst (Unmarshal raw))) ->
              MatchString re (Name s0) = false) ->
  probeHandlerH path pattern sched = Reply body ->
  body = EmptyString.
Proof.
  intros Hread Hne Hre Hno. unfold probeHandler, ParseConfig, ParseQuery.
  rewrite Hread. destruct (Unmarshal raw) as [initialConfig yamlErr].
  cbn [fst] in Hno. cbn [adjustConfig].
  replace (String.eqb pattern EmptyString) with false
    by (symmetry; now apply String.eqb_neq).
  rewrite Hre.
  set (conf0 := set_Scripts (map (adjustScript ParseDuration) (Scripts initialConfig))
                  initialConfig).
  destruct (run regexp_Compile MatchString sshConnectToHost CombinedOutput re sched
              (initState Regexp conf0)) as [st|] eqn:Hrun; [|discriminate].
  unfold BatchExecute_result. destruct (main st) eqn:Em; try discriminate.
  intros H. injection H as <-.
  destruct (reachable_invariants _ _ _ _ _ _ _ Hrun) as (HT & _ & _).
  apply (@unselected_document Regexp MatchString re conf0 st); [|exact HT|exact Em].
  intros s Hs. subst conf0. cbn [Scripts set_Scripts] in Hs.
  apply in_map_iff in Hs as (s0 & <- & H0).
  destruct (adjustScript_static ParseDuration s0) as (-> & _). now apply Hno.
Qed.

End HandlerProperties.

(* ================================================================== *)
(** * The further properties on the example network *)
(* ================================================================== *)

(** The run of [Examples.twoScriptsSchedule]. *)
Lemma twoScripts_run :
  exampleRun (Examples.compiled "echo_output") Examples.twoScriptsSchedule
    (initState _ Examples.twoScriptsConf)
  = Some (Examples.finalState (Examples.compiled "echo_output")
            Examples.twoScriptsSchedule Examples.twoScriptsConf).
Proof. vm_compute. reflexivity. Qed.

(** Witness of X9: after [done.Add(1)] and before the [go] statement the
    counter is 1 and there is no closure yet. *)
Lemma wait_group_counts_closures_witness :
  exampleRun (Examples.compiled ".*") Examples.announceSchedule
    (initState _ Examples.probeConf)
  = Some (Examples.finalState (Examples.compiled ".*") Examples.announceSchedule
            Examples.probeConf)
  /\
  let st := Examples.finalState (Examples.compiled ".*") Examples.announceSchedule
              Examples.probeConf in
  wg st = liveTasks (tasks st) + announcedClosures (spawners st) /\ 0 <= wg st /\
  (wg st = 0 ->
   Forall (fun t => t_pc t = TExit) (tasks st) /\
   Forall (fun sp => forall j, sp_pc sp <> SGo j) (spawners st)).
Proof.
  assert (H : exampleRun (Examples.compiled ".*") Examples.announceSchedule
                (initState _ Examples.probeConf)
              = Some (Examples.finalState (Examples.compiled ".*")
                        Examples.announceSchedule Examples.probeConf))
    by (vm_compute; reflexivity).
  split; [exact H|]. cbv zeta. revert H.
  generalize (Examples.finalState (Examples.compiled ".*") Examples.announceSchedule
                Examples.probeConf).
  intros st H. eapply wait_group_counts_closures. exact H.
Defined.

Example announced_and_not_launched :
  let st := Examples.finalState (Examples.compiled ".*") Examples.announceSchedule
              Examples.probeConf in
  wg st = 1 /\ tasks st = [] /\ map (@sp_pc _) (spawners st) = [SGo 0] /\
  main st = MWait /\ exampleStep (Examples.compiled ".*") AMain st = None.
Proof. vm_compute. repeat split. Qed.

(** Witness of X10. *)
Lemma configuration_kept_witness :
  exampleRun (Examples.compiled "echo_output") Examples.twoScriptsSchedule
    (initState _ Examples.twoScriptsConf)
  = Some (Examples.finalState (Examples.compiled "echo_output")
            Examples.twoScriptsSchedule Examples.twoScriptsConf)
  /\
  let st := Examples.finalState (Examples.compiled "echo_output")
              Examples.twoScriptsSchedule Examples.twoScriptsConf in
  Version (conf st) = Version Examples.twoScriptsConf /\
  map staticScript (Scripts (conf st))
  = map staticScript (Scripts Examples.twoScriptsConf).
Proof.
  pose proof twoScripts_run as H. split; [exact H|]. cbv zeta. revert H.
  generalize (Examples.finalState (Examples.compiled "echo_output")
                Examples.twoScriptsSchedule Examples.twoScriptsConf).
  intros st H. eapply configuration_kept. exact H.
Defined.

(** Witness of X11: of [disk_usage] and [echo_output] the second is
    rendered. *)
Lemma selection_at_return_witness :
  (exampleRun (Examples.compiled "echo_output") Examples.twoScriptsSchedule
     (initState _ Examples.twoScriptsConf)
   = Some (Examples.finalState (Examples.compiled "echo_output")
             Examples.twoScriptsSchedule Examples.twoScriptsConf)
   /\
   BatchExecute_result (Examples.finalState (Examples.compiled "echo_output")
                          Examples.twoScriptsSchedule Examples.twoScriptsConf)
   = Some (conf (Examples.finalState (Examples.compiled "echo_output")
                   Examples.twoScriptsSchedule Examples.twoScriptsConf), None))
  /\
  let st := Examples.finalState (Examples.compiled "echo_output")
              Examples.twoScriptsSchedule Examples.twoScriptsConf in
  map Ignored (Scripts (conf st)) = [true; false] /\
  map Name (filter selected (Scripts (conf st))) = ["echo_output"].
Proof.
  pose proof twoScripts_run as H.
  assert (Hr : BatchExecute_result
                 (Examples.finalState (Examples.compiled "echo_output")
                    Examples.twoScriptsSchedule Examples.twoScriptsConf)
               = Some (conf (Examples.finalState (Examples.compiled "echo_output")
                               Examples.twoScriptsSchedule Examples.twoScriptsConf),
                       None))
    by (vm_compute; reflexivity).
  split; [split; [exact H | exact Hr]|]. cbv zeta. revert H Hr.
  generalize (Examples.finalState (Examples.compiled "echo_output")
                Examples.twoScriptsSchedule Examples.twoScriptsConf).
  intros st H Hr.
  destruct (@selection_at_return _ _ _ _ _ _ _ _ _ _ _ H Hr) as [Hig Hnames].
  cbn [fst] in Hig, Hnames. split.
  - rewrite Hig. vm_compute. reflexivity.
  - rewrite Hnames. vm_compute. reflexivity.
Defined.

(** Witness of X12: the patterns of the two scripts compile. *)
Lemma no_crash_when_patterns_compile_witness :
  ((forall s0, In s0 (Scripts Examples.twoScriptsConf) ->
               RegexpFragment.MatchString (Examples.compiled "echo_output") (Name s0)
               = true ->
               RegexpFragment.Compile (Pattern s0) <> None)
   /\
   exampleRun (Examples.compiled "echo_output") Examples.twoScriptsSchedule
     (initState _ Examples.twoScriptsConf)
   = Some (Examples.finalState (Examples.compiled "echo_output")
             Examples.twoScriptsSchedule Examples.twoScriptsConf))
  /\
  crashed (Examples.finalState (Examples.compiled "echo_output")
             Examples.twoScriptsSchedule Examples.twoScriptsConf) = false.
Proof.
  pose proof twoScripts_run as H.
  assert (Hcomp : forall s0, In s0 (Scripts Examples.twoScriptsConf) ->
                    RegexpFragment.MatchString (Examples.compiled "echo_output")
                      (Name s0) = true ->
                    RegexpFragment.Compile (Pattern s0) <> None).
  { intros s0 [<-|[<-|[]]] _; vm_compute; discriminate. }
  split; [split; [exact Hcomp | exact H]|]. revert H.
  generalize (Examples.finalState (Examples.compiled "echo_output")
                Examples.twoScriptsSchedule Examples.twoScriptsConf).
  intros st H.
  exact (@no_crash_when_patterns_compile _ _ _ _ _ _ _ _ _ _ Hcomp H).
Defined.

(** Witness of X13. *)
Lemma only_configured_hosts_contacted_witness :
  exampleRun (Examples.compiled "echo_output") Examples.twoScriptsSchedule
    (initState _ Examples.twoScriptsConf)
  = Some (Examples.finalState (Examples.compiled "echo_output")
            Examples.twoScriptsSchedule Examples.twoScriptsConf)
  /\
  let st := Examples.finalState (Examples.compiled "echo_output")
              Examples.twoScriptsSchedule Examples.twoScriptsConf in
  Forall (fun e => exists j,
              configuredFor RegexpFragment.MatchString (Examples.compiled "echo_output")
                Examples.twoScriptsConf (fst e) j (snd e)) (contacted st) /\
  Forall (fun t => exists sp,
              nth_error (spawners st) (t_owner t) = Some sp /\
              configuredFor RegexpFragment.MatchString (Examples.compiled "echo_output")
                Examples.twoScriptsConf (sp_creds sp) (sp_i sp) (sp_c sp)) (tasks st).
Proof.
  pose proof twoScripts_run as H. split; [exact H|]. cbv zeta. revert H.
  generalize (Examples.finalState (Examples.compiled "echo_output")
                Examples.twoScriptsSchedule Examples.twoScriptsConf).
  intros st H. eapply only_configured_hosts_contacted. exact H.
Defined.

(** Witness of X14: no name of the two scripts matches [unrelated]. *)
Lemma nothing_selected_witness :
  ((forall s0, In s0 (Scripts Examples.twoScriptsConf) ->
               RegexpFragment.MatchString (Examples.compiled "unrelated") (Name s0)
               = false)
   /\
   exampleRun (Examples.compiled "unrelated") Examples.nothingSchedule
     (initState _ Examples.twoScriptsConf)
   = Some (Examples.finalState (Examples.compiled "unrelated")
             Examples.nothingSchedule Examples.twoScriptsConf))
  /\
  let st := Examples.finalState (Examples.compiled "unrelated")
              Examples.nothingSchedule Examples.twoScriptsConf in
  spawners st = [] /\ tasks st = [] /\ contacted st = [] /\ wg st = 0 /\
  forall r, BatchExecute_result st = Some r ->
            fst (PrometheusFormatResponse (fst r)) = EmptyString.
Proof.
  assert (Hno : forall s0, In s0 (Scripts Examples.twoScriptsConf) ->
                  RegexpFragment.MatchString (Examples.compiled "unrelated") (Name s0)
                  = false).
  { intros s0 [<-|[<-|[]]]; vm_compute; reflexivity. }
  assert (H : exampleRun (Examples.compiled "unrelated") Examples.nothingSchedule
                (initState _ Examples.twoScriptsConf)
              = Some (Examples.finalState (Examples.compiled "unrelated")
                        Examples.nothingSchedule Examples.twoScriptsConf))
    by (vm_compute; reflexivity).
  split; [split; [exact Hno | exact H]|]. cbv zeta. revert H.
  generalize (Examples.finalState (Examples.compiled "unrelated")
                Examples.nothingSchedule Examples.twoScriptsConf).
  intros st H.
  exact (@nothing_selected _ _ _ _ _ _ _ _ _ _ Hno H).
Defined.

Example nothing_selected_returns :
  main (Examples.finalState (Examples.compiled "unrelated")
          Examples.nothingSchedule Examples.twoScriptsConf) = MReturned.
Proof. vm_compute. reflexivity. Qed.

(** Witness of X15: the closure of [Examples.probeConf] right after its
    launch. *)
Lemma closure_uninterrupted_witness :
  (exampleRun (Examples.compiled ".*") Examples.launchSchedule
     (initState _ Examples.probeConf)
   = Some (Examples.finalState (Examples.compiled ".*") Examples.launchSchedule
             Examples.probeConf)
   /\
   crashed (Examples.finalState (Examples.compiled ".*") Examples.launchSchedule
              Examples.probeConf) = false
   /\
   nth_error (tasks (Examples.finalState (Examples.compiled ".*")
                       Examples.launchSchedule Examples.probeConf)) 0
   = Some (mkTask 0 TStart)
   /\
   nth_error (spawners (Examples.finalState (Examples.compiled ".*")
                          Examples.launchSchedule Examples.probeConf)) 0
   = Some (mkSpawner "echo foo" "foo" 0 (SRange 1) (Some (Examples.compiled "foo")) 0
             (Examples.credential "up.example" "22")))
  /\
  let st := Examples.finalState (Examples.compiled ".*") Examples.launchSchedule
              Examples.probeConf in
  exists st',
    exampleRun (Examples.compiled ".*") (repeat (ATask 0) 5) st = Some st' /\
    crashed st' = false /\
    nth_error (tasks st') 0 = Some (mkTask 0 TSend) /\
    exists s' slot',
      nth_error (Scripts (conf st')) 0 = Some s' /\
      nth_error (Credentials s') 0 = Some slot' /\
      Host slot' = "up.example" /\
      ScriptReturnCode slot' = 0 /\
      ScriptResult slot' = "foo\nbar\n" /\
      ResultPatternMatch slot' = 1.
Proof.
  assert (H0 : exampleRun (Examples.compiled ".*") Examples.launchSchedule
                 (initState _ Examples.probeConf)
               = Some (Examples.finalState (Examples.compiled ".*")
                         Examples.launchSchedule Examples.probeConf))
    by (vm_compute; reflexivity).
  assert (H1 : crashed (Examples.finalState (Examples.compiled ".*")
                          Examples.launchSchedule Examples.probeConf) = false)
    by (vm_compute; reflexivity).
  assert (H2 : nth_error (tasks (Examples.finalState (Examples.compiled ".*")
                                   Examples.launchSchedule Examples.probeConf)) 0
               = Some (mkTask 0 TStart))
    by (vm_compute; reflexivity).
  assert (H3 : nth_error (spawners (Examples.finalState (Examples.compiled ".*")
                                      Examples.launchSchedule Examples.probeConf)) 0
               = Some (mkSpawner "echo foo" "foo" 0 (SRange 1)
                         (Some (Examples.compiled "foo")) 0
                         (Examples.credential "up.example" "22")))
    by (vm_compute; reflexivity).
  split; [split; [exact H0 | split; [exact H1 | split; [exact H2 | exact H3]]]|].
  cbv zeta. revert H0 H1 H2 H3.
  generalize (Examples.finalState (Examples.compiled ".*") Examples.launchSchedule
                Examples.probeConf).
  intros st H0 H1 H2 H3.
  destruct (@closure_uninterrupted RegexpFragment.re RegexpFragment.Compile
              RegexpFragment.MatchString Network.Session Network.sshConnectToHost
              Network.CombinedOutput (Examples.compiled ".*") Examples.probeConf
              Examples.launchSchedule st 0 (mkTask 0 TStart) _ H0 H1 H2 eq_refl H3)
    as (st' & Hrun & Hcr & Ht & s' & slot' & E1 & E2 & Hst & Hcode & Hres & _ & Hm).
  exists st'. split; [exact Hrun|]. split; [exact Hcr|]. split; [exact Ht|].
  exists s', slot'. split; [exact E1|]. split; [exact E2|].
  split; [now injection Hst|].
  split; [exact Hcode|]. split; [exact Hres|]. exact Hm.
Defined.

(** Witness of X17: a request without [pattern], and one whose pattern
    has an unbalanced parenthesis. *)
Lemma probe_without_filter_witness :
  (EmptyString = EmptyString \/ RegexpFragment.Compile EmptyString = None)
  /\ exampleProbeHandler "config.yml" EmptyString [] = Reply patternHelpText.
Proof.
  split; [now left|].
  exact (probe_without_filter RegexpFragment.Compile RegexpFragment.MatchString
           Network.sshConnectToHost Network.CombinedOutput
           DurationFragment.ParseDuration ExampleFiles.regexp_error
           ExampleFiles.ReadFile ExampleFiles.Unmarshal "config.yml" []
           (or_introl eq_refl)).
Defined.

Example probe_invalid_filter :
  exampleProbeHandler "config.yml" "(" [AMain] = Reply patternHelpText
  /\ exampleProbeHandler "missing.yml" "(" [AMain] = ProcessExit.
Proof. split; vm_compute; reflexivity. Qed.

(** Witness of X18: the filter [unrelated] on the example file. *)
Lemma probe_nothing_matches_witness :
  (ExampleFiles.ReadFile "config.yml" = inl ExampleFiles.configText
   /\ "unrelated" <> EmptyString
   /\ RegexpFragment.Compile "unrelated" = Some (Examples.compiled "unrelated")
   /\ (forall s0, In s0 (Scripts (fst (ExampleFiles.Unmarshal ExampleFiles.configText))) ->
                  RegexpFragment.MatchString (Examples.compiled "unrelated") (Name s0)
                  = false)
   /\ exampleProbeHandler "config.yml" "unrelated" [AMain; AMain; AMain; AMain]
      = Reply EmptyString)
  /\ EmptyString = EmptyString.
Proof.
  assert (H1 : ExampleFiles.ReadFile "config.yml" = inl ExampleFiles.configText)
    by reflexivity.
  assert (H2 : "unrelated" <> EmptyString) by discriminate.
  assert (H3 : RegexpFragment.Compile "unrelated" = Some (Examples.compiled "unrelated"))
    by (vm_compute; reflexivity).
  assert (H4 : forall s0,
             In s0 (Scripts (fst (ExampleFiles.Unmarshal ExampleFiles.configText))) ->
             RegexpFragment.MatchString (Examples.compiled "unrelated") (Name s0) = false).
  { intros s0 [<-|[]]. vm_compute. reflexivity. }
  assert (H5 : exampleProbeHandler "config.yml" "unrelated" [AMain; AMain; AMain; AMain]
               = Reply EmptyString)
    by (vm_compute; reflexivity).
  split; [repeat (split; [assumption|]); assumption|].
  exact (probe_nothing_matches RegexpFragment.Compile RegexpFragment.MatchString
           Network.sshConnectToHost Network.CombinedOutput
           DurationFragment.ParseDuration ExampleFiles.regexp_error
           ExampleFiles.ReadFile ExampleFiles.Unmarshal "config.yml"
           [AMain; AMain; AMain; AMain] H1 H2 H3 H4 H5).
Defined.

(* ================================================================== *)
(** * One script on two hosts *)
(* ================================================================== *)

(** Discharges [undisturbed] for a schedule written out. *)
Ltac undisturbed_schedule :=
  split;
  [ intros Hin; cbn [In] in Hin;
    repeat (destruct Hin as [Hin|Hin]; [discriminate Hin|]); exact Hin
  | intros k' t' Hin _ _; cbn [In] in Hin;
    repeat (destruct Hin as [Hin|Hin];
            [first [discriminate Hin | now injection Hin as <-]|]);
    contradiction Hin ].

(** Witness of C2: [echo foo] on [up.example] and [down.example]; the
    second closure starts when the loop variables designate
    [down.example], and while it does its call and its assignments a timer
    of the request's goroutine fires.  The slot of [down.example] then
    holds -1, the empty output, the text of the refusal and, under the
    pattern [foo], the match flag 0. *)
Lemma connection_failure_recorded_witness :
  (exampleRun (Examples.compiled ".*") Examples.secondLaunchedSchedule
     (initState _ (Examples.twoHostsConf "echo foo"))
   = Some (Examples.finalState (Examples.compiled ".*")
             Examples.secondLaunchedSchedule (Examples.twoHostsConf "echo foo"))
   /\
   nth_error (tasks (Examples.finalState (Examples.compiled ".*")
                       Examples.secondLaunchedSchedule
                       (Examples.twoHostsConf "echo foo"))) 1
   = Some (mkTask 0 TStart)
   /\
   nth_error (spawners (Examples.finalState (Examples.compiled ".*")
                          Examples.secondLaunchedSchedule
                          (Examples.twoHostsConf "echo foo"))) 0
   = Some (mkSpawner "echo foo" "foo" 0 (SRange 2) (Some (Examples.compiled "foo")) 1
             (Examples.credential "down.example" "22"))
   /\
   RegexpFragment.Compile "foo" = Some (Examples.compiled "foo")
   /\
   Network.sshConnectToHost "down.example" "22" "monitor" "/etc/ssh_exporter/id_rsa"
   = inr "dial tcp down.example:22: connect: connection refused"
   /\
   exampleRun (Examples.compiled ".*") Examples.secondClosureSchedule
     (Examples.finalState (Examples.compiled ".*")
        Examples.secondLaunchedSchedule (Examples.twoHostsConf "echo foo"))
   = Some (Examples.finalState (Examples.compiled ".*")
             (Examples.secondLaunchedSchedule ++ Examples.secondClosureSchedule)
             (Examples.twoHostsConf "echo foo"))
   /\
   undisturbed (Examples.finalState (Examples.compiled ".*")
                  Examples.secondLaunchedSchedule (Examples.twoHostsConf "echo foo"))
     0 1 Examples.secondClosureSchedule
   /\
   nth_error (tasks (Examples.finalState (Examples.compiled ".*")
                       (Examples.secondLaunchedSchedule ++ Examples.secondClosureSchedule)
                       (Examples.twoHostsConf "echo foo"))) 1
   = Some (mkTask 0 TSend))
  /\
  let st' := Examples.finalState (Examples.compiled ".*")
               (Examples.secondLaunchedSchedule ++ Examples.secondClosureSchedule)
               (Examples.twoHostsConf "echo foo") in
  exists s' slot',
    nth_error (Scripts (conf st')) 0 = Some s' /\
    nth_error (Credentials s') 1 = Some slot' /\
    Host slot' = "down.example" /\
    ScriptReturnCode slot' = -1 /\
    ScriptResult slot' = EmptyString /\
    ScriptError slot' = "dial tcp down.example:22: connect: connection refused" /\
    ResultPatternMatch slot' = 0.
Proof.
  assert (H1 : exampleRun (Examples.compiled ".*") Examples.secondLaunchedSchedule
                 (initState _ (Examples.twoHostsConf "echo foo"))
               = Some (Examples.finalState (Examples.compiled ".*")
                         Examples.secondLaunchedSchedule
                         (Examples.twoHostsConf "echo foo")))
    by (vm_compute; reflexivity).
  assert (H2 : nth_error (tasks (Examples.finalState (Examples.compiled ".*")
                                   Examples.secondLaunchedSchedule
                                   (Examples.twoHostsConf "echo foo"))) 1
               = Some (mkTask 0 TStart))
    by (vm_compute; reflexivity).
  assert (H3 : nth_error (spawners (Examples.finalState (Examples.compiled ".*")
                                      Examples.secondLaunchedSchedule
                                      (Examples.twoHostsConf "echo foo"))) 0
               = Some (mkSpawner "echo foo" "foo" 0 (SRange 2)
                         (Some (Examples.compiled "foo")) 1
                         (Examples.credential "down.example" "22")))
    by (vm_compute; reflexivity).
  assert (H4 : RegexpFragment.Compile "foo" = Some (Examples.compiled "foo"))
    by (vm_compute; reflexivity).
  assert (H5 : Network.sshConnectToHost "down.example" "22" "monitor"
                 "/etc/ssh_exporter/id_rsa"
               = inr "dial tcp down.example:22: connect: connection refused")
    by reflexivity.
  assert (H6 : exampleRun (Examples.compiled ".*") Examples.secondClosureSchedule
                 (Examples.finalState (Examples.compiled ".*")
                    Examples.secondLaunchedSchedule (Examples.twoHostsConf "echo foo"))
               = Some (Examples.finalState (Examples.compiled ".*")
                         (Examples.secondLaunchedSchedule
                          ++ Examples.secondClosureSchedule)
                         (Examples.twoHostsConf "echo foo")))
    by (vm_compute; reflexivity).
  assert (H7 : undisturbed (Examples.finalState (Examples.compiled ".*")
                              Examples.secondLaunchedSchedule
                              (Examples.twoHostsConf "echo foo"))
                 0 1 Examples.secondClosureSchedule)
    by undisturbed_schedule.
  assert (H8 : nth_error (tasks (Examples.finalState (Examples.compiled ".*")
                                   (Examples.secondLaunchedSchedule
                                    ++ Examples.secondClosureSchedule)
                                   (Examples.twoHostsConf "echo foo"))) 1
               = Some (mkTask 0 TSend))
    by (vm_compute; reflexivity).
  split.
  { split; [exact H1|]. split; [exact H2|]. split; [exact H3|]. split; [exact H4|].
    split; [exact H5|]. split; [exact H6|]. split; [exact H7 | exact H8]. }
  cbv zeta. revert H1 H2 H3 H6 H7 H8.
  generalize (Examples.finalState (Examples.compiled ".*")
                (Examples.secondLaunchedSchedule ++ Examples.secondClosureSchedule)
                (Examples.twoHostsConf "echo foo")).
  generalize (Examples.finalState (Examples.compiled ".*")
                Examples.secondLaunchedSchedule (Examples.twoHostsConf "echo foo")).
  intros st st' H1 H2 H3 H6 H7 H8.
  destruct (@connection_failure_recorded RegexpFragment.re RegexpFragment.Compile
              RegexpFragment.MatchString Network.Session Network.sshConnectToHost
              Network.CombinedOutput (Examples.compiled ".*")
              (Examples.twoHostsConf "echo foo")
              Examples.secondLaunchedSchedule Examples.secondClosureSchedule
              st st' 1 (mkTask 0 TStart) (mkTask 0 TSend)
              (mkSpawner "echo foo" "foo" 0 (SRange 2)
                 (Some (Examples.compiled "foo")) 1
                 (Examples.credential "down.example" "22"))
              (Examples.twoHostsScript "echo foo")
              (Examples.credential "down.example" "22")
              (Examples.compiled "foo")
              "dial tcp down.example:22: connect: connection refused"
              H1 H2 eq_refl H3 eq_refl eq_refl H4 H5 H6 H7 H8 I)
    as (s' & slot' & E1 & E2 & Hst & Hcode & Hres & Herr & Hm).
  exists s', slot'. split; [exact E1|]. split; [exact E2|].
  split; [now injection Hst|]. split; [exact Hcode|]. split; [exact Hres|].
  split; [exact Herr | exact Hm].
Defined.

(** C2 as the specification words it fails: a script without [pattern]
    has the empty pattern, which compiles and matches every string.  On
    one host, which refuses the connection, the request run to its end
    returns a configuration in which the slot of that host has exit status
    -1 and the match flag 1, not 0. *)
Lemma connection_failure_match_counterexample :
  Network.sshConnectToHost "down.example" "22" "monitor" "/etc/ssh_exporter/id_rsa"
  = inr "dial tcp down.example:22: connect: connection refused"
  /\
  RegexpFragment.Compile EmptyString = Some (Examples.compiled EmptyString)
  /\
  exists st s slot,
    exampleRun (Examples.compiled ".*") Examples.completeSchedule
      (initState _ Examples.noPatternConf) = Some st /\
    BatchExecute_result st = Some (conf st, None) /\
    wg st = 0 /\ map t_pc (tasks st) = [TExit] /\
    nth_error (Scripts (conf st)) 0 = Some s /\
    nth_error (Credentials s) 0 = Some slot /\
    Host slot = "down.example" /\
    ScriptReturnCode slot = -1 /\
    ResultPatternMatch slot = 1 /\
    ResultPatternMatch slot <> 0.
Proof.
  split; [reflexivity|]. split; [vm_compute; reflexivity|].
  eexists. eexists. eexists. split; [vm_compute; reflexivity|].
  split; [reflexivity|]. split; [reflexivity|]. split; [reflexivity|].
  split; [reflexivity|]. split; [reflexivity|].
  repeat split. discriminate.
Qed.

(** C4, the code at the failing schedule.  [echo foo] on [up.example]
    and [down.example], request [pattern=.*].  The first closure makes its
    call while the loop variable [c] is [up.example]: the command
    completes with exit status zero and its output, escaped, matches the
    pattern [foo].  The closures share the loop variables of
    [executeScript]; the loop goes through its second turn before the
    first closure makes its assignments, which therefore go to slot
    number 1 of [creds], the slot of [down.example].  The second closure then
    overwrites that slot with the failure of its own connection.  Every
    closure has run to its end, the counter of [done] is back at zero and
    [BatchExecute] returns; the slot of [up.example] holds the zero
    values: the empty output and the match flag 0. *)
Theorem success_lost_when_loop_moves :
  executeScriptOnHost Network.sshConnectToHost Network.CombinedOutput
    "up.example" "22" "monitor" "/etc/ssh_exporter/id_rsa" "echo foo"
  = ("foo\nbar\n", 0, None)
  /\
  RegexpFragment.MatchString (Examples.compiled "foo") "foo\nbar\n" = true
  /\
  Examples.slotReport
    (Examples.finalState (Examples.compiled ".*")
       (firstn 16 Examples.movedLoopSchedule) (Examples.twoHostsConf "echo foo"))
  = [[("up.example", EmptyString, 0, EmptyString, 0);
      ("down.example", "foo\nbar\n", 0, EmptyString, 1)]]
  /\
  exists st,
    exampleRun (Examples.compiled ".*") Examples.movedLoopSchedule
      (initState _ (Examples.twoHostsConf "echo foo")) = Some st /\
    BatchExecute_result st = Some (conf st, None) /\
    wg st = 0 /\
    map t_pc (tasks st) = [TExit; TExit] /\
    map (fun e => Host (snd e)) (contacted st) = ["down.example"; "up.example"] /\
    Examples.slotReport st
    = [[("up.example", EmptyString, 0, EmptyString, 0);
        ("down.example", EmptyString, -1,
         "dial tcp down.example:22: connect: connection refused", 0)]].
Proof.
  split; [vm_compute; reflexivity|]. split; [vm_compute; reflexivity|].
  split; [vm_compute; reflexivity|].
  eexists. split; [vm_compute; reflexivity|]. vm_compute. repeat split.
Qed.

(** C5, the code at the failing schedule.  [exit 3] on the same two
    hosts.  The first closure makes its call while [c] is [up.example]:
    the command exits with status 3.  The loop moves on before the closure
    makes its assignments, which go to the slot of [down.example]; the
    second closure does not get to run before the timer of the second
    [select] fires, and [BatchExecute] returns.  The slot of
    [up.example], where the command exited with status 3, holds exit
    status 0 and no error text; the slot of [down.example], which nothing
    has contacted, holds exit status 3. *)
Theorem exit_status_recorded_for_other_host :
  executeScriptOnHost Network.sshConnectToHost Network.CombinedOutput
    "up.example" "22" "monitor" "/etc/ssh_exporter/id_rsa" "exit 3"
  = (EmptyString, 3, Some "Process exited with status 3")
  /\
  exists st,
    exampleRun (Examples.compiled ".*") Examples.movedLoopTimeoutSchedule
      (initState _ (Examples.twoHostsConf "exit 3")) = Some st /\
    BatchExecute_result st = Some (conf st, None) /\
    map (fun e => Host (snd e)) (contacted st) = ["up.example"] /\
    Examples.slotReport st
    = [[("up.example", EmptyString, 0, EmptyString, 0);
        ("down.example", EmptyString, 3, "Process exited with status 3", 0)]].
Proof.
  split; [vm_compute; reflexivity|].
  eexists. split; [vm_compute; reflexivity|]. vm_compute. repeat split.
Qed.

(** Witness of X19: the first closure of [echo foo] on the two hosts,
    started while the loop variables designate [up.example] and
    undisturbed until it has made its assignments: the slot of
    [up.example] holds the escaped output, status 0 and the match flag
    1. *)
Lemma success_recorded_in_slot_witness :
  (exampleRun (Examples.compiled ".*") Examples.firstLaunchedSchedule
     (initState _ (Examples.twoHostsConf "echo foo"))
   = Some (Examples.finalState (Examples.compiled ".*")
             Examples.firstLaunchedSchedule (Examples.twoHostsConf "echo foo"))
   /\
   nth_error (tasks (Examples.finalState (Examples.compiled ".*")
                       Examples.firstLaunchedSchedule
                       (Examples.twoHostsConf "echo foo"))) 0
   = Some (mkTask 0 TStart)
   /\
   nth_error (spawners (Examples.finalState (Examples.compiled ".*")
                          Examples.firstLaunchedSchedule
                          (Examples.twoHostsConf "echo foo"))) 0
   = Some (mkSpawner "echo foo" "foo" 0 (SRange 1) (Some (Examples.compiled "foo")) 0
             (Examples.credential "up.example" "22"))
   /\
   RegexpFragment.Compile "foo" = Some (Examples.compiled "foo")
   /\
   Network.sshConnectToHost "up.example" "22" "monitor" "/etc/ssh_exporter/id_rsa"
   = inl "up.example"
   /\
   Network.CombinedOutput "up.example" "echo foo" = ("foo" ++ nl ++ "bar" ++ nl, None)
   /\
   exampleRun (Examples.compiled ".*") Examples.firstClosureSchedule
     (Examples.finalState (Examples.compiled ".*")
        Examples.firstLaunchedSchedule (Examples.twoHostsConf "echo foo"))
   = Some (Examples.finalState (Examples.compiled ".*")
             (Examples.firstLaunchedSchedule ++ Examples.firstClosureSchedule)
             (Examples.twoHostsConf "echo foo"))
   /\
   undisturbed (Examples.finalState (Examples.compiled ".*")
                  Examples.firstLaunchedSchedule (Examples.twoHostsConf "echo foo"))
     0 0 Examples.firstClosureSchedule
   /\
   nth_error (tasks (Examples.finalState (Examples.compiled ".*")
                       (Examples.firstLaunchedSchedule ++ Examples.firstClosureSchedule)
                       (Examples.twoHostsConf "echo foo"))) 0
   = Some (mkTask 0 TSend))
  /\
  let st' := Examples.finalState (Examples.compiled ".*")
               (Examples.firstLaunchedSchedule ++ Examples.firstClosureSchedule)
               (Examples.twoHostsConf "echo foo") in
  exists s' slot',
    nth_error (Scripts (conf st')) 0 = Some s' /\
    nth_error (Credentials s') 0 = Some slot' /\
    Host slot' = "up.example" /\
    ScriptResult slot' = "foo\nbar\n" /\
    ScriptReturnCode slot' = 0 /\
    ResultPatternMatch slot' = 1.
Proof.
  assert (H1 : exampleRun (Examples.compiled ".*") Examples.firstLaunchedSchedule
                 (initState _ (Examples.twoHostsConf "echo foo"))
               = Some (Examples.finalState (Examples.compiled ".*")
                         Examples.firstLaunchedSchedule
                         (Examples.twoHostsConf "echo foo")))
    by (vm_compute; reflexivity).
  assert (H2 : nth_error (tasks (Examples.finalState (Examples.compiled ".*")
                                   Examples.firstLaunchedSchedule
                                   (Examples.twoHostsConf "echo foo"))) 0
               = Some (mkTask 0 TStart))
    by (vm_compute; reflexivity).
  assert (H3 : nth_error (spawners (Examples.finalState (Examples.compiled ".*")
                                      Examples.firstLaunchedSchedule
                                      (Examples.twoHostsConf "echo foo"))) 0
               = Some (mkSpawner "echo foo" "foo" 0 (SRange 1)
                         (Some (Examples.compiled "foo")) 0
                         (Examples.credential "up.example" "22")))
    by (vm_compute; reflexivity).
  assert (H4 : RegexpFragment.Compile "foo" = Some (Examples.compiled "foo"))
    by (vm_compute; reflexivity).
  assert (H5 : Network.sshConnectToHost "up.example" "22" "monitor"
                 "/etc/ssh_exporter/id_rsa" = inl "up.example")
    by reflexivity.
  assert (H5' : Network.CombinedOutput "up.example" "echo foo"
                = ("foo" ++ nl ++ "bar" ++ nl, None))
    by reflexivity.
  assert (H6 : exampleRun (Examples.compiled ".*") Examples.firstClosureSchedule
                 (Examples.finalState (Examples.compiled ".*")
                    Examples.firstLaunchedSchedule (Examples.twoHostsConf "echo foo"))
               = Some (Examples.finalState (Examples.compiled ".*")
                         (Examples.firstLaunchedSchedule
                          ++ Examples.firstClosureSchedule)
                         (Examples.twoHostsConf "echo foo")))
    by (vm_compute; reflexivity).
  assert (H7 : undisturbed (Examples.finalState (Examples.compiled ".*")
                              Examples.firstLaunchedSchedule
                              (Examples.twoHostsConf "echo foo"))
                 0 0 Examples.firstClosureSchedule)
    by undisturbed_schedule.
  assert (H8 : nth_error (tasks (Examples.finalState (Examples.compiled ".*")
                                   (Examples.firstLaunchedSchedule
                                    ++ Examples.firstClosureSchedule)
                                   (Examples.twoHostsConf "echo foo"))) 0
               = Some (mkTask 0 TSend))
    by (vm_compute; reflexivity).
  split.
  { split; [exact H1|]. split; [exact H2|]. split; [exact H3|]. split; [exact H4|].
    split; [exact H5|]. split; [exact H5'|]. split; [exact H6|].
    split; [exact H7 | exact H8]. }
  cbv zeta. revert H1 H2 H3 H6 H7 H8.
  generalize (Examples.finalState (Examples.compiled ".*")
                (Examples.firstLaunchedSchedule ++ Examples.firstClosureSchedule)
                (Examples.twoHostsConf "echo foo")).
  generalize (Examples.finalState (Examples.compiled ".*")
                Examples.firstLaunchedSchedule (Examples.twoHostsConf "echo foo")).
  intros st st' H1 H2 H3 H6 H7 H8.
  destruct (@success_recorded_in_slot RegexpFragment.re RegexpFragment.Compile
              RegexpFragment.MatchString Network.Session Network.sshConnectToHost
              Network.CombinedOutput (Examples.compiled ".*")
              (Examples.twoHostsConf "echo foo")
              Examples.firstLaunchedSchedule Examples.firstClosureSchedule
              st st' 0 (mkTask 0 TStart) (mkTask 0 TSend)
              (mkSpawner "echo foo" "foo" 0 (SRange 1)
                 (Some (Examples.compiled "foo")) 0
                 (Examples.credential "up.example" "22"))
              (Examples.twoHostsScript "echo foo")
              (Examples.credential "up.example" "22")
              (Examples.compiled "foo") "up.example" ("foo" ++ nl ++ "bar" ++ nl)
              H1 H2 eq_refl H3 eq_refl eq_refl H4 H5 H5' H6 H7 H8 I)
    as (s' & slot' & E1 & E2 & Hst & Hres & _ & Hcode & Hm & _).
  exists s', slot'. split; [exact E1|]. split; [exact E2|].
  split; [now injection Hst|]. split; [exact Hres|]. split; [exact Hcode|].
  apply Hm. vm_compute. reflexivity.
Defined.

(** Witness of X20: the same closure for [exit 3]: the slot of
    [up.example] holds the status 3 that the text of the error carries,
    the text, and no output. *)
Lemma command_failure_recorded_in_slot_witness :
  (exampleRun (Examples.compiled ".*") Examples.firstLaunchedSchedule
     (initState _ (Examples.twoHostsConf "exit 3"))
   = Some (Examples.finalState (Examples.compiled ".*")
             Examples.firstLaunchedSchedule (Examples.twoHostsConf "exit 3"))
   /\
   nth_error (tasks (Examples.finalState (Examples.compiled ".*")
                       Examples.firstLaunchedSchedule
                       (Examples.twoHostsConf "exit 3"))) 0
   = Some (mkTask 0 TStart)
   /\
   nth_error (spawners (Examples.finalState (Examples.compiled ".*")
                          Examples.firstLaunchedSchedule
                          (Examples.twoHostsConf "exit 3"))) 0
   = Some (mkSpawner "exit 3" "foo" 0 (SRange 1) (Some (Examples.compiled "foo")) 0
             (Examples.credential "up.example" "22"))
   /\
   RegexpFragment.Compile "foo" = Some (Examples.compiled "foo")
   /\
   Network.sshConnectToHost "up.example" "22" "monitor" "/etc/ssh_exporter/id_rsa"
   = inl "up.example"
   /\
   Network.CombinedOutput "up.example" "exit 3"
   = ("partial" ++ nl, Some "Process exited with status 3")
   /\
   exampleRun (Examples.compiled ".*") Examples.firstClosureSchedule
     (Examples.finalState (Examples.compiled ".*")
        Examples.firstLaunchedSchedule (Examples.twoHostsConf "exit 3"))
   = Some (Examples.finalState (Examples.compiled ".*")
             (Examples.firstLaunchedSchedule ++ Examples.firstClosureSchedule)
             (Examples.twoHostsConf "exit 3"))
   /\
   undisturbed (Examples.finalState (Examples.compiled ".*")
                  Examples.firstLaunchedSchedule (Examples.twoHostsConf "exit 3"))
     0 0 Examples.firstClosureSchedule
   /\
   nth_error (tasks (Examples.finalState (Examples.compiled ".*")
                       (Examples.firstLaunchedSchedule ++ Examples.firstClosureSchedule)
                       (Examples.twoHostsConf "exit 3"))) 0
   = Some (mkTask 0 TSend))
  /\
  let st' := Examples.finalState (Examples.compiled ".*")
               (Examples.firstLaunchedSchedule ++ Examples.firstClosureSchedule)
               (Examples.twoHostsConf "exit 3") in
  exists s' slot',
    nth_error (Scripts (conf st')) 0 = Some s' /\
    nth_error (Credentials s') 0 = Some slot' /\
    Host slot' = "up.example" /\
    ScriptResult slot' = EmptyString /\
    ScriptError slot' = "Process exited with status 3" /\
    ScriptReturnCode slot' = 3.
Proof.
  assert (H1 : exampleRun (Examples.compiled ".*") Examples.firstLaunchedSchedule
                 (initState _ (Examples.twoHostsConf "exit 3"))
               = Some (Examples.finalState (Examples.compiled ".*")
                         Examples.firstLaunchedSchedule
                         (Examples.twoHostsConf "exit 3")))
    by (vm_compute; reflexivity).
  assert (H2 : nth_error (tasks (Examples.finalState (Examples.compiled ".*")
                                   Examples.firstLaunchedSchedule
                                   (Examples.twoHostsConf "exit 3"))) 0
               = Some (mkTask 0 TStart))
    by (vm_compute; reflexivity).
  assert (H3 : nth_error (spawners (Examples.finalState (Examples.compiled ".*")
                                      Examples.firstLaunchedSchedule
                                      (Examples.twoHostsConf "exit 3"))) 0
               = Some (mkSpawner "exit 3" "foo" 0 (SRange 1)
                         (Some (Examples.compiled "foo")) 0
                         (Examples.credential "up.example" "22")))
    by (vm_compute; reflexivity).
  assert (H4 : RegexpFragment.Compile "foo" = Some (Examples.compiled "foo"))
    by (vm_compute; reflexivity).
  assert (H5 : Network.sshConnectToHost "up.example" "22" "monitor"
                 "/etc/ssh_exporter/id_rsa" = inl "up.example")
    by reflexivity.
  assert (H5' : Network.CombinedOutput "up.example" "exit 3"
                = ("partial" ++ nl, Some "Process exited with status 3"))
    by reflexivity.
  assert (H6 : exampleRun (Examples.compiled ".*") Examples.firstClosureSchedule
                 (Examples.finalState (Examples.compiled ".*")
                    Examples.firstLaunchedSchedule (Examples.twoHostsConf "exit 3"))
               = Some (Examples.finalState (Examples.compiled ".*")
                         (Examples.firstLaunchedSchedule
                          ++ Examples.firstClosureSchedule)
                         (Examples.twoHostsConf "exit 3")))
    by (vm_compute; reflexivity).
  assert (H7 : undisturbed (Examples.finalState (Examples.compiled ".*")
                              Examples.firstLaunchedSchedule
                              (Examples.twoHostsConf "exit 3"))
                 0 0 Examples.firstClosureSchedule)
    by undisturbed_schedule.
  assert (H8 : nth_error (tasks (Examples.finalState (Examples.compiled ".*")
                                   (Examples.firstLaunchedSchedule
                                    ++ Examples.firstClosureSchedule)
                                   (Examples.twoHostsConf "exit 3"))) 0
               = Some (mkTask 0 TSend))
    by (vm_compute; reflexivity).
  split.
  { split; [exact H1|]. split; [exact H2|]. split; [exact H3|]. split; [exact H4|].
    split; [exact H5|]. split; [exact H5'|]. split; [exact H6|].
    split; [exact H7 | exact H8]. }
  cbv zeta. revert H1 H2 H3 H6 H7 H8.
  generalize (Examples.finalState (Examples.compiled ".*")
                (Examples.firstLaunchedSchedule ++ Examples.firstClosureSchedule)
                (Examples.twoHostsConf "exit 3")).
  generalize (Examples.finalState (Examples.compiled ".*")
                Examples.firstLaunchedSchedule (Examples.twoHostsConf "exit 3")).
  intros st st' H1 H2 H3 H6 H7 H8.
  destruct (@command_failure_recorded_in_slot RegexpFragment.re RegexpFragment.Compile
              RegexpFragment.MatchString Network.Session Network.sshConnectToHost
              Network.CombinedOutput (Examples.compiled ".*")
              (Examples.twoHostsConf "exit 3")
              Examples.firstLaunchedSchedule Examples.firstClosureSchedule
              st st' 0 (mkTask 0 TStart) (mkTask 0 TSend)
              (mkSpawner "exit 3" "foo" 0 (SRange 1)
                 (Some (Examples.compiled "foo")) 0
                 (Examples.credential "up.example" "22"))
              (Examples.twoHostsScript "exit 3")
              (Examples.credential "up.example" "22")
              (Examples.compiled "foo") "up.example" ("partial" ++ nl)
              "Process exited with status 3"
              H1 H2 eq_refl H3 eq_refl eq_refl H4 H5 H5' H6 H7 H8 I)
    as (s' & slot' & E1 & E2 & Hst & Hres & Herr & Hstatus & _ & _).
  exists s', slot'. split; [exact E1|]. split; [exact E2|].
  split; [now injection Hst|]. split; [exact Hres|]. split; [exact Herr|].
  apply (Hstatus 3 EmptyString EmptyString); [lia | reflexivity].
Defined.

(** An error that carries no status: the scan extracts nothing and -1 is
    returned. *)
Example command_without_status :
  executeScriptOnHost Network.sshConnectToHost Network.CombinedOutput
    "up.example" "22" "monitor" "/etc/ssh_exporter/id_rsa" "kill"
  = (EmptyString, -1,
     Some "wait: remote command exited without exit status or exit signal").
Proof. reflexivity. Qed.
